(** * film_sims: binary LUT containers to .cube text

    A shallow embedding of the converters of the repository,
    [tools/convert_oppo_luts.py], [tools/convert_bin_to_cube.py] and
    [tools/convert_png_to_cube.py], and the properties of their header
    parsing, layout inference, sample decoding, repair and serialization.

    Conventions of the embedding:
    - [bytes] is [list byte]; Python [int] is [Z]; [//] and [%] are [Z.div]
      and [Z.modulo] (both floor, like Python's), behind a test of the divisor
      where it is not a constant;
    - a Python [float] obtained by dividing two integers is the exact rational
      ([Q]); [f'{x:.6f}'] rounds that rational half-to-even at the sixth
      decimal, as Python does the float;
    - [round(n ** (1.0 / 3.0))] is not computable on rationals: it is a
      parameter [cbrt_round] of the code that uses it; read over the reals it
      is [nearest_cbrt], the integer nearest to the cube root, and
      [read_raw_rgba] gives the same result for every floating-point power
      that is within 1/2 of the root at the perfect cubes;
    - text is a string of the characters with code points below 256 (ASCII
      and Latin-1), which is what a [string] holds; the characters above 127
      are the ones that the ASCII codec refuses; a name with a character
      beyond 255 has no counterpart in the embedding;
    - a raised exception is the [Raise] constructor of [result];
    - a file written by the code is returned as a value; messages printed on
      standard output are left out. *)

From Stdlib Require Import ZArith List String Ascii Strings.Byte QArith Lia Bool.
From Stdlib Require Import Qabs DecimalString Permutation.
Import ListNotations.

Open Scope string_scope.
Open Scope list_scope.
Open Scope Z_scope.

(** ** Python prelude *)

Module Py.

Inductive exn : Type :=
| ValueError (msg : string)
| StructError
| IndexError
| ZeroDivisionError
| UnicodeEncodeError.

Inductive result (A : Type) : Type :=
| Ok (a : A)
| Raise (e : exn).

Arguments Ok {A} a.
Arguments Raise {A} e.

Definition bind {A B : Type} (c : result A) (k : A -> result B) : result B :=
  match c with
  | Ok a => k a
  | Raise e => Raise e
  end.

Definition bytes : Type := list byte.

Definition byte_val (b : byte) : Z := Z.of_N (Byte.to_N b).

Definition len {A : Type} (l : list A) : Z := Z.of_nat (List.length l).

(** [data[a:b]] for constant, non-negative [a <= b]: clamped, never raises. *)
Definition slice {A : Type} (a b : nat) (l : list A) : list A :=
  firstn (b - a) (skipn a l).

(** [data[off:]] for an integer [off]; a negative [off] counts from the end. *)
Definition slice_from {A : Type} (off : Z) (l : list A) : list A :=
  if 0 <=? off then skipn (Z.to_nat off) l
  else skipn (Z.to_nat (len l + off)) l.

(** [l[:stop]] for an integer [stop]; a negative [stop] counts from the end. *)
Definition slice_to {A : Type} (stop : Z) (l : list A) : list A :=
  if 0 <=? stop then firstn (Z.to_nat stop) l
  else firstn (Z.to_nat (len l + stop)) l.

(** [l[i]]: [IndexError] out of range, a negative [i] counts from the end. *)
Definition getitem {A : Type} (l : list A) (i : Z) : result A :=
  let j := if 0 <=? i then i else len l + i in
  if j <? 0 then Raise IndexError
  else match nth_error l (Z.to_nat j) with
       | Some x => Ok x
       | None => Raise IndexError
       end.

Fixpoint startswith (prefix data : bytes) : bool :=
  match prefix, data with
  | [], _ => true
  | _ :: _, [] => false
  | p :: ps, d :: ds => Byte.eqb p d && startswith ps ds
  end.

(** [needle in hay] on byte strings. *)
Fixpoint contains (needle hay : bytes) : bool :=
  startswith needle hay ||
  match hay with
  | [] => false
  | _ :: rest => contains needle rest
  end.

(** Little-endian unsigned integer held by a byte string. *)
Fixpoint le_int (bs : bytes) : Z :=
  match bs with
  | [] => 0
  | b :: rest => byte_val b + 256 * le_int rest
  end.

(** [struct.unpack('<I', bs)[0]]: the buffer must hold exactly 4 bytes. *)
Definition unpack_I (bs : bytes) : result Z :=
  if (List.length bs =? 4)%nat then Ok (le_int bs) else Raise StructError.

(** [struct.unpack('<Q', bs)[0]]: the buffer must hold exactly 8 bytes. *)
Definition unpack_Q (bs : bytes) : result Z :=
  if (List.length bs =? 8)%nat then Ok (le_int bs) else Raise StructError.

(** [struct.unpack_from('<12I', data, 0)]: at least 48 bytes are needed. *)
Definition unpack_from_12I (data : bytes) : result (list Z) :=
  if len data <? 48 then Raise StructError
  else Ok (map (fun k => le_int (slice (4 * k) (4 * k + 4) data)) (seq 0 12)).

(** [range(n)] *)
Definition range (n : Z) : list Z := map Z.of_nat (seq 0 (Z.to_nat n)).

(** [a // b] and [a % b] on integers. *)
Definition floordiv (a b : Z) : result Z :=
  if b =? 0 then Raise ZeroDivisionError else Ok (a / b).

Definition pymod (a b : Z) : result Z :=
  if b =? 0 then Raise ZeroDivisionError else Ok (a mod b).

(** [a / b] on integers: true division. *)
Definition true_div (a b : Z) : result Q :=
  if b =? 0 then Raise ZeroDivisionError
  else Ok (inject_Z a / inject_Z b)%Q.

(** [for x in xs: s = body(x, s)], an exception leaving the loop. *)
Fixpoint for_each {A S : Type} (xs : list A) (body : A -> S -> result S) (s : S)
  : result S :=
  match xs with
  | [] => Ok s
  | x :: rest => bind (body x s) (for_each rest body)
  end.

(** [bytes.isascii()] *)
Definition isascii (bs : bytes) : bool :=
  forallb (fun b => byte_val b <? 128) bs.

(** [bs.decode('ascii', errors='ignore')]: bytes above 127 are dropped; the
    text keeps one character per remaining byte. *)
Definition decode_ascii_ignore (bs : bytes) : bytes :=
  filter (fun b => byte_val b <? 128) bs.

(** The characters that a Rocq string literal cannot hold directly. *)
Definition dquote : string := String (ascii_of_nat 34) EmptyString.
Definition newline : string := String (ascii_of_nat 10) EmptyString.

(** [needle in hay] on text. *)
Fixpoint str_contains (needle hay : string) : bool :=
  String.prefix needle hay ||
  match hay with
  | EmptyString => false
  | String _ rest => str_contains needle rest
  end.

(** [s.endswith(suffix)] on text. *)
Definition endswith (suffix s : string) : bool :=
  let n := String.length s in
  let k := String.length suffix in
  (k <=? n)%nat && String.eqb (String.substring (n - k) k s) suffix.

(** [s[:-k]] on text, for a constant [k > 0]. *)
Definition drop_last (k : nat) (s : string) : string :=
  String.substring 0 (String.length s - k) s.

(** [s.lower()] on the characters below 256: the capitals are [A] to [Z]
    and the Latin-1 letters 192 to 222, the sign 215 apart; each is 32 below
    its small letter. *)
Definition lower_char (c : ascii) : ascii :=
  let n := nat_of_ascii c in
  if ((65 <=? n) && (n <=? 90))%nat then ascii_of_nat (n + 32)
  else if ((192 <=? n) && (n <=? 222) && negb (n =? 215))%nat then ascii_of_nat (n + 32)
  else c.

Fixpoint lower (s : string) : string :=
  match s with
  | EmptyString => EmptyString
  | String c rest => String (lower_char c) (lower rest)
  end.

(** A filesystem path, as its components; [pathlib] computes [name] and
    [stem] of the input file. *)
Definition Path : Type := list string.

Record file_path : Type := {
  parent : Path;
  name : string;
  stem : string
}.

(** [dir / filename] *)
Definition path_join (dir : Path) (filename : string) : Path := dir ++ [filename].

(** What a conversion leaves on disk. *)
Inductive file_content : Type :=
| BinaryFile (b : bytes)
| TextFile (s : string).

(** A normalized colour entry [(r, g, b)]. *)
Definition triple : Type := (Q * Q * Q)%type.

(** Two entries with equal components, as rationals. *)
Definition same_triple (s t : triple) : Prop :=
  let '(r1, g1, b1) := s in
  let '(r2, g2, b2) := t in
  (r1 == r2)%Q /\ (g1 == g2)%Q /\ (b1 == b2)%Q.

(** [str(n)] for an integer. *)
Definition str_int (n : Z) : string := NilZero.string_of_int (Z.to_int n).

(** [range(start, stop, step)] for a positive [step]. *)
Definition range_step (start stop step : Z) : list Z :=
  map (fun k => start + step * Z.of_nat k)
      (seq 0 (Z.to_nat ((stop - start + step - 1) / step))).

(** [s.replace(old, new)] for a one-character [old]. *)
Fixpoint replace_char (old : ascii) (new : string) (s : string) : string :=
  match s with
  | EmptyString => EmptyString
  | String c rest =>
      if Ascii.eqb c old then (new ++ replace_char old new rest)%string
      else String c (replace_char old new rest)
  end.

(** [s.isascii()] on text: every character is below 128. *)
Fixpoint str_isascii (s : string) : bool :=
  match s with
  | EmptyString => true
  | String c rest => (nat_of_ascii c <? 128)%nat && str_isascii rest
  end.

(** [fh.write(s)] on a file opened with [encoding="ascii"], [written] being
    the text written so far: a character above 127 cannot be encoded. *)
Definition write_ascii (s : string) (written : string) : result string :=
  if str_isascii s then Ok (written ++ s)%string else Raise UnicodeEncodeError.

(** [isinstance(e, ValueError)]: [UnicodeEncodeError] is a subclass of
    [ValueError]; [struct.error], [IndexError] and [ZeroDivisionError] are
    not. *)
Definition is_value_error (e : exn) : bool :=
  match e with
  | ValueError _ | UnicodeEncodeError => true
  | StructError | IndexError | ZeroDivisionError => false
  end.

End Py.

Import Py.

Declare Scope py_scope.
Notation "x <- c ;; k" := (bind c (fun x => k))
  (at level 61, c at next level, right associativity) : py_scope.
Notation "' pat <- c ;; k" := (bind c (fun x => match x with pat => k end))
  (at level 61, pat pattern, c at next level, right associativity) : py_scope.
Open Scope py_scope.

(** ** Fixed-precision formatting *)

Module Fmt.

(** Nearest integer to a rational, ties to even. *)
Definition round_half_even (q : Q) : Z :=
  let n := Qnum q in
  let d := Zpos (Qden q) in
  let fl := n / d in
  let rem := n mod d in
  match 2 * rem ?= d with
  | Lt => fl
  | Gt => fl + 1
  | Eq => if Z.even fl then fl else fl + 1
  end.

Definition digit (d : Z) : ascii := ascii_of_nat (48 + Z.to_nat (d mod 10)).

(** The six fractional digits of [m] millionths. *)
Definition frac6 (m : Z) : string :=
  String (digit (m / 100000))
 (String (digit (m / 10000))
 (String (digit (m / 1000))
 (String (digit (m / 100))
 (String (digit (m / 10))
 (String (digit m) EmptyString))))).

(** [f'{q:.6f}'] *)
Definition format_6f (q : Q) : string :=
  let m := round_half_even (Qabs q * inject_Z 1000000)%Q in
  ((if Qlt_le_dec q 0 then "-" else EmptyString) ++
   str_int (m / 1000000) ++ "." ++ frac6 (m mod 1000000))%string.

(** *** Notions used to state the properties *)

Definition is_digit (c : ascii) : Prop := (48 <= nat_of_ascii c <= 57)%nat.

Fixpoint all_digits (s : string) : Prop :=
  match s with
  | EmptyString => True
  | String c rest => is_digit c /\ all_digits rest
  end.

(** A decimal numeral with exactly six digits after the point. *)
Definition fixed_6 (s : string) : Prop :=
  exists sign whole frac,
    s = (sign ++ whole ++ "." ++ frac)%string /\
    (sign = EmptyString \/ sign = "-") /\
    all_digits whole /\ whole <> EmptyString /\
    String.length frac = 6%nat /\ all_digits frac.

End Fmt.


(** ** tools/convert_oppo_luts.py *)

Module ConvertOppoLuts.

(** The regular expressions of [GENRE_PATTERNS] are literals, some anchored
    at the start of the name with [^]; an escaped dot is the dot. *)
Inductive pattern : Type :=
| Lit (s : string)
| AtStart (s : string).

Definition GENRE_PATTERNS : list (string * list pattern) :=
  [ ("Ricoh GR", [AtStart "gr."; Lit "gr.bw"; Lit "gr.hi"; Lit "gr.nega"; Lit "gr.posi"]);
    ("Hasselblad Master", [Lit "radiance"; Lit "serenity"; Lit "emerald"]);
    ("Fujifilm", [Lit "fuji"; Lit "type_fuji"; Lit "provia"; Lit "velvia"; Lit "astia";
                  Lit "acros"; Lit "eterna"; Lit "chrome"]);
    ("Kodak Film", [Lit "kodak"; Lit "800t"; Lit "delta400"]);
    ("Cinematic (Movie)", [Lit "moneyball"; Lit "inception"; Lit "cyberpunk";
                           Lit "interstellar"; Lit "neon"; Lit "city"]);
    ("Instagram Filters", [AtStart "ins"; Lit "insclarendon"; Lit "insjuno"; Lit "insvalencia"]);
    ("OPPO Original", [AtStart "oplus"; AtStart "oppo"; AtStart "opc_"]);
    ("Black & White", [Lit "b-w"; Lit "blackandwhite"; Lit "mono"; Lit "grayscale"]);
    ("Portrait", [Lit "portrait"; Lit "pp1"; Lit "pp2"; Lit "pp3"; Lit "v02"]);
    ("Landscape", [Lit "landscape"; Lit "v01"; Lit "mountains"; Lit "island"; Lit "lake";
                   Lit "beach"; Lit "desert"; Lit "forest"; Lit "senlin"]);
    ("Food", [Lit "food"; Lit "v03"; Lit "gourmet"; Lit "meiwei"]);
    ("Night", [Lit "night"; Lit "v04"; Lit "moonlight"]);
    ("Warm Tones", [Lit "warm"; Lit "cola"; Lit "candy"; Lit "sweet"; Lit "gold"]);
    ("Cool Tones", [Lit "cold"; Lit "cool"; Lit "azure"; Lit "blue"]);
    ("Vintage/Retro", [Lit "old"; Lit "vintage"; Lit "retro"; Lit "drjw"; Lit "ccd"]);
    ("HDR/Video", [Lit "hdr"; Lit "log_video"; Lit "dolby"; Lit "bt2020"; Lit "bt709"; Lit "p3_"]);
    ("App Filters", [Lit "b612"; Lit "beautyplus"; Lit "faceapp"; Lit "snapseed";
                     Lit "sweetsnap"; Lit "youcam"]);
    ("Artistic", [Lit "morandi"; Lit "texture"; Lit "vivid"]);
    ("Japanese Style", [Lit "japan"; Lit "jiari"; Lit "bowu"; Lit "yuanqi"; Lit "qiuri"; Lit "lvtu"]);
    ("Golden Touch", [Lit "gt-"; Lit "glow"; Lit "rosy"; Lit "steaming"]) ].

(** [re.search(pattern, basename, re.IGNORECASE)] on a lowered name. The
    patterns are made of small ASCII letters, digits and signs; among the
    characters below 256 such a pattern character matches itself and, when
    it is a letter, its capital, which a lowered name does not hold. *)
Definition re_search (p : pattern) (basename : string) : bool :=
  match p with
  | Lit s => str_contains s basename
  | AtStart s => String.prefix s basename
  end.

Fixpoint first_genre (table : list (string * list pattern)) (basename : string)
  : option string :=
  match table with
  | [] => None
  | (genre, patterns) :: rest =>
      if existsb (fun p => re_search p basename) patterns then Some genre
      else first_genre rest basename
  end.

Definition categorize_lut (filename : string) : string :=
  let basename := lower filename in
  match first_genre GENRE_PATTERNS basename with
  | Some genre => genre
  | None => "Uncategorized"
  end.

(** The dictionary returned by [parse_ms_lut_header]. *)
Record header : Type := {
  version : Z;
  lut_size : Z;
  file_size : Z;
  data_offset : Z;
  channels : Z
}.

Definition MS_MAGIC : bytes := [x2e; x4d; x53; x2d; x4c; x55; x54; x20].

(** [for size in [32, 33, 17, 16, 21, 25, 20]: ...], lines 81-92: the first
    size whose cube times 3 or 4 is [remaining], with the channel count. *)
Fixpoint exact_match (remaining : Z) (sizes : list Z) : option (Z * Z) :=
  match sizes with
  | [] => None
  | size :: rest =>
      let expected_rgb := size ^ 3 * 3 in
      let expected_rgba := size ^ 3 * 4 in
      if (remaining =? expected_rgb) || (remaining =? expected_rgba)
      then Some (size, if remaining =? expected_rgb then 3 else 4)
      else exact_match remaining rest
  end.

(** [for ch in [3, 4]: ...], lines 96-105, for one size. *)
Fixpoint tolerance_channels (remaining size : Z) (chs : list Z) : option (Z * Z) :=
  match chs with
  | [] => None
  | ch :: rest =>
      let expected := size ^ 3 * ch in
      if Z.abs (remaining - expected) <=? 4 then Some (size, ch)
      else tolerance_channels remaining size rest
  end.

(** [for size in [20, 17, 21, 25]: for ch in [3, 4]: ...], lines 95-105. *)
Fixpoint tolerance_match (remaining : Z) (sizes : list Z) : option (Z * Z) :=
  match sizes with
  | [] => None
  | size :: rest =>
      match tolerance_channels remaining size [3; 4] with
      | Some r => Some r
      | None => tolerance_match remaining rest
      end
  end.

(** The [if]/[elif] chain on [file_size], lines 108-119. *)
Definition fallback_size (file_size : Z) : Z :=
  if file_size <=? 14900 then 17
  else if file_size <=? 17000 then 16
  else if file_size <=? 28000 then 21
  else if file_size <=? 100000 then 32
  else if file_size <=? 135000 then 32
  else 33.

Definition parse_ms_lut_header (data : bytes) : result (option header) :=
  if negb (startswith MS_MAGIC data) then Ok None
  else
    version <- unpack_I (slice 8 12 data) ;;
    lut_info <- unpack_I (slice 12 16 data) ;;
    data_offset <-
      (if 0x30 <=? len data then
         param_offset <- unpack_Q (slice 0x20 0x28 data) ;;
         data_offset_field <- unpack_Q (slice 0x28 0x30 data) ;;
         Ok (if (0 <? data_offset_field) && (data_offset_field <? len data)
             then data_offset_field else 0xB0)
       else Ok 0xB0) ;;
    let file_size := len data in
    let remaining := file_size - data_offset in
    match exact_match remaining [32; 33; 17; 16; 21; 25; 20] with
    | Some (size, channels) =>
        Ok (Some {| version := version; lut_size := size; file_size := file_size;
                    data_offset := data_offset; channels := channels |})
    | None =>
        match tolerance_match remaining [20; 17; 21; 25] with
        | Some (size, ch) =>
            Ok (Some {| version := version; lut_size := size; file_size := file_size;
                        data_offset := data_offset; channels := ch |})
        | None =>
            Ok (Some {| version := version; lut_size := fallback_size file_size;
                        file_size := file_size; data_offset := data_offset;
                        channels := 3 |})
        end
    end.

(** The loop shared, word for word, by [extract_lut_data] (lines 142-151)
    and [extract_byte_lut] (lines 185-194): one entry per index, leaving the
    loop at the first index whose three bytes are not all there. *)
Fixpoint byte_entries (lut_data : bytes) (channels : Z) (indices : list Z)
  (entries : list triple) : result (list triple) :=
  match indices with
  | [] => Ok entries
  | i :: rest =>
      let offset := i * channels in
      if len lut_data <? offset + 3 then Ok entries
      else
        b0 <- getitem lut_data offset ;;
        b1 <- getitem lut_data (offset + 1) ;;
        b2 <- getitem lut_data (offset + 2) ;;
        let r := (inject_Z (byte_val b0) / 255)%Q in
        let g := (inject_Z (byte_val b1) / 255)%Q in
        let b := (inject_Z (byte_val b2) / 255)%Q in
        byte_entries lut_data channels rest (entries ++ [(r, g, b)])
  end.

Definition extract_lut_data (data : bytes) (h : header) : result (list triple) :=
  let lut_data := slice_from (data_offset h) data in
  let num_entries := lut_size h ^ 3 in
  byte_entries lut_data (channels h) (range num_entries) [].

Definition extract_byte_lut (data : bytes) (lut_size channels : Z)
  : result (list triple) :=
  let num_entries := lut_size ^ 3 in
  byte_entries data channels (range num_entries) [].

Definition entry_line (e : triple) : string :=
  let '(r, g, b) := e in
  (Fmt.format_6f r ++ " " ++ Fmt.format_6f g ++ " " ++ Fmt.format_6f b ++ newline)%string.

(** The text that [write_cube_file] writes to [output_path]. *)
Definition write_cube_file (entries : list triple) (lut_size : Z) (title : string)
  : string :=
  ("TITLE " ++ dquote ++ title ++ dquote ++ newline ++
   "LUT_3D_SIZE " ++ str_int lut_size ++ newline ++
   "DOMAIN_MIN 0.0 0.0 0.0" ++ newline ++
   "DOMAIN_MAX 1.0 1.0 1.0" ++ newline ++
   newline ++
   String.concat EmptyString (map entry_line entries))%string.

(** The size guessed from the length of a file without header, lines
    266-276. *)
Definition guess_raw_size (file_size : Z) : Z :=
  if file_size =? 131072 then 32
  else if file_size =? 98304 then 32
  else if file_size =? 107991 then 33
  else if file_size =? 16384 then 16
  else 17.

(** [3 if file_size % 4 != 0 else 4], line 278. *)
Definition guess_raw_channels (file_size : Z) : Z :=
  if negb (file_size mod 4 =? 0) then 3 else 4.

(** The identity entry of the slot [idx], lines 294-298. *)
Definition identity_entry (lut_size idx : Z) : result triple :=
  b <- floordiv idx (lut_size * lut_size) ;;
  q <- floordiv idx lut_size ;;
  g <- pymod q lut_size ;;
  r <- pymod idx lut_size ;;
  rq <- true_div r (lut_size - 1) ;;
  gq <- true_div g (lut_size - 1) ;;
  bq <- true_div b (lut_size - 1) ;;
  Ok (rq, gq, bq).

(** [while len(entries) < expected: entries.append(...)], lines 293-298. *)
Fixpoint pad_identity (fuel : nat) (lut_size expected : Z) (entries : list triple)
  : result (list triple) :=
  match fuel with
  | O => Ok entries
  | S fuel' =>
      if len entries <? expected then
        e <- identity_entry lut_size (len entries) ;;
        pad_identity fuel' lut_size expected (entries ++ [e])
      else Ok entries
  end.

(** Lines 287-298 of [convert_bin_to_cube]: exactly [lut_size ** 3] entries.
    Every turn of the loop appends one entry, so [expected - len(entries)]
    turns are all it can take. *)
Definition repair (entries : list triple) (lut_size : Z) : result (list triple) :=
  let expected := lut_size ^ 3 in
  if expected <? len entries then Ok (slice_to expected entries)
  else if len entries <? expected then
    pad_identity (Z.to_nat (expected - len entries)) lut_size expected entries
  else Ok entries.

(** What [convert_bin_to_cube] returns, and the file it wrote, if any. *)
Record conversion : Type := {
  success : bool;
  genre : option string;
  output_path : option Path;
  written : option (Path * file_content)
}.

Definition failed : conversion :=
  {| success := false; genre := None; output_path := None; written := None |}.

Definition LUT_3D_SIZE : bytes :=
  [x4c; x55; x54; x5f; x33; x44; x5f; x53; x49; x5a; x45].
Definition TITLE : bytes := [x54; x49; x54; x4c; x45].

(** The test of lines 247-250: is the file a .cube text already? *)
Definition is_cube_text (data : bytes) : bool :=
  isascii (slice 0 20 data) &&
  (let text_start := decode_ascii_ignore (slice 0 500 data) in
   contains LUT_3D_SIZE text_start || contains TITLE text_start).

(** Lines 260-281: the cube size and the entries read from the file. *)
Definition read_entries (data : bytes) : result (Z * list triple) :=
  header <- parse_ms_lut_header data ;;
  match header with
  | None =>
      let file_size := len data in
      let lut_size := guess_raw_size file_size in
      entries <- extract_byte_lut data lut_size (guess_raw_channels file_size) ;;
      Ok (lut_size, entries)
  | Some h =>
      entries <- extract_lut_data data h ;;
      Ok (lut_size h, entries)
  end.

(** [not entries or len(entries) < lut_size ** 3 * 0.9], line 283. *)
Definition too_few (entries : list triple) (lut_size : Z) : bool :=
  match entries with
  | [] => true
  | _ :: _ =>
      if Qlt_le_dec (inject_Z (len entries)) (inject_Z (lut_size ^ 3) * (9 # 10))
      then true else false
  end.

(** The body of the [try] of [convert_bin_to_cube]. *)
Definition convert_body (bin_path : file_path) (output_dir : Path) (data : bytes)
  : result conversion :=
  if is_cube_text data then
    let output_path := path_join output_dir (stem bin_path ++ ".cube")%string in
    let genre := categorize_lut (stem bin_path) in
    Ok {| success := true; genre := Some genre; output_path := Some output_path;
          written := Some (output_path, BinaryFile data) |}
  else
    ' (lut_size, entries) <- read_entries data ;;
    if too_few entries lut_size then Ok failed
    else
      entries <- repair entries lut_size ;;
      let genre := categorize_lut (stem bin_path) in
      let output_path := path_join output_dir (stem bin_path ++ ".cube")%string in
      Ok {| success := true; genre := Some genre; output_path := Some output_path;
            written := Some (output_path,
                             TextFile (write_cube_file entries lut_size (stem bin_path))) |}.

(** [convert_bin_to_cube(bin_path, output_dir)], on the bytes read from
    [bin_path]: any exception gives [(False, None, None)]. *)
Definition convert_bin_to_cube (bin_path : file_path) (output_dir : Path)
  (data : bytes) : conversion :=
  match convert_body bin_path output_dir data with
  | Ok c => c
  | Raise _ => failed
  end.

(** The inner loop of [extract_byte_lut_auto], lines 210-217: the samples
    read from [offset], and whether none was cut short. *)
Fixpoint sample_loop (data : bytes) (offset : Z) (indices : list Z) (valid : bool)
  (sample_entries : list (Z * Z * Z)) : result (bool * list (Z * Z * Z)) :=
  match indices with
  | [] => Ok (valid, sample_entries)
  | i :: rest =>
      let pos := offset + i * 3 in
      if len data <? pos + 3 then Ok (false, sample_entries)
      else
        r <- getitem data pos ;;
        g <- getitem data (pos + 1) ;;
        b <- getitem data (pos + 2) ;;
        sample_loop data offset rest valid
          (sample_entries ++ [(byte_val r, byte_val g, byte_val b)])
  end.

(** The loop over the offsets, lines 205-224, with the fallback after it. *)
Fixpoint auto_offsets (data : bytes) (lut_size : Z) (offsets : list Z)
  : result (list triple) :=
  match offsets with
  | [] => extract_byte_lut (slice_from 0x30 data) lut_size 3
  | offset :: rest =>
      ' (valid, sample_entries) <-
        sample_loop data offset (range (Z.min 10 (lut_size ^ 3))) true [] ;;
      if valid && (10 <=? len sample_entries)
      then extract_byte_lut (slice_from offset data) lut_size 3
      else auto_offsets data lut_size rest
  end.

Definition extract_byte_lut_auto (data : bytes) (lut_size : Z) : result (list triple) :=
  let num_entries := lut_size ^ 3 in
  let expected_size := num_entries * 3 in
  auto_offsets data lut_size (range_step 0 (Z.min 512 (len data - expected_size)) 4).

(** A file met by [os.walk]: its path and its bytes. *)
Record dir_entry : Type := {
  entry_path : file_path;
  content : bytes
}.

(** The test of lines 324-331 on a file of the tree. *)
Definition is_lut_candidate (e : dir_entry) : bool :=
  let f := name (entry_path e) in
  if endswith ".cube" f then false
  else if endswith ".bin" f || negb (str_contains "." f)
  then 1000 <? len (content e)
  else false.

(** [results_by_genre]: a [defaultdict(list)], its keys in insertion order. *)
Definition genre_table : Type :=
  list (option string * list (file_path * option Path)).

(** Equality of two keys: a genre, or [None]. *)
Definition key_eqb (a b : option string) : bool :=
  match a, b with
  | Some x, Some y => String.eqb x y
  | None, None => true
  | _, _ => false
  end.

(** [results_by_genre[genre].append(item)] *)
Fixpoint dict_append (key : option string) (item : file_path * option Path)
  (d : genre_table) : genre_table :=
  match d with
  | [] => [(key, [item])]
  | (k, items) :: rest =>
      if key_eqb k key then (k, items ++ [item]) :: rest
      else (k, items) :: dict_append key item rest
  end.

(** The loop of lines 342-353 over the files to process. *)
Fixpoint convert_all (files : list dir_entry) (output_base : Path)
  (results_by_genre : genre_table) (failed : list file_path)
  : genre_table * list file_path :=
  match files with
  | [] => (results_by_genre, failed)
  | bin_file :: rest =>
      let c := convert_bin_to_cube (entry_path bin_file) output_base (content bin_file) in
      if success c
      then convert_all rest output_base
             (dict_append (genre c) (entry_path bin_file, output_path c) results_by_genre)
             failed
      else convert_all rest output_base results_by_genre (failed ++ [entry_path bin_file])
  end.

Section Directory.

(** [sorted(bin_files)]: the order of [pathlib] on the paths. *)
Variable sorted_files : list dir_entry -> list dir_entry.

(** [process_directory], on the files of the tree in the order of the walk. *)
Definition process_directory (walk : list dir_entry) (output_base : Path)
  : genre_table * list file_path :=
  let bin_files := filter is_lut_candidate walk in
  convert_all (sorted_files bin_files) output_base [] [].

End Directory.

(** [sum(len(files) for files in results_by_genre.values())], line 416. *)
Definition total_converted (results_by_genre : genre_table) : Z :=
  fold_right (fun kv acc => len (snd kv) + acc) 0 results_by_genre.

(** The folder of a genre, line 369. *)
Definition genre_dir_name (genre : string) : string :=
  replace_char ")" EmptyString
    (replace_char "(" EmptyString (replace_char "/" "-" genre)).

(** *** Notions used to state the properties *)

(** The entry made of the three bytes from [i * channels] on. *)
Definition entry_at (data : bytes) (channels i : Z) : triple :=
  (inject_Z (byte_val (nth (Z.to_nat (i * channels)) data x00)) / 255,
   inject_Z (byte_val (nth (Z.to_nat (i * channels + 1)) data x00)) / 255,
   inject_Z (byte_val (nth (Z.to_nat (i * channels + 2)) data x00)) / 255)%Q.

(** The number of indices [i >= 0] with [i * channels + 3 <= len(data)]. *)
Definition full_entries (data : bytes) (channels : Z) : Z :=
  Z.max 0 ((len data - 3) / channels + 1).

(** The three components of an entry lie between 0 and 1. *)
Definition in_unit (e : triple) : Prop :=
  let '(r, g, b) := e in
  (0 <= r <= 1)%Q /\ (0 <= g <= 1)%Q /\ (0 <= b <= 1)%Q.

(** The identity value of the slot [idx] of a cube of [size] points a side. *)
Definition ramp (size idx : Z) : triple :=
  (inject_Z (idx mod size) / inject_Z (size - 1),
   inject_Z ((idx / size) mod size) / inject_Z (size - 1),
   inject_Z (idx / (size * size)) / inject_Z (size - 1))%Q.

(** The data offset that [parse_ms_lut_header] settles on, lines 68-73. *)
Definition chosen_offset (data : bytes) : Z :=
  if 0x30 <=? len data then
    let field := le_int (slice 0x28 0x30 data) in
    if (0 <? field) && (field <? len data) then field else 0xB0
  else 0xB0.

(** The three tiers of lines 81-127, on the numbers they depend on. *)
Definition layout (version file_size data_offset : Z) : header :=
  let remaining := file_size - data_offset in
  match exact_match remaining [32; 33; 17; 16; 21; 25; 20] with
  | Some (size, channels) =>
      {| version := version; lut_size := size; file_size := file_size;
         data_offset := data_offset; channels := channels |}
  | None =>
      match tolerance_match remaining [20; 17; 21; 25] with
      | Some (size, ch) =>
          {| version := version; lut_size := size; file_size := file_size;
             data_offset := data_offset; channels := ch |}
      | None =>
          {| version := version; lut_size := fallback_size file_size;
             file_size := file_size; data_offset := data_offset; channels := 3 |}
      end
  end.

(** The (size, channels) pairs in the order the tolerance loops visit them. *)
Definition tolerance_pairs (sizes : list Z) : list (Z * Z) :=
  flat_map (fun size => [(size, 3); (size, 4)]) sizes.

End ConvertOppoLuts.

(** ** tools/convert_bin_to_cube.py *)

Module ConvertBinToCube.

Definition OUT_ROOT : string := "converted_cubes".
Definition MS_MAGIC : bytes := [x2e; x4d; x53; x2d; x4c; x55; x54; x20].

Definition read_ms_lut (data : bytes) : result (Z * string * bytes) :=
  if (len data <? 48) || negb (startswith MS_MAGIC data)
  then Raise (ValueError "missing .MS-LUT header")
  else
    header <- unpack_from_12I data ;;
    let size := nth 3 header 0 in
    let order_flag := nth 6 header 0 in
    let axis_offset := nth 8 header 0 in
    let data_offset := nth 10 header 0 in
    let expected_axis_end := axis_offset + size * 4 in
    let expected_data_len := size * size * size * 3 in
    if len data <? expected_axis_end then Raise (ValueError "axis block truncated")
    else if len data <? data_offset + expected_data_len
    then Raise (ValueError "payload truncated")
    else
      let order := if negb (order_flag =? 0) then "rgb" else "bgr" in
      let payload :=
        slice (Z.to_nat data_offset) (Z.to_nat (data_offset + expected_data_len)) data in
      Ok (size, order, payload).

(** The triple yielded at [idx]: the same expression in the three loops. *)
Definition yield_at (payload : bytes) (idx : Z) (inv_255 : Q) : result triple :=
  p0 <- getitem payload idx ;;
  p1 <- getitem payload (idx + 1) ;;
  p2 <- getitem payload (idx + 2) ;;
  Ok (inject_Z (byte_val p0) * inv_255,
      inject_Z (byte_val p1) * inv_255,
      inject_Z (byte_val p2) * inv_255)%Q.

(** The triples that the generator yields, in the order it yields them. *)
Definition iter_values (size : Z) (payload : bytes) (order : string)
  : result (list triple) :=
  let n2 := size * size in
  let inv_255 := (1 / 255)%Q in
  if String.eqb order "rgb" then
    for_each (range size) (fun b =>
      for_each (range size) (fun g =>
        let base := (g * size + b * n2) * 3 in
        for_each (range size) (fun r out =>
          let idx := base + r * 3 in
          t <- yield_at payload idx inv_255 ;;
          Ok (out ++ [t])))) []
  else if String.eqb order "bgr" then
    for_each (range size) (fun b =>
      for_each (range size) (fun g =>
        let base := (b + g * size) * 3 in
        for_each (range size) (fun r out =>
          let idx := base + r * n2 * 3 in
          t <- yield_at payload idx inv_255 ;;
          Ok (out ++ [t])))) []
  else if String.eqb order "rgba" then
    for_each (range size) (fun b =>
      for_each (range size) (fun g =>
        let base := (g * size + b * n2) * 4 in
        for_each (range size) (fun r out =>
          let idx := base + r * 4 in
          t <- yield_at payload idx inv_255 ;;
          Ok (out ++ [t])))) []
  else Raise (ValueError ("unsupported order: " ++ order)%string).

(** [src] is the path of the source below [ROOT]; the result is below
    [ROOT] too. *)
Definition cube_path_for (src : file_path) : Path :=
  let name := name src in
  let stem :=
    if endswith ".rgb.bin" name then drop_last 8 name
    else if endswith ".bin" name then drop_last 4 name
    else name in
  let stem :=
    if endswith ".cube" (lower stem) then drop_last 5 stem else stem in
  path_join (OUT_ROOT :: parent src) (stem ++ ".cube")%string.

Definition value_line (e : triple) : string :=
  let '(r, g, b) := e in
  (Fmt.format_6f r ++ " " ++ Fmt.format_6f g ++ " " ++ Fmt.format_6f b ++ newline)%string.

Section RawVolume.

(** [round(texel_count ** (1.0 / 3.0))], a floating-point computation. *)
Variable cbrt_round : Z -> Z.

Definition read_raw_rgba (data : bytes) : result (Z * string * bytes) :=
  if negb (len data mod 4 =? 0)
  then Raise (ValueError "byte length not divisible by 4 for RGBA data")
  else
    let texel_count := len data / 4 in
    let size := cbrt_round texel_count in
    if negb (size * size * size =? texel_count)
    then Raise (ValueError "byte length is not a perfect cube of RGBA texels")
    else Ok (size, "rgba", data).

(** [try: read_ms_lut(data) except ValueError: read_raw_rgba(data)] *)
Definition read_any (data : bytes) : result (Z * string * bytes * string) :=
  match read_ms_lut data with
  | Ok r => Ok (r, "ms-lut")
  | Raise e =>
      if is_value_error e then
        r <- read_raw_rgba data ;;
        Ok (r, "rgba")
      else Raise e
  end.

(** What [convert_file] returns, and the text it wrote to [dest]. *)
Record converted : Type := {
  dest : Path;
  size : Z;
  source_type : string;
  text : string
}.

(** [dest] is opened with [encoding="ascii"]: each [fh.write] encodes its
    text at once, and the first one holds the name of the source. The triples
    of the generator are taken one by one between the writes of the data
    lines; these lines hold digits, points, signs and spaces only, so the
    first exception is the same when the triples are all taken first. *)
Definition convert_file (path : file_path) (data : bytes) : result converted :=
  ' (size, order, payload, source_type) <- read_any data ;;
  let dest := cube_path_for path in
  fh <- write_ascii ("TITLE " ++ dquote ++ name path ++ dquote ++ newline)%string
          EmptyString ;;
  fh <- write_ascii ("LUT_3D_SIZE " ++ str_int size ++ newline)%string fh ;;
  fh <- write_ascii ("DOMAIN_MIN 0 0 0" ++ newline)%string fh ;;
  fh <- write_ascii ("DOMAIN_MAX 1 1 1" ++ newline)%string fh ;;
  values <- iter_values size payload order ;;
  fh <- for_each values (fun v fh => write_ascii (value_line v) fh) fh ;;
  Ok {| dest := dest; size := size; source_type := source_type; text := fh |}.

End RawVolume.

(** [round(n ** (1.0 / 3.0))] read over the reals: the integer [k] nearest
    to the cube root of [n >= 0], the first with [n < (k + 1/2)^3]. The root
    of an integer is never half-way between two integers, so there is no tie
    to break. *)
Fixpoint nearest_cbrt_from (fuel : nat) (k n : Z) : Z :=
  match fuel with
  | O => k
  | S fuel' =>
      if 8 * n <? (2 * k + 1) ^ 3 then k else nearest_cbrt_from fuel' (k + 1) n
  end.

Definition nearest_cbrt (n : Z) : Z := nearest_cbrt_from (Z.to_nat n) 0 n.

(** *** Notions used to state the properties *)

(** The value of the byte at [i]. *)
Definition byte_at (payload : bytes) (i : Z) : Z :=
  byte_val (nth (Z.to_nat i) payload x00).

(** The triple made of the three bytes from [idx] on. *)
Definition texel (payload : bytes) (idx : Z) : triple :=
  (inject_Z (byte_at payload idx) * (1 / 255),
   inject_Z (byte_at payload (idx + 1)) * (1 / 255),
   inject_Z (byte_at payload (idx + 2)) * (1 / 255))%Q.

(** All the triples of a cube, blue outermost and red innermost. *)
Definition cube_list (size : Z) (at_rgb : Z -> Z -> Z -> triple) : list triple :=
  flat_map (fun b =>
    flat_map (fun g =>
      flat_map (fun r => [at_rgb b g r]) (range size)) (range size)) (range size).

(** Where [iter_values] reads the texel of the grid point [(r, g, b)]: the
    index expressions of lines 79-81, 90-92 and 101-103. *)
Definition source_index (order : string) (size r g b : Z) : Z :=
  let n2 := size * size in
  if String.eqb order "rgb" then (g * size + b * n2) * 3 + r * 3
  else if String.eqb order "bgr" then (b + g * size) * 3 + r * n2 * 3
  else (g * size + b * n2) * 4 + r * 4.

Definition stride (order : string) : Z :=
  if String.eqb order "rgba" then 4 else 3.

Definition supported (order : string) : Prop :=
  order = "rgb" \/ order = "bgr" \/ order = "rgba".

(** The [k]-th little-endian 32-bit word of the header, [header[k]]. *)
Definition header_field (data : bytes) (k : nat) : Z :=
  le_int (slice (4 * k) (4 * k + 4) data).

Definition perfect_cube (t : Z) : Prop := exists n, n * n * n = t.

(** The floating-point cube root is accurate at [t]: when [t] is a cube, the
    rounded root is its root. *)
Definition cbrt_accurate_at (cbrt_round : Z -> Z) (t : Z) : Prop :=
  perfect_cube t -> cbrt_round t * cbrt_round t * cbrt_round t = t.

End ConvertBinToCube.

(** ** tools/convert_png_to_cube.py *)

Module ConvertPngToCube.

(** An image as [Image.open(path).convert('RGB')] gives it: [img.size] and
    the rows of pixels, each pixel three integers. *)
Record image : Type := {
  width : Z;
  height : Z;
  rows : list (list (Z * Z * Z))
}.

(** [pixels[x, y]] *)
Definition pixel_at (img : image) (x y : Z) : result (Z * Z * Z) :=
  row <- getitem (rows img) y ;;
  getitem row x.

(** The three values of a data line: [pixel[0]/255.0], [pixel[1]/255.0],
    [pixel[2]/255.0]. *)
Definition pixel_values (pixel : Z * Z * Z) : triple :=
  let '(p0, p1, p2) := pixel in
  (inject_Z p0 / 255, inject_Z p1 / 255, inject_Z p2 / 255)%Q.

Definition data_line (e : triple) : string :=
  let '(r, g, b) := e in
  (Fmt.format_6f r ++ " " ++ Fmt.format_6f g ++ " " ++ Fmt.format_6f b ++ newline)%string.

(** The text that [convert_hald_clut] writes to [dest_path], or [None] when
    it returns without writing; [stem] is [img_path.stem]. *)
Definition convert_hald_clut (img : image) (stem : string) : result (option string) :=
  if negb (width img =? 512) || negb (height img =? 512) then Ok None
  else
    let size := 64 in
    let tiles_per_row := 8 in
    values <-
      for_each (range size) (fun b =>
        let bx := b mod tiles_per_row in
        let by_ := b / tiles_per_row in
        let base_x := bx * size in
        let base_y := by_ * size in
        for_each (range size) (fun g =>
          for_each (range size) (fun r out =>
            let x := base_x + r in
            let y := base_y + g in
            pixel <- pixel_at img x y ;;
            Ok (out ++ [pixel_values pixel])))) [] ;;
    Ok (Some ("TITLE " ++ dquote ++ stem ++ dquote ++ newline ++
              "LUT_3D_SIZE " ++ str_int size ++ newline ++
              "DOMAIN_MIN 0.0 0.0 0.0" ++ newline ++
              "DOMAIN_MAX 1.0 1.0 1.0" ++ newline ++
              String.concat EmptyString (map data_line values))%string).

(** The text that [convert_1d_lut] writes, or [None]. *)
Definition convert_1d_lut (img : image) (stem : string) : result (option string) :=
  let size := width img in
  if negb (height img =? 1) then Ok None
  else
    values <-
      for_each (range size) (fun i out =>
        pixel <- pixel_at img i 0 ;;
        Ok (out ++ [pixel_values pixel])) [] ;;
    Ok (Some ("TITLE " ++ dquote ++ stem ++ dquote ++ newline ++
              "LUT_1D_SIZE " ++ str_int size ++ newline ++
              "DOMAIN_MIN 0.0 0.0 0.0" ++ newline ++
              "DOMAIN_MAX 1.0 1.0 1.0" ++ newline ++
              String.concat EmptyString (map data_line values))%string).

(** The choice of [main] for one image, lines 87-96. *)
Definition convert_image (img : image) (stem : string) : result (option string) :=
  let w := width img in
  let h := height img in
  if (w =? 512) && (h =? 512) then convert_hald_clut img stem
  else if (w =? 256) && (h =? 1) then convert_1d_lut img stem
  else Ok None.

(** *** Notions used to state the properties *)

(** The rows of a PIL image are [height] rows of [width] pixels. *)
Definition rectangular (img : image) : Prop :=
  len (rows img) = height img /\
  forall row, In row (rows img) -> len row = width img.

(** The pixel at column [x] of row [y]. *)
Definition pixel_of (img : image) (x y : Z) : Z * Z * Z :=
  nth (Z.to_nat x) (nth (Z.to_nat y) (rows img) []) (0, 0, 0).

(** The pixel that holds the grid point [(r, g, b)] of a HaldCLUT of 8x8
    tiles. *)
Definition hald_x (r b : Z) : Z := (b mod 8) * 64 + r.
Definition hald_y (g b : Z) : Z := (b / 8) * 64 + g.

End ConvertPngToCube.

(** ** The specification's wording, where it is compared with the code *)

Module Spec.

(** Section 4.2, step 2: the ranked candidate list. *)
Definition candidate_sizes : list Z := [32; 33; 17; 16; 21; 25; 20].

(** Section 4.2, step 3: step 2 repeated over the candidate list, a
    discrepancy of up to 4 bytes allowed, the first match winning. *)
Fixpoint tolerance_tier (remaining : Z) (sizes : list Z) : option (Z * Z) :=
  match sizes with
  | [] => None
  | size :: rest =>
      if Z.abs (remaining - size ^ 3 * 3) <=? 4 then Some (size, 3)
      else if Z.abs (remaining - size ^ 3 * 4) <=? 4 then Some (size, 4)
      else tolerance_tier remaining rest
  end.

Inductive channel_order : Type := RGB | BGR.

(** Section 4.3, byte encoding: the triple decoded at [i], the byte
    positions of red and blue selected by the channel order. *)
Definition decode_triple (order : channel_order) (payload : bytes) (i : Z) : triple :=
  let byte k := (inject_Z (ConvertBinToCube.byte_at payload k) / 255)%Q in
  match order with
  | RGB => (byte i, byte (i + 1), byte (i + 2))
  | BGR => (byte (i + 2), byte (i + 1), byte i)
  end.

(** Section 4.6: the four header lines, then one line per triple. *)
Definition serialize (volume : list triple) (size : Z) (title : string) : string :=
  ("TITLE " ++ dquote ++ title ++ dquote ++ newline ++
   "LUT_3D_SIZE " ++ str_int size ++ newline ++
   "DOMAIN_MIN 0 0 0" ++ newline ++
   "DOMAIN_MAX 1 1 1" ++ newline ++
   String.concat EmptyString (map ConvertBinToCube.value_line volume))%string.

End Spec.

(** ** Sample files *)

Module Samples.

(** A header of size 2 whose data offset, 100, leaves 8 of the 24 payload
    bytes: 108 bytes in all, four times 27. *)
Definition truncated_108 : bytes :=
  ConvertOppoLuts.MS_MAGIC ++ repeat x00 4 ++ [x02; x00; x00; x00] ++ repeat x00 24 ++
  [x64; x00; x00; x00] ++ repeat x00 64.

(** The same header with data offset 48, in a file of 48 bytes. *)
Definition truncated_48 : bytes :=
  ConvertOppoLuts.MS_MAGIC ++ repeat x00 4 ++ [x02; x00; x00; x00] ++ repeat x00 24 ++
  [x30; x00; x00; x00] ++ repeat x00 4.

(** A header followed by zeros, 24178 bytes in all: the remainder after the
    default offset 0xB0 is 24002, two bytes more than [20^3 * 3]. *)
Definition near_20_cube : bytes := ConvertOppoLuts.MS_MAGIC ++ repeat x00 (Z.to_nat 24170).

(** A header followed by zeros, 12465 bytes in all: the remainder is 12289,
    one byte more than [16^3 * 3]. *)
Definition near_16_cube : bytes := ConvertOppoLuts.MS_MAGIC ++ repeat x00 (Z.to_nat 12457).

(** A header followed by zeros, 12464 bytes in all: the remainder after the
    default offset is [16^3 * 3]. *)
Definition exact_16_cube : bytes := ConvertOppoLuts.MS_MAGIC ++ repeat x00 (Z.to_nat 12456).

(** A tree of three files: a .cube text kept under the name [warm.bin], a
    file too small to be taken and a file that is already a [.cube]. *)
Definition sample_walk : list ConvertOppoLuts.dir_entry :=
  [ {| ConvertOppoLuts.entry_path := {| parent := ["OPPO"]; name := "warm.bin"; stem := "warm" |};
       ConvertOppoLuts.content := ConvertOppoLuts.TITLE ++ repeat x0a 1000 |};
    {| ConvertOppoLuts.entry_path := {| parent := ["OPPO"]; name := "tiny.bin"; stem := "tiny" |};
       ConvertOppoLuts.content := repeat x00 16 |};
    {| ConvertOppoLuts.entry_path := {| parent := ["OPPO"]; name := "done.cube"; stem := "done" |};
       ConvertOppoLuts.content := ConvertOppoLuts.TITLE ++ repeat x0a 2000 |} ].

(** A black image of 512 by 512 pixels, and a black strip of 256 by 1. *)
Definition black_hald : ConvertPngToCube.image :=
  {| ConvertPngToCube.width := 512; ConvertPngToCube.height := 512;
     ConvertPngToCube.rows := repeat (repeat (0, 0, 0) 512) 512 |}.

Definition black_strip : ConvertPngToCube.image :=
  {| ConvertPngToCube.width := 256; ConvertPngToCube.height := 1;
     ConvertPngToCube.rows := [repeat (0, 0, 0) 256] |}.

(** The bytes 0 to 23: the payload of a cube of size 2 with 3 channels. *)
Definition ascending_24 : bytes :=
  [x00; x01; x02; x03; x04; x05; x06; x07; x08; x09; x0a; x0b;
   x0c; x0d; x0e; x0f; x10; x11; x12; x13; x14; x15; x16; x17].

(** Eight black entries: a volume of size 2. *)
Definition black_8 : list triple := repeat (0, 0, 0)%Q 8.

(** A complete container of 80 bytes: the signature, version 2, size 2, 3
    channels, order flag 1, the axis table at 48 and the data at 56; then the
    8 bytes of the axis table and the payload [ascending_24]. *)
Definition ms_lut_2 : bytes :=
  ConvertOppoLuts.MS_MAGIC ++
  [x02; x00; x00; x00] ++ [x02; x00; x00; x00] ++ [x00; x00; x00; x00] ++
  [x03; x00; x00; x00] ++ [x01; x00; x00; x00] ++ [x00; x00; x00; x00] ++
  [x30; x00; x00; x00] ++ [x00; x00; x00; x00] ++ [x38; x00; x00; x00] ++
  [x00; x00; x00; x00] ++ repeat x00 8 ++ ascending_24.

(** A file name with a character that is not ASCII (code 233). *)
Definition accented_name : string :=
  ("caf" ++ String (ascii_of_nat 233) ".bin")%string.

End Samples.

(** ** Facts about the prelude *)

Section PreludeFacts.

Context {A : Type}.

Lemma Ok_inj (a b : A) : Ok a = Ok b -> a = b.
Proof. intros H. now injection H. Qed.

Lemma len_nonneg (l : list A) : 0 <= len l.
Proof. unfold len. lia. Qed.

Lemma len_app (l1 l2 : list A) : len (l1 ++ l2) = len l1 + len l2.
Proof. unfold len. rewrite length_app. lia. Qed.

Lemma getitem_in_range (l : list A) (i : Z) (d : A) :
  0 <= i < len l -> getitem l i = Ok (nth (Z.to_nat i) l d).
Proof.
  intros [Hlo Hhi]. unfold getitem.
  destruct (0 <=? i) eqn:E; [|apply Z.leb_gt in E; lia].
  destruct (i <? 0) eqn:E'; [apply Z.ltb_lt in E'; lia|].
  destruct (nth_error l (Z.to_nat i)) as [x|] eqn:Hn.
  - f_equal. symmetry. apply nth_error_nth. exact Hn.
  - apply nth_error_None in Hn. unfold len in Hhi. lia.
Qed.

Lemma slice_prefix (b : nat) (l : list A) : slice 0 b l = firstn b l.
Proof. unfold slice. now rewrite Nat.sub_0_r. Qed.

Lemma length_slice (a b : nat) (l : list A) :
  (a <= b)%nat -> (b <= List.length l)%nat -> List.length (slice a b l) = (b - a)%nat.
Proof.
  intros Hab Hb. unfold slice. rewrite length_firstn, length_skipn. lia.
Qed.

End PreludeFacts.

Lemma startswith_app (prefix rest : bytes) : startswith prefix (prefix ++ rest) = true.
Proof.
  induction prefix as [|p ps IH]; cbn [startswith app]; [reflexivity|].
  now rewrite Byte.byte_dec_lb, IH.
Qed.

Lemma contains_app (needle pre post : bytes) :
  contains needle (pre ++ needle ++ post) = true.
Proof.
  induction pre as [|a pre IH].
  - cbn [app]. pose proof (startswith_app needle post) as Hstart.
    destruct (needle ++ post); cbn [contains]; now rewrite Hstart.
  - cbn [app contains]. rewrite IH. apply orb_true_r.
Qed.

Lemma str_app_assoc (a b c : string) : ((a ++ b) ++ c = a ++ (b ++ c))%string.
Proof. induction a as [|x a IH]; cbn; [reflexivity|now rewrite IH]. Qed.

Lemma str_app_nil_r (a : string) : (a ++ EmptyString)%string = a.
Proof. induction a as [|x a IH]; cbn; [reflexivity|now rewrite IH]. Qed.

Lemma str_concat_cons (x : string) (xs : list string) :
  String.concat EmptyString (x :: xs) = (x ++ String.concat EmptyString xs)%string.
Proof.
  destruct xs as [|y ys]; cbn [String.concat]; [now rewrite str_app_nil_r|reflexivity].
Qed.

Lemma str_isascii_app (a b : string) :
  str_isascii (a ++ b)%string = str_isascii a && str_isascii b.
Proof.
  induction a as [|x a IH]; cbn [append str_isascii]; [reflexivity|].
  now rewrite IH, andb_assoc.
Qed.

(** The title line can be encoded exactly when the name can. *)
Lemma title_line_isascii (name : string) :
  str_isascii ("TITLE " ++ dquote ++ name ++ dquote ++ newline)%string =
  str_isascii name.
Proof.
  rewrite !str_isascii_app.
  change (str_isascii "TITLE ") with true. change (str_isascii dquote) with true.
  change (str_isascii newline) with true. cbn [andb]. now rewrite !andb_true_r.
Qed.

(** ** Completion of the entries (convert_oppo_luts.py, lines 287-298) *)

Module RepairFacts.
Import ConvertOppoLuts.

Lemma identity_entry_ramp (size idx : Z) :
  2 <= size -> identity_entry size idx = Ok (ramp size idx).
Proof.
  intros Hsize. unfold identity_entry, floordiv, pymod, true_div, ramp.
  assert (Hsq : (size * size =? 0) = false) by (apply Z.eqb_neq; nia).
  assert (Hs : (size =? 0) = false) by (apply Z.eqb_neq; lia).
  assert (Hp : (size - 1 =? 0) = false) by (apply Z.eqb_neq; lia).
  rewrite Hsq. cbn [bind]. rewrite Hs. cbn [bind]. rewrite Hp. reflexivity.
Qed.

Lemma pad_identity_run (size expected : Z) (Hsize : 2 <= size) :
  forall (fuel : nat) (entries : list triple),
    len entries + Z.of_nat fuel = expected ->
    pad_identity fuel size expected entries =
    Ok (entries ++ map (fun i => ramp size (len entries + Z.of_nat i)) (seq 0 fuel)).
Proof.
  induction fuel as [|fuel IH]; intros entries Hlen.
  - cbn. now rewrite app_nil_r.
  - cbn [pad_identity].
    assert (Hlt : (len entries <? expected) = true) by (apply Z.ltb_lt; lia).
    rewrite Hlt, identity_entry_ramp by exact Hsize. cbn [bind].
    rewrite IH by (rewrite len_app; unfold len in *; cbn [List.length]; lia).
    rewrite <- app_assoc. do 2 f_equal. cbn [app seq map].
    rewrite Z.add_0_r. f_equal.
    rewrite <- seq_shift, map_map. apply map_ext. intros i.
    rewrite len_app. unfold len at 2. cbn [List.length]. f_equal. lia.
Qed.

Lemma repair_pads (entries : list triple) (size : Z) :
  2 <= size -> len entries < size ^ 3 ->
  repair entries size =
  Ok (entries ++ map (fun i => ramp size (len entries + Z.of_nat i))
                     (seq 0 (Z.to_nat (size ^ 3 - len entries)))).
Proof.
  intros Hsize Hshort. unfold repair.
  destruct (size ^ 3 <? len entries) eqn:E; [apply Z.ltb_lt in E; lia|].
  destruct (len entries <? size ^ 3) eqn:E'; [|apply Z.ltb_ge in E'; lia].
  apply pad_identity_run; [exact Hsize|]. pose proof (len_nonneg entries). lia.
Qed.

Lemma repair_returns (entries : list triple) (size : Z) :
  2 <= size -> exists out, repair entries size = Ok out /\ len out = size ^ 3.
Proof.
  intros Hsize.
  assert (Hpos : 0 <= size ^ 3) by (apply Z.pow_nonneg; lia).
  destruct (Z.lt_trichotomy (len entries) (size ^ 3)) as [Hlt | [Heq | Hgt]].
  - eexists. split; [apply repair_pads; assumption|].
    rewrite len_app. unfold len at 2. rewrite length_map, length_seq.
    pose proof (len_nonneg entries). lia.
  - exists entries. split; [|exact Heq]. unfold repair.
    rewrite Heq, Z.ltb_irrefl. reflexivity.
  - exists (firstn (Z.to_nat (size ^ 3)) entries). split.
    + unfold repair, slice_to.
      destruct (size ^ 3 <? len entries) eqn:E; [|apply Z.ltb_ge in E; lia].
      destruct (0 <=? size ^ 3) eqn:E'; [reflexivity|apply Z.leb_gt in E'; lia].
    + unfold len in *. rewrite length_firstn. lia.
Qed.

End RepairFacts.

(** ** Layout inference (convert_oppo_luts.py, [parse_ms_lut_header]) *)

Module LayoutFacts.
Import ConvertOppoLuts.

Lemma parse_with_magic (data : bytes) :
  startswith MS_MAGIC data = true -> 16 <= len data ->
  parse_ms_lut_header data =
  Ok (Some (layout (le_int (slice 8 12 data)) (len data) (chosen_offset data))).
Proof.
  intros Hmagic Hlen. unfold parse_ms_lut_header, layout, chosen_offset.
  rewrite Hmagic. cbn [negb]. unfold len in *.
  unfold unpack_I. rewrite !length_slice by lia. cbn [Nat.sub Nat.eqb bind].
  destruct (48 <=? Z.of_nat (List.length data)) eqn:E.
  - apply Z.leb_le in E. unfold unpack_Q. rewrite !length_slice by lia.
    cbn [Nat.sub Nat.eqb bind].
    destruct exact_match as [[? ?]|]; [reflexivity|].
    destruct tolerance_match as [[? ?]|]; reflexivity.
  - cbn [bind].
    destruct exact_match as [[? ?]|]; [reflexivity|].
    destruct tolerance_match as [[? ?]|]; reflexivity.
Qed.

Lemma parse_without_magic (data : bytes) :
  startswith MS_MAGIC data = false -> parse_ms_lut_header data = Ok None.
Proof. intros H. unfold parse_ms_lut_header. now rewrite H. Qed.

Lemma exact_match_none (remaining : Z) (sizes : list Z) :
  exact_match remaining sizes = None <->
  (forall size, In size sizes -> remaining <> size ^ 3 * 3 /\ remaining <> size ^ 3 * 4).
Proof.
  induction sizes as [|s rest IH]; cbn [exact_match In].
  - split; [intros _ ? []|reflexivity].
  - destruct (remaining =? s ^ 3 * 3) eqn:E3; cbn [orb].
    + apply Z.eqb_eq in E3. split; [discriminate|].
      intros H. destruct (H s (or_introl eq_refl)) as [H3 _]. contradiction.
    + destruct (remaining =? s ^ 3 * 4) eqn:E4.
      * apply Z.eqb_eq in E4. split; [discriminate|].
        intros H. destruct (H s (or_introl eq_refl)) as [_ H4]. contradiction.
      * apply Z.eqb_neq in E3, E4. rewrite IH. split.
        -- intros H size [<-|Hin]; [split; assumption|apply H, Hin].
        -- intros H size Hin. apply H. right. exact Hin.
Qed.

Lemma exact_match_some (remaining : Z) (sizes : list Z) (size ch : Z) :
  exact_match remaining sizes = Some (size, ch) ->
  In size sizes /\ remaining = size ^ 3 * ch /\ (ch = 3 \/ ch = 4).
Proof.
  induction sizes as [|s rest IH]; cbn [exact_match In]; [discriminate|].
  destruct (remaining =? s ^ 3 * 3) eqn:E3; cbn [orb].
  - intros [= <- <-]. apply Z.eqb_eq in E3. auto.
  - destruct (remaining =? s ^ 3 * 4) eqn:E4.
    + intros [= <- <-]. apply Z.eqb_eq in E4. auto.
    + intros H. destruct (IH H) as (Hin & Hrem & Hch). auto.
Qed.

Lemma tolerance_match_none (remaining : Z) (sizes : list Z) :
  tolerance_match remaining sizes = None <->
  (forall size ch, In (size, ch) (tolerance_pairs sizes) ->
     4 < Z.abs (remaining - size ^ 3 * ch)).
Proof.
  induction sizes as [|s rest IH]; cbn [tolerance_match tolerance_channels tolerance_pairs flat_map app In].
  - split; [intros _ ? ? []|reflexivity].
  - destruct (Z.abs (remaining - s ^ 3 * 3) <=? 4) eqn:E3.
    + apply Z.leb_le in E3. split; [discriminate|].
      intros H. specialize (H s 3 (or_introl eq_refl)). lia.
    + destruct (Z.abs (remaining - s ^ 3 * 4) <=? 4) eqn:E4.
      * apply Z.leb_le in E4. split; [discriminate|].
        intros H. specialize (H s 4 (or_intror (or_introl eq_refl))). lia.
      * apply Z.leb_gt in E3, E4. fold (tolerance_pairs rest). rewrite IH. split.
        -- intros H size ch [[= <- <-]|[[= <- <-]|Hin]]; [lia|lia|apply H, Hin].
        -- intros H size ch Hin. apply H. right. right. exact Hin.
Qed.

Lemma tolerance_match_first (remaining : Z) (sizes : list Z) :
  forall pre size ch post,
    tolerance_pairs sizes = pre ++ (size, ch) :: post ->
    (forall s c, In (s, c) pre -> 4 < Z.abs (remaining - s ^ 3 * c)) ->
    Z.abs (remaining - size ^ 3 * ch) <= 4 ->
    tolerance_match remaining sizes = Some (size, ch).
Proof.
  induction sizes as [|s rest IH]; intros pre size ch post Hsplit Hpre Hin.
  - destruct pre; discriminate Hsplit.
  - cbn [tolerance_pairs flat_map app] in Hsplit. fold (tolerance_pairs rest) in Hsplit.
    cbn [tolerance_match tolerance_channels].
    destruct pre as [|p1 pre].
    + injection Hsplit as <- <- _.
      apply Z.leb_le in Hin. now rewrite Hin.
    + injection Hsplit as <- Hsplit.
      pose proof (Hpre s 3 (or_introl eq_refl)) as H3.
      apply Z.leb_gt in H3. rewrite H3.
      destruct pre as [|p2 pre].
      * injection Hsplit as <- <- _. apply Z.leb_le in Hin. now rewrite Hin.
      * injection Hsplit as <- Hsplit.
        pose proof (Hpre s 4 (or_intror (or_introl eq_refl))) as H4.
        apply Z.leb_gt in H4. rewrite H4.
        apply (IH pre size ch post Hsplit); [|exact Hin].
        intros s' c' Hin'. apply Hpre. right. right. exact Hin'.
Qed.

(** What the tolerance tier returns is one of its pairs, within 4 bytes. *)
Lemma tolerance_match_pair (remaining : Z) (sizes : list Z) (size ch : Z) :
  tolerance_match remaining sizes = Some (size, ch) ->
  In (size, ch) (tolerance_pairs sizes) /\ Z.abs (remaining - size ^ 3 * ch) <= 4.
Proof.
  induction sizes as [|s rest IH];
    cbn [tolerance_match tolerance_channels tolerance_pairs flat_map app];
    [discriminate|].
  destruct (Z.abs (remaining - s ^ 3 * 3) <=? 4) eqn:E3.
  { intros [= <- <-]. split; [now left|now apply Z.leb_le]. }
  destruct (Z.abs (remaining - s ^ 3 * 4) <=? 4) eqn:E4.
  { intros [= <- <-]. split; [right; now left|now apply Z.leb_le]. }
  intros H. destruct (IH H) as [Hin Hwithin]. split; [right; right; exact Hin|exact Hwithin].
Qed.

Lemma tolerance_match_some (remaining : Z) (sizes : list Z) (size ch : Z) :
  tolerance_match remaining sizes = Some (size, ch) -> In size sizes.
Proof.
  induction sizes as [|s rest IH]; cbn [tolerance_match tolerance_channels In];
    [discriminate|].
  destruct (Z.abs (remaining - s ^ 3 * 3) <=? 4); [intros [= <- <-]; auto|].
  destruct (Z.abs (remaining - s ^ 3 * 4) <=? 4); [intros [= <- <-]; auto|].
  intros H. right. apply IH, H.
Qed.

Lemma fallback_size_values (file_size : Z) :
  In (fallback_size file_size) [17; 16; 21; 32; 33].
Proof.
  unfold fallback_size.
  repeat match goal with |- context [if ?c then _ else _] => destruct c end;
    cbn; auto 10.
Qed.

Lemma layout_size_at_least_16 (version file_size data_offset : Z) :
  16 <= lut_size (layout version file_size data_offset).
Proof.
  unfold layout.
  destruct exact_match as [[size ch]|] eqn:Hexact.
  - apply exact_match_some in Hexact as (Hin & _). cbn [lut_size].
    cbn [In] in Hin. lia.
  - destruct tolerance_match as [[size ch]|] eqn:Htol.
    + apply tolerance_match_some in Htol. cbn [lut_size]. cbn [In] in Htol. lia.
    + cbn [lut_size]. pose proof (fallback_size_values file_size) as H.
      cbn [In] in H. lia.
Qed.

Lemma guess_raw_size_at_least_16 (file_size : Z) : 16 <= guess_raw_size file_size.
Proof.
  unfold guess_raw_size.
  repeat match goal with |- context [if ?c then _ else _] => destruct c end; lia.
Qed.

End LayoutFacts.

(** ** Reading the entries (convert_oppo_luts.py, lines 130-196, 260-281) *)

Module ExtractFacts.
Import ConvertOppoLuts LayoutFacts.

Lemma range_nonneg (n i : Z) : In i (range n) -> 0 <= i < n.
Proof.
  unfold range. rewrite in_map_iff. intros (k & <- & Hk).
  apply in_seq in Hk. lia.
Qed.

Lemma length_range (n : Z) : List.length (range n) = Z.to_nat n.
Proof. unfold range. now rewrite length_map, length_seq. Qed.

(** The loop never indexes out of range: its guard comes first. *)
Lemma byte_entries_returns (lut_data : bytes) (channels : Z) (Hch : 0 <= channels) :
  forall indices entries,
    (forall i, In i indices -> 0 <= i) ->
    exists out, byte_entries lut_data channels indices entries = Ok out.
Proof.
  induction indices as [|i rest IH]; intros entries Hpos; cbn [byte_entries].
  - eauto.
  - destruct (len lut_data <? i * channels + 3) eqn:Hguard; [eauto|].
    apply Z.ltb_ge in Hguard.
    assert (0 <= i) by (apply Hpos; now left).
    assert (0 <= i * channels) by nia.
    rewrite !(getitem_in_range lut_data _ x00) by lia. cbn [bind].
    apply IH. intros j Hj. apply Hpos. now right.
Qed.

Lemma tolerance_match_channels (remaining : Z) (sizes : list Z) (size ch : Z) :
  tolerance_match remaining sizes = Some (size, ch) -> ch = 3 \/ ch = 4.
Proof.
  induction sizes as [|s rest IH]; cbn [tolerance_match tolerance_channels];
    [discriminate|].
  destruct (Z.abs (remaining - s ^ 3 * 3) <=? 4); [intros [= <- <-]; auto|].
  destruct (Z.abs (remaining - s ^ 3 * 4) <=? 4); [intros [= <- <-]; auto|].
  exact IH.
Qed.

Lemma layout_channels (version file_size data_offset : Z) :
  let h := layout version file_size data_offset in channels h = 3 \/ channels h = 4.
Proof.
  unfold layout.
  destruct exact_match as [[size ch]|] eqn:Hexact.
  - apply exact_match_some in Hexact as (_ & _ & Hch). exact Hch.
  - destruct tolerance_match as [[size ch]|] eqn:Htol.
    + apply tolerance_match_channels in Htol. exact Htol.
    + now left.
Qed.

Lemma guess_raw_channels_values (file_size : Z) :
  guess_raw_channels file_size = 3 \/ guess_raw_channels file_size = 4.
Proof. unfold guess_raw_channels. destruct (negb _); auto. Qed.

(** Whatever the file, the size that [read_entries] returns is one of the
    sizes of the tables. *)
Lemma read_entries_size (data : bytes) (size : Z) (entries : list triple) :
  read_entries data = Ok (size, entries) -> 16 <= size.
Proof.
  unfold read_entries. destruct (parse_ms_lut_header data) as [[h|]|e] eqn:Hparse;
    cbn [bind]; [| |discriminate].
  - destruct (extract_lut_data data h); cbn [bind]; [|discriminate].
    intros [= <- _].
    unfold parse_ms_lut_header in Hparse.
    destruct (startswith MS_MAGIC data) eqn:Hmagic; cbn [negb] in Hparse;
      [|discriminate].
    destruct (Z_lt_le_dec (len data) 16) as [Hshort|Hlong].
    + exfalso. unfold unpack_I in Hparse. unfold len in Hshort.
      destruct (Nat.eqb_spec (List.length (slice 8 12 data)) 4) as [H1|H1];
        [|discriminate Hparse].
      destruct (Nat.eqb_spec (List.length (slice 12 16 data)) 4) as [H2|H2];
        [|discriminate Hparse].
      unfold slice in H2. rewrite length_firstn, length_skipn in H2. lia.
    + pose proof (parse_with_magic data Hmagic Hlong) as Hp.
      unfold parse_ms_lut_header in Hp. rewrite Hmagic in Hp. cbn [negb] in Hp.
      rewrite Hp in Hparse. injection Hparse as <-.
      apply layout_size_at_least_16.
  - destruct (extract_byte_lut data _ _); cbn [bind]; [|discriminate].
    intros [= <- _]. apply guess_raw_size_at_least_16.
Qed.

Lemma read_entries_headerless (data : bytes) :
  startswith MS_MAGIC data = false ->
  exists entries, read_entries data = Ok (guess_raw_size (len data), entries).
Proof.
  intros Hmagic. unfold read_entries.
  rewrite (parse_without_magic data Hmagic). cbn [bind]. unfold extract_byte_lut.
  destruct (byte_entries_returns data (guess_raw_channels (len data)))
    with (indices := range (guess_raw_size (len data) ^ 3)) (entries := @nil triple)
    as [out Hout].
  - destruct (guess_raw_channels_values (len data)); lia.
  - intros i Hi. apply range_nonneg in Hi. lia.
  - rewrite Hout. cbn [bind]. eauto.
Qed.

(** An index that leaves the loop bounds the number of entries. *)
Lemma byte_entries_at_most (lut_data : bytes) (channels m : Z) :
  0 < channels -> len lut_data < m * channels + 3 ->
  forall (k a : nat) (entries out : list triple),
    byte_entries lut_data channels (map Z.of_nat (seq a k)) entries = Ok out ->
    len out <= Z.max (len entries) (len entries + (m - Z.of_nat a)).
Proof.
  intros Hch Hm. induction k as [|k IH]; intros a entries out Hrun;
    cbn [seq map byte_entries] in Hrun.
  - apply Ok_inj in Hrun. subst out. lia.
  - destruct (len lut_data <? Z.of_nat a * channels + 3) eqn:Hguard.
    + apply Ok_inj in Hrun. subst out. lia.
    + apply Z.ltb_ge in Hguard.
      assert (Ha : Z.of_nat a < m) by nia.
      assert (0 <= Z.of_nat a * channels) by nia.
      rewrite !(getitem_in_range lut_data _ x00) in Hrun by lia.
      cbn [bind] in Hrun.
      match type of Hrun with
      | byte_entries _ _ _ (entries ++ [?e]) = _ => set (entry := e) in Hrun
      end.
      apply IH in Hrun. rewrite len_app in Hrun.
      change (len [entry]) with 1 in Hrun. lia.
Qed.

(** The headerless file of 98304 bytes is read with a stride of 4 bytes, so
    at most 24576 of the 32768 entries are found and the conversion gives
    up. *)
Lemma headerless_98304_gives_up (bin_path : file_path) (output_dir : Path)
  (data : bytes) :
  len data = 98304 -> startswith MS_MAGIC data = false -> is_cube_text data = false ->
  convert_bin_to_cube bin_path output_dir data = failed.
Proof.
  intros Hlen Hmagic Htext. unfold convert_bin_to_cube, convert_body.
  rewrite Htext. unfold read_entries.
  rewrite (parse_without_magic data Hmagic). cbn [bind]. rewrite Hlen.
  change (guess_raw_size 98304) with 32. change (guess_raw_channels 98304) with 4.
  unfold extract_byte_lut, range.
  destruct (byte_entries data 4 (map Z.of_nat (seq 0 (Z.to_nat (32 ^ 3)))) [])
    as [entries|e] eqn:Hrun; cbn [bind]; [|reflexivity].
  apply (byte_entries_at_most data 4 24576) in Hrun; [|lia|lia].
  change (len (@nil triple)) with 0 in Hrun.
  assert (Hfew : too_few entries 32 = true).
  { unfold too_few. destruct entries as [|e rest] eqn:Hentries; [reflexivity|].
    rewrite <- Hentries in *.
    destruct (Qlt_le_dec _ _) as [_|Hge]; [reflexivity|]. exfalso.
    unfold Qle in Hge. cbn in Hge. lia. }
  now rewrite Hfew.
Qed.

Lemma read_entries_returns (data : bytes) :
  startswith MS_MAGIC data = false \/ 16 <= len data ->
  exists size entries, read_entries data = Ok (size, entries).
Proof.
  intros Hcase. unfold read_entries.
  destruct (startswith MS_MAGIC data) eqn:Hmagic.
  - destruct Hcase as [|Hlen]; [discriminate|].
    rewrite (parse_with_magic data Hmagic Hlen). cbn [bind].
    set (h := layout _ _ _). unfold extract_lut_data.
    destruct (byte_entries_returns (slice_from (data_offset h) data) (channels h))
      with (indices := range (lut_size h ^ 3)) (entries := @nil triple)
      as [out Hout].
    + destruct (layout_channels (le_int (slice 8 12 data)) (len data)
                  (chosen_offset data)); fold h in H; lia.
    + intros i Hi. apply range_nonneg in Hi. lia.
    + rewrite Hout. cbn [bind]. eauto.
  - rewrite (parse_without_magic data Hmagic). cbn [bind]. unfold extract_byte_lut.
    destruct (byte_entries_returns data (guess_raw_channels (len data)))
      with (indices := range (guess_raw_size (len data) ^ 3)) (entries := @nil triple)
      as [out Hout].
    + destruct (guess_raw_channels_values (len data)); lia.
    + intros i Hi. apply range_nonneg in Hi. lia.
    + rewrite Hout. cbn [bind]. eauto.
Qed.

End ExtractFacts.

(** ** Rational bounds *)

Lemma unit_fraction (a d : Z) :
  0 <= a <= d -> 0 < d -> (0 <= inject_Z a / inject_Z d)%Q /\ (inject_Z a / inject_Z d <= 1)%Q.
Proof.
  intros Ha Hd. split.
  - apply Qle_shift_div_l.
    + change 0%Q with (inject_Z 0). rewrite <- Zlt_Qlt. exact Hd.
    + rewrite Qmult_0_l. change 0%Q with (inject_Z 0). rewrite <- Zle_Qle. lia.
  - apply Qle_shift_div_r.
    + change 0%Q with (inject_Z 0). rewrite <- Zlt_Qlt. exact Hd.
    + rewrite Qmult_1_l. rewrite <- Zle_Qle. lia.
Qed.

Lemma ramp_in_unit (size idx : Z) :
  2 <= size -> 0 <= idx < size ^ 3 ->
  let '(r, g, b) := ConvertOppoLuts.ramp size idx in
  (0 <= r <= 1)%Q /\ (0 <= g <= 1)%Q /\ (0 <= b <= 1)%Q.
Proof.
  intros Hsize Hidx. unfold ConvertOppoLuts.ramp.
  assert (Hr : 0 <= idx mod size < size) by (apply Z.mod_pos_bound; lia).
  assert (Hg : 0 <= (idx / size) mod size < size) by (apply Z.mod_pos_bound; lia).
  assert (Hb : 0 <= idx / (size * size) < size).
  { split.
    - apply Z.div_pos; nia.
    - apply Z.div_lt_upper_bound; [nia|].
      replace (size * size * size) with (size ^ 3) by ring. lia. }
  repeat split; apply unit_fraction; lia.
Qed.

(** ** Nested loops that append (convert_bin_to_cube.py, [iter_values]) *)

Section LoopFacts.

Context {A T : Type}.

Lemma for_each_appends (xs : list A) (body : A -> list T -> result (list T))
  (chunk : A -> list T) :
  (forall x out, In x xs -> body x out = Ok (out ++ chunk x)) ->
  forall out, for_each xs body out = Ok (out ++ flat_map chunk xs).
Proof.
  induction xs as [|x rest IH]; intros Hbody out; cbn [for_each flat_map].
  - now rewrite app_nil_r.
  - rewrite Hbody by now left. cbn [bind].
    rewrite IH by (intros y o Hy; apply Hbody; now right).
    now rewrite app_assoc.
Qed.

Lemma length_flat_map_uniform (chunk : A -> list T) (m : nat) (xs : list A) :
  (forall x, In x xs -> List.length (chunk x) = m) ->
  List.length (flat_map chunk xs) = (List.length xs * m)%nat.
Proof.
  induction xs as [|x rest IH]; intros Hm; cbn [flat_map List.length].
  - reflexivity.
  - rewrite length_app, Hm by now left.
    rewrite IH by (intros y Hy; apply Hm; now right). lia.
Qed.

Lemma nth_error_flat_map_uniform (chunk : A -> list T) (m : nat) (xs : list A) :
  (forall x, In x xs -> List.length (chunk x) = m) ->
  forall k j, (j < m)%nat ->
    nth_error (flat_map chunk xs) (k * m + j) =
    match nth_error xs k with
    | Some x => nth_error (chunk x) j
    | None => None
    end.
Proof.
  induction xs as [|x rest IH]; intros Hm k j Hj.
  - cbn [flat_map]. now rewrite !nth_error_nil.
  - cbn [flat_map]. destruct k as [|k].
    + cbn [Nat.mul Nat.add nth_error]. apply nth_error_app1.
      rewrite Hm by now left. exact Hj.
    + rewrite nth_error_app2 by (rewrite Hm by (now left); lia).
      rewrite Hm by now left.
      replace (S k * m + j - m)%nat with (k * m + j)%nat by lia.
      cbn [nth_error]. apply IH; [|exact Hj].
      intros y Hy. apply Hm. now right.
Qed.

End LoopFacts.

(** Comparisons of two literal order names are evaluated. *)
Ltac decide_orders :=
  repeat match goal with
  | |- context [String.eqb (String ?a ?s) (String ?b ?t)] =>
      let v := eval vm_compute in (String.eqb (String a s) (String b t)) in
      change (String.eqb (String a s) (String b t)) with v
  | H : context [String.eqb (String ?a ?s) (String ?b ?t)] |- _ =>
      let v := eval vm_compute in (String.eqb (String a s) (String b t)) in
      change (String.eqb (String a s) (String b t)) with v in H
  end.

(** ** Fixed-precision formatting: the shape of the numerals *)

Module FmtFacts.
Import Fmt.

Lemma digit_is_digit (d : Z) : is_digit (digit d).
Proof.
  unfold is_digit, digit. pose proof (Z.mod_pos_bound d 10 ltac:(lia)) as Hd.
  rewrite nat_ascii_embedding by lia. lia.
Qed.

Lemma frac6_six_digits (m : Z) :
  String.length (frac6 m) = 6%nat /\ all_digits (frac6 m).
Proof.
  split; [reflexivity|]. unfold frac6. cbn [all_digits].
  repeat split; apply digit_is_digit.
Qed.

Lemma uint_digits (d : Decimal.uint) : all_digits (NilEmpty.string_of_uint d).
Proof.
  induction d; cbn [NilEmpty.string_of_uint all_digits]; [exact I|..];
    (split; [unfold is_digit; cbn; lia|]); exact IHd.
Qed.

Lemma str_int_digits (n : Z) :
  0 <= n -> all_digits (str_int n) /\ str_int n <> EmptyString.
Proof.
  intros Hn. unfold str_int.
  assert (Hpos : exists d, Z.to_int n = Decimal.Pos d).
  { destruct n; [eexists; reflexivity|eexists; reflexivity|lia]. }
  destruct Hpos as [d ->]. cbn [NilZero.string_of_int].
  unfold NilZero.string_of_uint. destruct d eqn:Hd;
    try (split; [rewrite <- Hd; apply uint_digits|cbn; discriminate]).
  split; [cbn; split; [unfold is_digit; cbn; lia|exact I]|discriminate].
Qed.

Lemma round_half_even_nonneg (q : Q) : (0 <= q)%Q -> 0 <= round_half_even q.
Proof.
  intros Hq. unfold round_half_even.
  assert (Hnum : 0 <= Qnum q).
  { unfold Qle in Hq. cbn in Hq. lia. }
  assert (Hfl : 0 <= Qnum q / Z.pos (Qden q)) by (apply Z.div_pos; lia).
  destruct (2 * (Qnum q mod Z.pos (Qden q)) ?= Z.pos (Qden q)); try lia.
  destruct (Z.even _); lia.
Qed.

Lemma format_6f_fixed (q : Q) : fixed_6 (format_6f q).
Proof.
  unfold format_6f, fixed_6.
  set (m := round_half_even (Qabs q * inject_Z 1000000)).
  assert (Hm : 0 <= m).
  { apply round_half_even_nonneg. apply Qmult_le_0_compat; [apply Qabs_nonneg|].
    discriminate. }
  exists (if Qlt_le_dec q 0 then "-" else EmptyString), (str_int (m / 1000000)),
         (frac6 (m mod 1000000)).
  split; [reflexivity|]. split; [destruct (Qlt_le_dec q 0); auto|].
  destruct (str_int_digits (m / 1000000)) as [Hd Hne]; [apply Z.div_pos; lia|].
  destruct (frac6_six_digits (m mod 1000000)) as [Hl Hf].
  split; [exact Hd|]. split; [exact Hne|]. split; [exact Hl|exact Hf].
Qed.

Lemma value_line_fixed (e : triple) :
  exists x y z,
    ConvertBinToCube.value_line e = (x ++ " " ++ y ++ " " ++ z ++ newline)%string /\
    fixed_6 x /\ fixed_6 y /\ fixed_6 z.
Proof.
  destruct e as [[r g] b].
  exists (format_6f r), (format_6f g), (format_6f b).
  split; [reflexivity|].
  split; [apply format_6f_fixed|]. split; apply format_6f_fixed.
Qed.

(** A rational within 1/2 of an integer is rounded to it. *)
Lemma round_within_half (q : Q) (n : Z) :
  (Qabs (q - inject_Z n) < 1 # 2)%Q -> round_half_even q = n.
Proof.
  intros H. apply Qabs_Qlt_condition in H as [Hlo Hhi].
  destruct q as [p d]. unfold round_half_even. cbn [Qnum Qden].
  unfold Qlt, Qminus, Qplus, Qopp, inject_Z in Hlo, Hhi. cbn [Qnum Qden] in Hlo, Hhi.
  rewrite Pos.mul_1_r in Hlo, Hhi.
  pose proof (Z.div_mod p (Z.pos d) ltac:(lia)) as Hdiv.
  pose proof (Z.mod_pos_bound p (Z.pos d) ltac:(lia)) as Hrem.
  remember (p / Z.pos d) as fl eqn:Hfl. remember (p mod Z.pos d) as rm eqn:Hrm.
  remember (Z.pos d) as D eqn:HD. assert (HDpos : 0 < D) by lia.
  clear Hfl Hrm HD. subst p.
  assert (Hk : fl <= n - 2 \/ fl = n - 1 \/ fl = n \/ n + 1 <= fl) by lia.
  destruct (Z.compare_spec (2 * rm) D) as [Heq | Hlt | Hgt];
    destruct Hk as [Hk | [Hk | [Hk | Hk]]]; try (exfalso; nia); try (subst fl; nia).
Qed.

(** The numerals and the data lines are ASCII. *)
Lemma all_digits_isascii (s : string) : all_digits s -> str_isascii s = true.
Proof.
  induction s as [|c s IH]; cbn [all_digits str_isascii]; [reflexivity|].
  intros [Hc Hs]. rewrite (IH Hs), andb_true_r. apply Nat.ltb_lt.
  unfold is_digit in Hc. lia.
Qed.

Lemma str_int_isascii (n : Z) : 0 <= n -> str_isascii (str_int n) = true.
Proof. intros Hn. apply all_digits_isascii, str_int_digits, Hn. Qed.

Lemma format_6f_isascii (q : Q) : str_isascii (format_6f q) = true.
Proof.
  destruct (format_6f_fixed q) as (sign & whole & frac & -> & Hsign & Hw & _ & _ & Hf).
  rewrite !str_isascii_app, (all_digits_isascii _ Hw), (all_digits_isascii _ Hf).
  destruct Hsign as [-> | ->]; reflexivity.
Qed.

Lemma value_line_isascii (e : triple) :
  str_isascii (ConvertBinToCube.value_line e) = true.
Proof.
  destruct e as [[r g] b]. unfold ConvertBinToCube.value_line.
  rewrite !str_isascii_app, !format_6f_isascii. reflexivity.
Qed.

(** Writing the data lines never fails and appends them in order. *)
Lemma write_value_lines (values : list triple) :
  forall fh,
    for_each values (fun v fh => write_ascii (ConvertBinToCube.value_line v) fh) fh =
    Ok (fh ++ String.concat EmptyString (map ConvertBinToCube.value_line values))%string.
Proof.
  induction values as [|v rest IH]; intros fh; cbn [for_each map].
  - cbn [String.concat]. now rewrite str_app_nil_r.
  - unfold write_ascii at 1. rewrite value_line_isascii. cbn [bind].
    rewrite IH, str_concat_cons, str_app_assoc. reflexivity.
Qed.

End FmtFacts.

Module IterFacts.
Import ConvertBinToCube ExtractFacts.

Lemma yield_at_texel (payload : bytes) (idx : Z) :
  0 <= idx -> idx + 2 < len payload ->
  yield_at payload idx (1 / 255) = Ok (texel payload idx).
Proof.
  intros Hlo Hhi. unfold yield_at, texel, byte_at.
  rewrite !(getitem_in_range payload _ x00) by lia. reflexivity.
Qed.

Lemma triple_loop (size : Z) (read : Z -> Z -> Z -> result triple)
  (at_rgb : Z -> Z -> Z -> triple) :
  (forall b g r, 0 <= b < size -> 0 <= g < size -> 0 <= r < size ->
     read b g r = Ok (at_rgb b g r)) ->
  for_each (range size) (fun b =>
    for_each (range size) (fun g =>
      for_each (range size) (fun r out =>
        t <- read b g r ;; Ok (out ++ [t])))) [] =
  Ok (cube_list size at_rgb).
Proof.
  intros Hread. unfold cube_list.
  rewrite (for_each_appends (range size) _
             (fun b => flat_map (fun g => flat_map (fun r => [at_rgb b g r])
                                            (range size)) (range size)));
    [reflexivity|].
  intros b out Hb. apply range_nonneg in Hb.
  apply for_each_appends. intros g out' Hg. apply range_nonneg in Hg.
  apply for_each_appends. intros r out'' Hr. apply range_nonneg in Hr.
  rewrite Hread by assumption. reflexivity.
Qed.

Lemma nth_error_range (n : Z) (k : nat) :
  (k < Z.to_nat n)%nat -> nth_error (range n) k = Some (Z.of_nat k).
Proof.
  intros Hk. unfold range. rewrite nth_error_map, nth_error_seq.
  destruct (Nat.ltb_spec k (Z.to_nat n)); [reflexivity|lia].
Qed.

Lemma length_cube_list (size : Z) (at_rgb : Z -> Z -> Z -> triple) :
  List.length (cube_list size at_rgb) = (Z.to_nat size * (Z.to_nat size * Z.to_nat size))%nat.
Proof.
  unfold cube_list.
  rewrite (length_flat_map_uniform _ (Z.to_nat size * Z.to_nat size)).
  - now rewrite length_range.
  - intros b _. rewrite (length_flat_map_uniform _ (Z.to_nat size)).
    + now rewrite length_range.
    + intros g _. rewrite (length_flat_map_uniform _ 1%nat).
      * rewrite length_range. lia.
      * reflexivity.
Qed.

Lemma nth_error_cube_list (size : Z) (at_rgb : Z -> Z -> Z -> triple) (kb kg kr : nat) :
  (kb < Z.to_nat size)%nat -> (kg < Z.to_nat size)%nat -> (kr < Z.to_nat size)%nat ->
  nth_error (cube_list size at_rgb)
            (kb * (Z.to_nat size * Z.to_nat size) + (kg * Z.to_nat size + kr)) =
  Some (at_rgb (Z.of_nat kb) (Z.of_nat kg) (Z.of_nat kr)).
Proof.
  intros Hb Hg Hr. unfold cube_list.
  rewrite (nth_error_flat_map_uniform _ (Z.to_nat size * Z.to_nat size)).
  - rewrite nth_error_range by exact Hb.
    rewrite (nth_error_flat_map_uniform _ (Z.to_nat size)).
    + rewrite nth_error_range by exact Hg.
      replace kr with (kr * 1 + 0)%nat at 1 by lia.
      rewrite (nth_error_flat_map_uniform _ 1%nat); [|reflexivity|lia].
      now rewrite nth_error_range by exact Hr.
    + intros g _. rewrite (length_flat_map_uniform _ 1%nat); [|reflexivity].
      rewrite length_range. lia.
    + exact Hr.
  - intros b _. rewrite (length_flat_map_uniform _ (Z.to_nat size)).
    + now rewrite length_range.
    + intros g _. rewrite (length_flat_map_uniform _ 1%nat); [|reflexivity].
      rewrite length_range. lia.
  - nia.
Qed.

Lemma grid_index_bound (size r g b : Z) :
  0 <= r < size -> 0 <= g < size -> 0 <= b < size ->
  0 <= r + g * size + b * (size * size) <= size * size * size - 1.
Proof.
  intros Hr Hg Hb.
  assert (g * size <= (size - 1) * size) by (apply Z.mul_le_mono_nonneg_r; lia).
  assert (b * (size * size) <= (size - 1) * (size * size))
    by (apply Z.mul_le_mono_nonneg_r; nia).
  assert (0 <= g * size) by nia.
  assert (0 <= b * (size * size)) by nia.
  split; [lia|]. ring_simplify. ring_simplify in H. ring_simplify in H0. lia.
Qed.

Lemma iter_values_run (size : Z) (payload : bytes) (order : string) :
  supported order -> stride order * size ^ 3 <= len payload ->
  iter_values size payload order =
  Ok (cube_list size (fun b g r => texel payload (source_index order size r g b))).
Proof.
  intros Horder Hlen.
  replace (size ^ 3) with (size * size * size) in Hlen by ring.
  destruct Horder as [-> | [-> | ->]];
    unfold iter_values, source_index, stride in *;
    decide_orders; cbv beta iota zeta in *.
  - apply (triple_loop size
             (fun b g r => yield_at payload ((g * size + b * (size * size)) * 3 + r * 3) (1 / 255))
             (fun b g r => texel payload ((g * size + b * (size * size)) * 3 + r * 3))).
    intros b g r Hb Hg Hr. pose proof (grid_index_bound size r g b Hr Hg Hb).
    apply yield_at_texel; lia.
  - apply (triple_loop size
             (fun b g r => yield_at payload ((b + g * size) * 3 + r * (size * size) * 3) (1 / 255))
             (fun b g r => texel payload ((b + g * size) * 3 + r * (size * size) * 3))).
    intros b g r Hb Hg Hr. pose proof (grid_index_bound size b g r Hb Hg Hr).
    apply yield_at_texel; lia.
  - apply (triple_loop size
             (fun b g r => yield_at payload ((g * size + b * (size * size)) * 4 + r * 4) (1 / 255))
             (fun b g r => texel payload ((g * size + b * (size * size)) * 4 + r * 4))).
    intros b g r Hb Hg Hr. pose proof (grid_index_bound size r g b Hr Hg Hb).
    apply yield_at_texel; lia.
Qed.

Lemma le_int_nonneg (bs : bytes) : 0 <= le_int bs.
Proof.
  induction bs as [|b rest IH]; cbn [le_int]; [lia|].
  unfold byte_val. lia.
Qed.

(** What [read_ms_lut] hands over when it returns. *)
Lemma read_ms_lut_returns (data : bytes) (size : Z) (order : string) (payload : bytes) :
  read_ms_lut data = Ok (size, order, payload) ->
  0 <= size /\ (order = "rgb" \/ order = "bgr") /\ len payload = 3 * size ^ 3.
Proof.
  unfold read_ms_lut.
  destruct ((len data <? 48) || negb (startswith MS_MAGIC data)) eqn:Hguard;
    [discriminate|].
  apply orb_false_iff in Hguard as [Hlen _]. apply Z.ltb_ge in Hlen.
  unfold unpack_from_12I.
  destruct (len data <? 48) eqn:E; [apply Z.ltb_lt in E; lia|]. cbn [bind].
  remember (map _ (seq 0 12)) as header eqn:Hheader.
  assert (Hfield : forall k, 0 <= nth k header 0).
  { intros k. destruct (nth_in_or_default k header 0) as [Hin | Heq]; [|lia].
    subst header. apply in_map_iff in Hin as (j & Hj & _).
    rewrite <- Hj. apply le_int_nonneg. }
  pose proof (Hfield 3%nat) as Hsize. pose proof (Hfield 10%nat) as Hoff.
  set (sz := nth 3 header 0) in *. set (off := nth 10 header 0) in *.
  destruct (len data <? nth 8 header 0 + sz * 4); [discriminate|].
  destruct (len data <? off + sz * sz * sz * 3) eqn:Hpay; [discriminate|].
  apply Z.ltb_ge in Hpay. intros [= <- <- <-].
  split; [exact Hsize|]. split; [destruct (negb _); auto|].
  assert (0 <= sz * sz * sz) by nia.
  unfold len in *. rewrite length_slice by lia.
  replace (sz ^ 3) with (sz * sz * sz) by ring. lia.
Qed.

Section RawFacts.

Variable cbrt_round : Z -> Z.

Lemma read_raw_rgba_returns (data : bytes) (size : Z) (order : string) (payload : bytes) :
  read_raw_rgba cbrt_round data = Ok (size, order, payload) ->
  0 <= size /\ order = "rgba" /\ payload = data /\
  len data mod 4 = 0 /\ size ^ 3 = len data / 4.
Proof.
  unfold read_raw_rgba.
  destruct (len data mod 4 =? 0) eqn:Hmod; cbn [negb]; [|discriminate].
  remember (cbrt_round (len data / 4)) as c eqn:Hc.
  destruct (c * c * c =? len data / 4) eqn:Hcube; cbn [negb]; [|discriminate].
  apply Z.eqb_eq in Hmod, Hcube. intros [= <- <- <-].
  assert (0 <= len data / 4) by (apply Z.div_pos; [apply len_nonneg|lia]).
  repeat split; try assumption; [nia|]. rewrite <- Hcube. ring.
Qed.

Lemma read_any_returns (data : bytes) (size : Z) (order : string) (payload : bytes)
  (source : string) :
  read_any cbrt_round data = Ok (size, order, payload, source) ->
  0 <= size /\ supported order /\ stride order * size ^ 3 = len payload.
Proof.
  unfold read_any. destruct (read_ms_lut data) as [[[sz ord] pl]|e] eqn:Hms.
  - intros [= <- <- <- <-].
    apply read_ms_lut_returns in Hms as (Hsz & Hord & Hlen).
    split; [exact Hsz|]. unfold supported.
    destruct Hord as [-> | ->]; (split; [tauto|]); unfold stride;
      decide_orders; cbv iota; lia.
  - destruct (is_value_error e); [|discriminate].
    destruct (read_raw_rgba cbrt_round data) as [[[sz ord] pl]|e'] eqn:Hraw;
      cbn [bind]; [|discriminate].
    intros [= <- <- <- <-].
    apply read_raw_rgba_returns in Hraw as (Hsz & -> & -> & Hmod & Hcube).
    split; [exact Hsz|]. split; [unfold supported; tauto|].
    change (stride "rgba") with 4. rewrite Hcube.
    pose proof (Z.div_mod (len data) 4 ltac:(lia)). lia.
Qed.

(** Once the file is read, the only thing that can fail is the encoding of
    the title line. *)
Lemma convert_file_of_read_any (path : file_path) (data : bytes) (sz : Z)
  (order : string) (payload : bytes) (source : string) :
  read_any cbrt_round data = Ok (sz, order, payload, source) ->
  convert_file cbrt_round path data =
  if str_isascii (name path)
  then Ok {| dest := cube_path_for path; size := sz; source_type := source;
             text := Spec.serialize
                       (cube_list sz
                          (fun b g r => texel payload (source_index order sz r g b)))
                       sz (name path) |}
  else Raise UnicodeEncodeError.
Proof.
  intros Hread. unfold convert_file. rewrite Hread. cbn [bind].
  destruct (read_any_returns data sz order payload source Hread) as (Hsz & Hord & Hlen).
  unfold write_ascii at 1. rewrite title_line_isascii.
  destruct (str_isascii (name path)); cbn [bind]; [|reflexivity].
  unfold write_ascii.
  rewrite !str_isascii_app, (FmtFacts.str_int_isascii sz Hsz).
  change (str_isascii "LUT_3D_SIZE ") with true.
  change (str_isascii "DOMAIN_MIN 0 0 0") with true.
  change (str_isascii "DOMAIN_MAX 1 1 1") with true.
  change (str_isascii newline) with true. cbn [andb bind].
  rewrite iter_values_run by (assumption || lia). cbn [bind].
  rewrite FmtFacts.write_value_lines. cbn [bind]. unfold Spec.serialize.
  rewrite !str_app_assoc. reflexivity.
Qed.

Lemma convert_file_inv (path : file_path) (data : bytes) (c : converted) :
  convert_file cbrt_round path data = Ok c ->
  exists order payload,
    read_any cbrt_round data = Ok (size c, order, payload, source_type c) /\
    text c = Spec.serialize
               (cube_list (size c)
                  (fun b g r => texel payload (source_index order (size c) r g b)))
               (size c) (name path).
Proof.
  intros Hconv.
  destruct (read_any cbrt_round data) as [[[[sz order] payload] source]|e] eqn:Hread.
  - rewrite (convert_file_of_read_any path data sz order payload source Hread) in Hconv.
    destruct (str_isascii (name path)); [|discriminate Hconv].
    apply Ok_inj in Hconv. subst c. cbn [size source_type text]. eauto.
  - unfold convert_file in Hconv. rewrite Hread in Hconv. discriminate Hconv.
Qed.

Lemma convert_file_ascii (path : file_path) (data : bytes) (c : converted) :
  convert_file cbrt_round path data = Ok c -> str_isascii (name path) = true.
Proof.
  intros Hconv.
  destruct (read_any cbrt_round data) as [[[[sz order] payload] source]|e] eqn:Hread.
  - rewrite (convert_file_of_read_any path data sz order payload source Hread) in Hconv.
    destruct (str_isascii (name path)); [reflexivity|discriminate Hconv].
  - unfold convert_file in Hconv. rewrite Hread in Hconv. discriminate Hconv.
Qed.

Lemma read_ms_lut_missing (data : bytes) :
  startswith MS_MAGIC data = false ->
  read_ms_lut data = Raise (ValueError "missing .MS-LUT header").
Proof.
  intros H. unfold read_ms_lut. rewrite H. cbn [negb]. now rewrite orb_true_r.
Qed.

(** When the header is refused, the outcome is that of the raw path. *)
Lemma convert_file_raw_raises (path : file_path) (data : bytes) (msg : string) (e : exn) :
  read_ms_lut data = Raise (ValueError msg) ->
  read_raw_rgba cbrt_round data = Raise e ->
  convert_file cbrt_round path data = Raise e.
Proof.
  intros Hms Hraw. unfold convert_file, read_any. rewrite Hms, Hraw. reflexivity.
Qed.

Lemma read_raw_rgba_not_cube (data : bytes) :
  len data mod 4 = 0 -> ~ perfect_cube (len data / 4) ->
  read_raw_rgba cbrt_round data =
  Raise (ValueError "byte length is not a perfect cube of RGBA texels").
Proof.
  intros Hmod Hcube. unfold read_raw_rgba. rewrite Hmod. cbn [Z.eqb negb].
  remember (cbrt_round (len data / 4)) as c eqn:Hc.
  destruct (c * c * c =? len data / 4) eqn:E; [|reflexivity].
  apply Z.eqb_eq in E. exfalso. apply Hcube. now exists c.
Qed.

Lemma read_raw_rgba_not_multiple (data : bytes) :
  len data mod 4 <> 0 ->
  read_raw_rgba cbrt_round data =
  Raise (ValueError "byte length not divisible by 4 for RGBA data").
Proof.
  intros Hmod. unfold read_raw_rgba. apply Z.eqb_neq in Hmod. now rewrite Hmod.
Qed.

Lemma read_raw_rgba_cube (data : bytes) :
  len data mod 4 = 0 -> perfect_cube (len data / 4) ->
  cbrt_accurate_at cbrt_round (len data / 4) ->
  read_raw_rgba cbrt_round data = Ok (cbrt_round (len data / 4), "rgba", data).
Proof.
  intros Hmod Hcube Hfp. unfold read_raw_rgba. rewrite Hmod. cbn [Z.eqb negb].
  specialize (Hfp Hcube). apply Z.eqb_eq in Hfp. now rewrite Hfp.
Qed.

End RawFacts.

Lemma read_ms_lut_fields (data : bytes) :
  48 <= len data -> startswith MS_MAGIC data = true ->
  read_ms_lut data =
  let size := header_field data 3 in
  let order_flag := header_field data 6 in
  let axis_offset := header_field data 8 in
  let data_offset := header_field data 10 in
  if len data <? axis_offset + size * 4 then Raise (ValueError "axis block truncated")
  else if len data <? data_offset + size * size * size * 3
  then Raise (ValueError "payload truncated")
  else Ok (size, if negb (order_flag =? 0) then "rgb" else "bgr",
           slice (Z.to_nat data_offset)
                 (Z.to_nat (data_offset + size * size * size * 3)) data).
Proof.
  intros Hlen Hmagic. unfold read_ms_lut, unpack_from_12I.
  apply Z.ltb_ge in Hlen. rewrite Hlen, Hmagic. reflexivity.
Qed.

Lemma read_ms_lut_truncated (data : bytes) :
  48 <= len data -> startswith MS_MAGIC data = true ->
  header_field data 8 + header_field data 3 * 4 <= len data ->
  len data <
    header_field data 10 + header_field data 3 * header_field data 3 * header_field data 3 * 3 ->
  read_ms_lut data = Raise (ValueError "payload truncated").
Proof.
  intros Hlen Hmagic Haxis Htrunc. rewrite read_ms_lut_fields by assumption.
  cbv zeta. apply Z.ltb_ge in Haxis. apply Z.ltb_lt in Htrunc.
  now rewrite Haxis, Htrunc.
Qed.

(** The exact rounded cube root is accurate at every cube. *)
Lemma nearest_cbrt_from_cube (m : Z) (Hm : 0 <= m) :
  forall (fuel : nat) (k : Z),
    0 <= k <= m -> m - k <= Z.of_nat fuel ->
    nearest_cbrt_from fuel k (m * m * m) = m.
Proof.
  assert (Hcube : 8 * (m * m * m) = (2 * m) ^ 3) by ring.
  induction fuel as [|fuel IH]; intros k Hk Hfuel; cbn [nearest_cbrt_from].
  - lia.
  - rewrite Hcube.
    destruct (Z.ltb_spec ((2 * m) ^ 3) ((2 * k + 1) ^ 3)) as [Hlt | Hge].
    + destruct (Z.eq_dec k m) as [Heq | Hne]; [exact Heq|]. exfalso.
      assert ((2 * k + 1) ^ 3 <= (2 * m) ^ 3) by (apply Z.pow_le_mono_l; lia).
      lia.
    + destruct (Z.eq_dec k m) as [-> | Hne].
      * exfalso.
        assert ((2 * m) ^ 3 < (2 * m + 1) ^ 3) by (apply Z.pow_lt_mono_l; lia).
        lia.
      * apply IH; lia.
Qed.

Lemma nearest_cbrt_accurate (t : Z) : 0 <= t -> cbrt_accurate_at nearest_cbrt t.
Proof.
  intros Ht [n Hn]. subst t. unfold nearest_cbrt.
  assert (Hpos : 0 <= n).
  { destruct (Z_lt_le_dec n 0) as [Hneg|]; [|assumption].
    assert (0 <= n * n) by nia. assert (n * n * n <= 0) by nia. nia. }
  assert (Hfuel : n <= n * n * n).
  { destruct (Z.eq_dec n 0) as [-> | Hnz]; [lia|]. assert (1 <= n * n) by nia. nia. }
  rewrite (nearest_cbrt_from_cube n Hpos) by lia. reflexivity.
Qed.

Lemma not_cube_between (n t : Z) :
  0 <= n -> n * n * n < t < (n + 1) * (n + 1) * (n + 1) -> ~ perfect_cube t.
Proof.
  intros Hn Ht [c Hc].
  assert (Hcases : c <= n \/ n + 1 <= c) by lia.
  destruct Hcases as [Hle | Hge].
  - assert (c * c * c <= n * n * n); [|lia].
    destruct (Z_lt_le_dec c 0) as [Hneg | Hpos].
    + assert (0 <= c * c) by nia. assert (c * c * c <= 0) by nia. nia.
    + assert (c * c <= n * n) by nia.
      transitivity (n * n * c); [|apply Z.mul_le_mono_nonneg_l; nia].
      apply Z.mul_le_mono_nonneg_r; lia.
  - assert ((n + 1) * (n + 1) * (n + 1) <= c * c * c); [|lia].
    assert ((n + 1) * (n + 1) <= c * c) by nia.
    transitivity ((n + 1) * (n + 1) * c); [apply Z.mul_le_mono_nonneg_l; nia|].
    apply Z.mul_le_mono_nonneg_r; lia.
Qed.

Lemma nearest_cbrt_cube (n : Z) : 0 <= n -> nearest_cbrt (n * n * n) = n.
Proof.
  intros Hn. unfold nearest_cbrt.
  assert (Hfuel : n <= n * n * n).
  { destruct (Z.eq_dec n 0) as [-> | Hnz]; [lia|]. assert (1 <= n * n) by nia. nia. }
  apply (nearest_cbrt_from_cube n Hn); lia.
Qed.

(** A cube that is not negative is the cube of a number that is not
    negative. *)
Lemma perfect_cube_root (t : Z) :
  0 <= t -> perfect_cube t -> exists n, 0 <= n /\ t = n * n * n.
Proof.
  intros Ht [n Hn]. exists n. split; [|now symmetry].
  destruct (Z_lt_le_dec n 0) as [Hneg|]; [|assumption].
  assert (0 <= n * n) by nia. assert (n * n * n <= 0) by nia. nia.
Qed.

Lemma nearest_cbrt_decides (t : Z) :
  0 <= t -> nearest_cbrt t * nearest_cbrt t * nearest_cbrt t <> t -> ~ perfect_cube t.
Proof.
  intros Ht Hne Hcube. apply Hne.
  destruct (perfect_cube_root t Ht Hcube) as (n & Hn & ->).
  now rewrite nearest_cbrt_cube.
Qed.

(** A volume of [4 * n^3] bytes is read with size [n]. *)
Lemma read_raw_rgba_exact (data : bytes) (n : Z) :
  0 <= n -> len data = 4 * n ^ 3 ->
  read_raw_rgba nearest_cbrt data = Ok (n, "rgba", data).
Proof.
  intros Hn Hlen. unfold read_raw_rgba.
  assert (Hmod : len data mod 4 = 0).
  { rewrite Hlen, Z.mul_comm. apply Z.mod_mul. lia. }
  assert (Hdiv : len data / 4 = n * n * n).
  { rewrite Hlen, Z.mul_comm, Z.div_mul by lia. ring. }
  rewrite Hmod, Hdiv, nearest_cbrt_cube by exact Hn.
  cbn [Z.eqb negb]. now rewrite Z.eqb_refl.
Qed.

(** The result is the same for every floating-point power whose value at
    a perfect cube is within 1/2 of the root: [round] then gives the root,
    and a texel count that is not a cube is refused whatever the power
    gives. *)
Lemma read_raw_rgba_float_tolerant (pow_third : Z -> Q) (data : bytes) :
  (forall n, 0 <= n -> (Qabs (pow_third (n * n * n)%Z - inject_Z n) < 1 # 2)%Q) ->
  read_raw_rgba (fun t => Fmt.round_half_even (pow_third t)) data =
  read_raw_rgba nearest_cbrt data.
Proof.
  intros Hpow. unfold read_raw_rgba.
  destruct (len data mod 4 =? 0) eqn:Hmod; cbn [negb]; [|reflexivity].
  assert (Ht : 0 <= len data / 4) by (apply Z.div_pos; [apply len_nonneg|lia]).
  remember (len data / 4) as t eqn:Heqt. clear Heqt Hmod.
  destruct (Z.eqb_spec (nearest_cbrt t * nearest_cbrt t * nearest_cbrt t) t)
    as [Hcube | Hnot]; cbn [negb].
  - destruct (perfect_cube_root t Ht) as (n & Hn & ->); [now exists (nearest_cbrt t)|].
    rewrite (FmtFacts.round_within_half _ n (Hpow n Hn)), nearest_cbrt_cube by exact Hn.
    now rewrite Z.eqb_refl.
  - apply nearest_cbrt_decides in Hnot; [|exact Ht].
    remember (Fmt.round_half_even (pow_third t)) as c eqn:Hc.
    destruct (Z.eqb_spec (c * c * c) t) as [Hc3 | _]; cbn [negb]; [|reflexivity].
    exfalso. apply Hnot. now exists c.
Qed.

End IterFacts.


(** ** The converters at work *)

Module Examples.
Import Samples.

Example categorize_gr : ConvertOppoLuts.categorize_lut "GR.BW_01" = "Ricoh GR".
Proof. reflexivity. Qed.

Example categorize_unknown : ConvertOppoLuts.categorize_lut "xyz" = "Uncategorized".
Proof. reflexivity. Qed.

Example parse_near_20_cube :
  ConvertOppoLuts.parse_ms_lut_header near_20_cube =
  Ok (Some {| ConvertOppoLuts.version := 0; ConvertOppoLuts.lut_size := 20;
              ConvertOppoLuts.file_size := 24178; ConvertOppoLuts.data_offset := 176;
              ConvertOppoLuts.channels := 3 |}).
Proof. vm_compute. reflexivity. Qed.

Example parse_near_16_cube :
  ConvertOppoLuts.parse_ms_lut_header near_16_cube =
  Ok (Some {| ConvertOppoLuts.version := 0; ConvertOppoLuts.lut_size := 17;
              ConvertOppoLuts.file_size := 12465; ConvertOppoLuts.data_offset := 176;
              ConvertOppoLuts.channels := 3 |}).
Proof. vm_compute. reflexivity. Qed.

Example repair_one_of_eight :
  ConvertOppoLuts.repair [(0, 0, 0)%Q] 2 =
  Ok [(0 # 1, 0 # 1, 0 # 1); (1 # 1, 0 # 1, 0 # 1); (0 # 1, 1 # 1, 0 # 1);
      (1 # 1, 1 # 1, 0 # 1); (0 # 1, 0 # 1, 1 # 1); (1 # 1, 0 # 1, 1 # 1);
      (0 # 1, 1 # 1, 1 # 1); (1 # 1, 1 # 1, 1 # 1)]%Q.
Proof. vm_compute. reflexivity. Qed.

Example repair_size_1_divides_by_zero :
  ConvertOppoLuts.repair [] 1 = Raise ZeroDivisionError.
Proof. reflexivity. Qed.

Example iter_values_bgr :
  ConvertBinToCube.iter_values 2 ascending_24 "bgr" =
  Ok [(0 # 255, 1 # 255, 2 # 255); (12 # 255, 13 # 255, 14 # 255);
      (6 # 255, 7 # 255, 8 # 255); (18 # 255, 19 # 255, 20 # 255);
      (3 # 255, 4 # 255, 5 # 255); (15 # 255, 16 # 255, 17 # 255);
      (9 # 255, 10 # 255, 11 # 255); (21 # 255, 22 # 255, 23 # 255)]%Q.
Proof. vm_compute. reflexivity. Qed.

Example format_half : Fmt.format_6f (inject_Z 128 / 255)%Q = "0.501961".
Proof. vm_compute. reflexivity. Qed.

Example format_tie_to_even : Fmt.format_6f (1 # 128)%Q = "0.007812".
Proof. vm_compute. reflexivity. Qed.

Example convert_file_rgba_zeros :
  ConvertBinToCube.convert_file ConvertBinToCube.nearest_cbrt
    {| parent := ["luts"]; name := "flat.rgb.bin"; stem := "flat.rgb" |} (repeat x00 32) =
  Ok {| ConvertBinToCube.dest := ["converted_cubes"; "luts"; "flat.cube"];
        ConvertBinToCube.size := 2;
        ConvertBinToCube.source_type := "rgba";
        ConvertBinToCube.text := Spec.serialize black_8 2 "flat.rgb.bin" |}.
Proof. vm_compute. reflexivity. Qed.

Example convert_file_truncated_retried :
  ConvertBinToCube.convert_file ConvertBinToCube.nearest_cbrt
    {| parent := []; name := "lut.bin"; stem := "lut" |} truncated_108 =
  Ok {| ConvertBinToCube.dest := ["converted_cubes"; "lut.cube"];
        ConvertBinToCube.size := 3;
        ConvertBinToCube.source_type := "rgba";
        ConvertBinToCube.text :=
          Spec.serialize
            (ConvertBinToCube.cube_list 3
               (fun b g r =>
                  ConvertBinToCube.texel truncated_108
                    (ConvertBinToCube.source_index "rgba" 3 r g b)))
            3 "lut.bin" |}.
Proof. vm_compute. reflexivity. Qed.

End Examples.

(** ** Properties of the converters *)

Module Claims.
Import ConvertOppoLuts LayoutFacts ExtractFacts RepairFacts Samples.

(** C6. For a cube of [size >= 2] points a side, the completion step returns
    exactly [size ^ 3] entries: the first [size ^ 3] entries of a longer
    input, unchanged; an input of that length as it is; and a shorter input
    followed by the identity values [(r/(size-1), g/(size-1), b/(size-1))] of
    the missing slots [idx], where [b = idx // size^2],
    [g = (idx // size) % size] and [r = idx % size]. *)
Theorem repair_exact_count (entries : list triple) (size : Z) (Hsize : 2 <= size) :
  exists out,
    repair entries size = Ok out /\
    len out = size ^ 3 /\
    (size ^ 3 < len entries -> out = firstn (Z.to_nat (size ^ 3)) entries) /\
    (len entries = size ^ 3 -> out = entries) /\
    (len entries < size ^ 3 ->
       firstn (List.length entries) out = entries /\
       forall idx, len entries <= idx < size ^ 3 ->
         let b := idx / (size * size) in
         let g := (idx / size) mod size in
         let r := idx mod size in
         nth_error out (Z.to_nat idx) =
         Some (inject_Z r / inject_Z (size - 1),
               inject_Z g / inject_Z (size - 1),
               inject_Z b / inject_Z (size - 1))%Q).
Proof.
  destruct (repair_returns entries size Hsize) as (out & Hrun & Hcount).
  exists out. split; [exact Hrun|]. split; [exact Hcount|].
  assert (Hpos : 0 <= size ^ 3) by (apply Z.pow_nonneg; lia).
  split; [|split].
  - intros Hlong. unfold repair, slice_to in Hrun.
    destruct (size ^ 3 <? len entries) eqn:E; [|apply Z.ltb_ge in E; lia].
    destruct (0 <=? size ^ 3) eqn:E'; [|apply Z.leb_gt in E'; lia].
    now injection Hrun as <-.
  - intros Hsame. unfold repair in Hrun.
    rewrite Hsame, Z.ltb_irrefl in Hrun. now injection Hrun as <-.
  - intros Hshort. rewrite (repair_pads entries size Hsize Hshort) in Hrun.
    apply Ok_inj in Hrun. subst out. split.
    + rewrite firstn_app, Nat.sub_diag, firstn_all. cbn [firstn].
      now rewrite app_nil_r.
    + intros idx Hidx. cbv zeta. pose proof (len_nonneg entries) as Hlen.
      unfold len in *.
      rewrite nth_error_app2 by lia.
      rewrite nth_error_map, nth_error_seq.
      destruct (Nat.ltb_spec (Z.to_nat idx - List.length entries)
                  (Z.to_nat (size ^ 3 - Z.of_nat (List.length entries)))); [|lia].
      cbn [option_map Nat.add]. unfold ramp.
      replace (Z.of_nat (List.length entries) +
               Z.of_nat (Z.to_nat idx - List.length entries)) with idx by lia.
      reflexivity.
Qed.

Lemma repair_exact_count_witness :
  exists out,
    repair [(0, 0, 0)%Q] 2 = Ok out /\
    len out = 2 ^ 3 /\
    (2 ^ 3 < len [(0, 0, 0)%Q] -> out = firstn (Z.to_nat (2 ^ 3)) [(0, 0, 0)%Q]) /\
    (len [(0, 0, 0)%Q] = 2 ^ 3 -> out = [(0, 0, 0)%Q]) /\
    (len [(0, 0, 0)%Q] < 2 ^ 3 ->
       firstn (List.length [(0, 0, 0)%Q]) out = [(0, 0, 0)%Q] /\
       forall idx, len [(0, 0, 0)%Q] <= idx < 2 ^ 3 ->
         let b := idx / (2 * 2) in
         let g := (idx / 2) mod 2 in
         let r := idx mod 2 in
         nth_error out (Z.to_nat idx) =
         Some (inject_Z r / inject_Z (2 - 1),
               inject_Z g / inject_Z (2 - 1),
               inject_Z b / inject_Z (2 - 1))%Q).
Proof. apply (repair_exact_count [(0, 0, 0)%Q] 2). lia. Defined.

(** C10. Whatever the file, the cube size that the conversion settles on,
    from the header or from the length of a headerless file, is at least 16;
    so [lut_size - 1] is not zero, the identity value of every slot
    [idx < lut_size ^ 3] is computed without a division by zero, and its three
    components lie between 0 and 1. *)
Theorem padding_division_safe (data : bytes) (lut_size : Z) (entries : list triple)
  (idx : Z)
  (Hread : read_entries data = Ok (lut_size, entries))
  (Hidx : 0 <= idx < lut_size ^ 3) :
  16 <= lut_size /\
  lut_size - 1 <> 0 /\
  exists r g b,
    identity_entry lut_size idx = Ok (r, g, b) /\
    (0 <= r <= 1)%Q /\ (0 <= g <= 1)%Q /\ (0 <= b <= 1)%Q.
Proof.
  pose proof (read_entries_size data lut_size entries Hread) as Hsize.
  split; [exact Hsize|]. split; [lia|].
  pose proof (ramp_in_unit lut_size idx ltac:(lia) Hidx) as Hunit.
  destruct (ramp lut_size idx) as [[r g] b] eqn:Hramp.
  exists r, g, b. split; [|exact Hunit].
  rewrite identity_entry_ramp by lia. now rewrite Hramp.
Qed.

Lemma padding_division_safe_witness :
  16 <= 17 /\
  17 - 1 <> 0 /\
  exists r g b,
    identity_entry 17 4912 = Ok (r, g, b) /\
    (0 <= r <= 1)%Q /\ (0 <= g <= 1)%Q /\ (0 <= b <= 1)%Q.
Proof.
  apply (padding_division_safe (MS_MAGIC ++ repeat x00 8) 17 [] 4912).
  - vm_compute. reflexivity.
  - lia.
Defined.

(** C1 (as the code has it). A file of exactly 98304 bytes without the
    magic signature: [convert_oppo_luts.py] reads it with cube size 32, the
    size of the exact-length test [file_size == 98304] and not the default
    guess; [convert_bin_to_cube.py] takes a headerless file for an RGBA8
    volume only, and refuses this one, 24576 texels not being a cube. *)
Theorem headerless_98304 (data : bytes)
  (Hlen : len data = 98304) (Hmagic : startswith MS_MAGIC data = false) :
  parse_ms_lut_header data = Ok None /\
  guess_raw_size (len data) = 32 /\
  (exists entries, read_entries data = Ok (32, entries)) /\
  (forall cbrt_round path,
     ConvertBinToCube.convert_file cbrt_round path data =
     Raise (ValueError "byte length is not a perfect cube of RGBA texels")).
Proof.
  split; [apply parse_without_magic, Hmagic|].
  split; [now rewrite Hlen|].
  split.
  - destruct (read_entries_headerless data Hmagic) as [entries Hread].
    exists entries. rewrite Hread, Hlen. reflexivity.
  - intros cbrt_round path.
    apply (IterFacts.convert_file_raw_raises cbrt_round path data
             "missing .MS-LUT header").
    + apply IterFacts.read_ms_lut_missing. exact Hmagic.
    + apply IterFacts.read_raw_rgba_not_cube; rewrite Hlen; [reflexivity|].
      apply (IterFacts.not_cube_between 29); [lia|]. split; reflexivity.
Qed.

Lemma headerless_98304_witness :
  parse_ms_lut_header (repeat x00 (Z.to_nat 98304)) = Ok None /\
  guess_raw_size (len (repeat x00 (Z.to_nat 98304))) = 32 /\
  (exists entries, read_entries (repeat x00 (Z.to_nat 98304)) = Ok (32, entries)) /\
  (forall cbrt_round path,
     ConvertBinToCube.convert_file cbrt_round path (repeat x00 (Z.to_nat 98304)) =
     Raise (ValueError "byte length is not a perfect cube of RGBA texels")).
Proof.
  apply (headerless_98304 (repeat x00 (Z.to_nat 98304))).
  - vm_compute. reflexivity.
  - vm_compute. reflexivity.
Defined.

(** C1 as stated fails on 98304 zero bytes: [convert_oppo_luts.py] reads them
    with 4 channels, not 3, and [convert_bin_to_cube.py] infers no layout. *)
Lemma headerless_98304_not_32_rgb :
  guess_raw_channels (len (repeat x00 (Z.to_nat 98304))) <> 3 /\
  forall cbrt_round path,
    ~ exists c,
        ConvertBinToCube.convert_file cbrt_round path (repeat x00 (Z.to_nat 98304)) =
        Ok c /\
        ConvertBinToCube.size c = 32.
Proof.
  split; [vm_compute; discriminate|].
  intros cbrt_round path [c [Hconv _]].
  rewrite (IterFacts.convert_file_raw_raises cbrt_round path _
             "missing .MS-LUT header"
             (ValueError "byte length is not a perfect cube of RGBA texels"))
    in Hconv; [discriminate Hconv| |].
  - apply IterFacts.read_ms_lut_missing. vm_compute. reflexivity.
  - apply IterFacts.read_raw_rgba_not_cube.
    + vm_compute. reflexivity.
    + apply (IterFacts.not_cube_between 29); [lia|].
      split; vm_compute; reflexivity.
Qed.

(** C8. The raw-volume reader raises exactly when the byte length is not a
    multiple of 4 or the texel count [length / 4] is not a perfect cube, and
    what it raises is the [ValueError] of the test that failed; a volume of
    [4 * n^3] bytes is accepted with the size [n], the order "rgba" and the
    bytes as they are. The size [round(texel_count ** (1.0 / 3.0))] is read
    over the reals, [nearest_cbrt]; the last part shows that the reader gives
    the same result for every floating-point power whose value at a perfect
    cube is within 1/2 of the root. *)
Theorem read_raw_rgba_fails_iff (data : bytes) :
  ((exists e, ConvertBinToCube.read_raw_rgba ConvertBinToCube.nearest_cbrt data = Raise e) <->
   (len data mod 4 <> 0 \/ ~ ConvertBinToCube.perfect_cube (len data / 4))) /\
  (len data mod 4 <> 0 ->
   ConvertBinToCube.read_raw_rgba ConvertBinToCube.nearest_cbrt data =
   Raise (ValueError "byte length not divisible by 4 for RGBA data")) /\
  (len data mod 4 = 0 -> ~ ConvertBinToCube.perfect_cube (len data / 4) ->
   ConvertBinToCube.read_raw_rgba ConvertBinToCube.nearest_cbrt data =
   Raise (ValueError "byte length is not a perfect cube of RGBA texels")) /\
  (forall n, 0 <= n -> len data = 4 * n ^ 3 ->
   ConvertBinToCube.read_raw_rgba ConvertBinToCube.nearest_cbrt data =
   Ok (n, "rgba", data)) /\
  (forall size order payload,
     ConvertBinToCube.read_raw_rgba ConvertBinToCube.nearest_cbrt data =
     Ok (size, order, payload) ->
     size * size * size = len data / 4 /\ order = "rgba" /\ payload = data) /\
  (forall pow_third : Z -> Q,
     (forall n, 0 <= n -> (Qabs (pow_third (n * n * n)%Z - inject_Z n) < 1 # 2)%Q) ->
     ConvertBinToCube.read_raw_rgba (fun t => Fmt.round_half_even (pow_third t)) data =
     ConvertBinToCube.read_raw_rgba ConvertBinToCube.nearest_cbrt data).
Proof.
  assert (Ht : 0 <= len data / 4) by (apply Z.div_pos; [apply len_nonneg|lia]).
  split; [|split; [|split; [|split; [|split]]]].
  - split.
    + intros [e He].
      destruct (Z.eq_dec (len data mod 4) 0) as [Hmod | Hmod]; [|now left].
      right. intros Hcube.
      destruct (IterFacts.perfect_cube_root _ Ht Hcube) as (n & Hn & Hroot).
      rewrite (IterFacts.read_raw_rgba_exact data n Hn) in He; [discriminate He|].
      pose proof (Z.div_mod (len data) 4 ltac:(lia)) as Hdiv.
      rewrite Hmod, Hroot in Hdiv. rewrite Hdiv. ring.
    + intros [Hmod | Hcube].
      * eexists. apply IterFacts.read_raw_rgba_not_multiple, Hmod.
      * destruct (Z.eq_dec (len data mod 4) 0) as [Hmod | Hmod].
        -- eexists. apply IterFacts.read_raw_rgba_not_cube; assumption.
        -- eexists. apply IterFacts.read_raw_rgba_not_multiple, Hmod.
  - apply IterFacts.read_raw_rgba_not_multiple.
  - apply IterFacts.read_raw_rgba_not_cube.
  - apply IterFacts.read_raw_rgba_exact.
  - intros size order payload Hread.
    apply IterFacts.read_raw_rgba_returns in Hread as (_ & Hord & Hpay & _ & Hcube).
    split; [rewrite <- Hcube; ring|]. split; assumption.
  - intros pow_third Hpow. apply IterFacts.read_raw_rgba_float_tolerant, Hpow.
Qed.

Lemma read_raw_rgba_fails_iff_witness :
  ConvertBinToCube.read_raw_rgba ConvertBinToCube.nearest_cbrt (repeat x00 108) =
    Ok (3, "rgba", repeat x00 108) /\
  ConvertBinToCube.read_raw_rgba ConvertBinToCube.nearest_cbrt (repeat x00 48) =
    Raise (ValueError "byte length is not a perfect cube of RGBA texels").
Proof.
  split.
  - apply (read_raw_rgba_fails_iff (repeat x00 108)); [lia|reflexivity].
  - apply (read_raw_rgba_fails_iff (repeat x00 48)); [reflexivity|].
    apply (IterFacts.not_cube_between 2); [lia|]. split; reflexivity.
Defined.

(** C2 (as the code has it). A file with the magic signature and at least 48
    bytes, whose axis table fits and whose declared data offset plus
    [size^3 * 3] exceeds the length: [read_ms_lut] raises "payload truncated",
    and [convert_file] reads the whole file again as a raw RGBA8 volume. When
    the length is [4 * n^3], the file is converted as an "rgba" source of
    size [n] if its name is ASCII, and the write of the title line raises
    [UnicodeEncodeError] if it is not; when the length is not four times a
    perfect cube, the conversion fails with the [ValueError] of
    [read_raw_rgba]. *)
Theorem truncated_payload_retried_as_raw (path : file_path) (data : bytes)
  (Hlen : 48 <= len data)
  (Hmagic : startswith ConvertBinToCube.MS_MAGIC data = true)
  (Haxis : ConvertBinToCube.header_field data 8 +
           ConvertBinToCube.header_field data 3 * 4 <= len data)
  (Htrunc : len data <
            ConvertBinToCube.header_field data 10 +
            ConvertBinToCube.header_field data 3 * ConvertBinToCube.header_field data 3 *
            ConvertBinToCube.header_field data 3 * 3) :
  ConvertBinToCube.read_ms_lut data = Raise (ValueError "payload truncated") /\
  (forall n, 0 <= n -> len data = 4 * n ^ 3 -> str_isascii (name path) = true ->
   exists c,
     ConvertBinToCube.convert_file ConvertBinToCube.nearest_cbrt path data = Ok c /\
     ConvertBinToCube.source_type c = "rgba" /\
     ConvertBinToCube.size c = n /\
     ConvertBinToCube.dest c = ConvertBinToCube.cube_path_for path) /\
  (forall n, 0 <= n -> len data = 4 * n ^ 3 -> str_isascii (name path) = false ->
   ConvertBinToCube.convert_file ConvertBinToCube.nearest_cbrt path data =
   Raise UnicodeEncodeError) /\
  (len data mod 4 <> 0 ->
   ConvertBinToCube.convert_file ConvertBinToCube.nearest_cbrt path data =
   Raise (ValueError "byte length not divisible by 4 for RGBA data")) /\
  (len data mod 4 = 0 -> ~ ConvertBinToCube.perfect_cube (len data / 4) ->
   ConvertBinToCube.convert_file ConvertBinToCube.nearest_cbrt path data =
   Raise (ValueError "byte length is not a perfect cube of RGBA texels")) /\
  (forall c,
     ConvertBinToCube.convert_file ConvertBinToCube.nearest_cbrt path data = Ok c ->
     ConvertBinToCube.source_type c = "rgba" /\
     4 * ConvertBinToCube.size c ^ 3 = len data).
Proof.
  pose proof (IterFacts.read_ms_lut_truncated data Hlen Hmagic Haxis Htrunc) as Hms.
  assert (Hany : forall n, 0 <= n -> len data = 4 * n ^ 3 ->
            ConvertBinToCube.read_any ConvertBinToCube.nearest_cbrt data =
            Ok (n, "rgba", data, "rgba")).
  { intros n Hn Hcube. unfold ConvertBinToCube.read_any. rewrite Hms.
    cbn [is_value_error]. now rewrite (IterFacts.read_raw_rgba_exact data n Hn Hcube). }
  split; [exact Hms|]. split; [|split; [|split; [|split]]].
  - intros n Hn Hcube Hascii.
    rewrite (IterFacts.convert_file_of_read_any _ path data _ _ _ _ (Hany n Hn Hcube)).
    rewrite Hascii. eexists. split; [reflexivity|].
    cbn [ConvertBinToCube.source_type ConvertBinToCube.size ConvertBinToCube.dest].
    repeat split.
  - intros n Hn Hcube Hascii.
    rewrite (IterFacts.convert_file_of_read_any _ path data _ _ _ _ (Hany n Hn Hcube)).
    now rewrite Hascii.
  - intros Hmod. apply (IterFacts.convert_file_raw_raises _ _ _ _ _ Hms).
    apply IterFacts.read_raw_rgba_not_multiple, Hmod.
  - intros Hmod Hcube. apply (IterFacts.convert_file_raw_raises _ _ _ _ _ Hms).
    apply IterFacts.read_raw_rgba_not_cube; assumption.
  - intros c Hconv.
    apply IterFacts.convert_file_inv in Hconv as (order & payload & Hread & _).
    unfold ConvertBinToCube.read_any in Hread. rewrite Hms in Hread.
    cbn [is_value_error] in Hread.
    destruct (ConvertBinToCube.read_raw_rgba ConvertBinToCube.nearest_cbrt data)
      as [[[sz ord] pl]|e] eqn:Hraw; cbn [bind] in Hread; [|discriminate Hread].
    apply Ok_inj in Hread. injection Hread as Hsz _ _ Hsrc.
    apply IterFacts.read_raw_rgba_returns in Hraw as (_ & _ & _ & Hmod & Hcube).
    split; [now symmetry|]. rewrite <- Hsz, Hcube.
    pose proof (Z.div_mod (len data) 4 ltac:(lia)). lia.
Qed.

Lemma truncated_payload_retried_as_raw_witness :
  ConvertBinToCube.read_ms_lut truncated_108 = Raise (ValueError "payload truncated") /\
  (exists c,
     ConvertBinToCube.convert_file ConvertBinToCube.nearest_cbrt
       {| parent := []; name := "lut.bin"; stem := "lut" |} truncated_108 = Ok c /\
     ConvertBinToCube.source_type c = "rgba" /\
     ConvertBinToCube.size c = 3 /\
     ConvertBinToCube.dest c = ["converted_cubes"; "lut.cube"]) /\
  ConvertBinToCube.convert_file ConvertBinToCube.nearest_cbrt
    {| parent := []; name := accented_name; stem := "lut" |} truncated_108 =
  Raise UnicodeEncodeError.
Proof.
  assert (H48 : 48 <= len truncated_108) by (vm_compute; discriminate).
  assert (Hmagic : startswith ConvertBinToCube.MS_MAGIC truncated_108 = true)
    by (vm_compute; reflexivity).
  assert (Haxis : ConvertBinToCube.header_field truncated_108 8 +
                  ConvertBinToCube.header_field truncated_108 3 * 4 <= len truncated_108)
    by (vm_compute; discriminate).
  assert (Htrunc : len truncated_108 <
                   ConvertBinToCube.header_field truncated_108 10 +
                   ConvertBinToCube.header_field truncated_108 3 *
                   ConvertBinToCube.header_field truncated_108 3 *
                   ConvertBinToCube.header_field truncated_108 3 * 3)
    by (vm_compute; reflexivity).
  destruct (truncated_payload_retried_as_raw
              {| parent := []; name := "lut.bin"; stem := "lut" |} truncated_108
              H48 Hmagic Haxis Htrunc) as (Hms & Hok & _).
  destruct (truncated_payload_retried_as_raw
              {| parent := []; name := accented_name; stem := "lut" |} truncated_108
              H48 Hmagic Haxis Htrunc) as (_ & _ & Hbad & _).
  split; [exact Hms|]. split.
  - destruct (Hok 3) as (c & Hc & Hsrc & Hsz & Hdest); [lia|reflexivity|reflexivity|].
    exists c. repeat split; assumption.
  - apply (Hbad 3); [lia|reflexivity|reflexivity].
Defined.

(** C2 as stated fails on [truncated_48]: the header parser raises "payload
    truncated" and no conversion of the file succeeds, 12 texels not being a
    cube. *)
Lemma truncated_48_not_converted :
  ConvertBinToCube.read_ms_lut truncated_48 = Raise (ValueError "payload truncated") /\
  forall cbrt_round path,
    ~ exists c, ConvertBinToCube.convert_file cbrt_round path truncated_48 = Ok c.
Proof.
  split; [vm_compute; reflexivity|].
  intros cbrt_round path [c Hconv].
  rewrite (IterFacts.convert_file_raw_raises cbrt_round path _
             "payload truncated"
             (ValueError "byte length is not a perfect cube of RGBA texels"))
    in Hconv; [discriminate Hconv| |].
  - vm_compute. reflexivity.
  - apply IterFacts.read_raw_rgba_not_cube.
    + vm_compute. reflexivity.
    + apply (IterFacts.not_cube_between 2); [lia|].
      split; vm_compute; reflexivity.
Qed.

(** C9. When the first 20 bytes of the file are all ASCII and the first 500
    bytes, decoded as ASCII with the other bytes dropped, contain
    [LUT_3D_SIZE] or [TITLE], [convert_bin_to_cube] writes the bytes of the
    file, unchanged, to [<stem>.cube] in the output directory and returns
    success with the genre of the stem: no header is parsed and no entry is
    decoded, completed or formatted. *)
Theorem cube_text_is_copied (bin_path : file_path) (output_dir : Path) (data : bytes)
  (Hascii : forall b, In b (firstn 20 data) -> byte_val b < 128)
  (Hkey : exists pre post,
      decode_ascii_ignore (firstn 500 data) = pre ++ LUT_3D_SIZE ++ post \/
      decode_ascii_ignore (firstn 500 data) = pre ++ TITLE ++ post) :
  convert_bin_to_cube bin_path output_dir data =
  {| success := true;
     genre := Some (categorize_lut (stem bin_path));
     output_path := Some (path_join output_dir (stem bin_path ++ ".cube")%string);
     written := Some (path_join output_dir (stem bin_path ++ ".cube")%string,
                      BinaryFile data) |}.
Proof.
  assert (Htext : is_cube_text data = true).
  { unfold is_cube_text. rewrite !slice_prefix. apply andb_true_iff. split.
    - unfold isascii. apply forallb_forall. intros b Hb. apply Z.ltb_lt.
      apply Hascii, Hb.
    - destruct Hkey as (pre & post & [-> | ->]); rewrite contains_app;
        [reflexivity|apply orb_true_r]. }
  unfold convert_bin_to_cube, convert_body. rewrite Htext. reflexivity.
Qed.

Lemma cube_text_is_copied_witness :
  convert_bin_to_cube {| parent := ["OPPO"]; name := "warm.bin"; stem := "warm" |}
    ["converted_oppo_cubes"] (TITLE ++ [x0a]) =
  {| success := true;
     genre := Some (categorize_lut "warm");
     output_path := Some (path_join ["converted_oppo_cubes"] "warm.cube");
     written := Some (path_join ["converted_oppo_cubes"] "warm.cube",
                      BinaryFile (TITLE ++ [x0a])) |}.
Proof.
  apply (cube_text_is_copied
           {| parent := ["OPPO"]; name := "warm.bin"; stem := "warm" |}
           ["converted_oppo_cubes"] (TITLE ++ [x0a])).
  - intros b Hb. cbn in Hb.
    repeat (destruct Hb as [<- | Hb]; [vm_compute; reflexivity|]). destruct Hb.
  - exists [], [x0a]. right. vm_compute. reflexivity.
Defined.

(** C3 (as the code has it). For a buffer with the magic signature whose
    remainder matches no candidate size exactly, the tolerance tier tries the
    sizes 20, 17, 21, 25 only, in that order, each with 3 then 4 channels:
    the first of these eight pairs whose byte count [size^3 * channels] is
    within 4 bytes of the remainder gives the cube size and the channel
    count. When none of the eight is within 4 bytes, the tier gives nothing,
    however near another candidate is, and the layout is that of the
    file-size buckets with 3 channels. So the layout is either one of the
    eight pairs, within 4 bytes of the remainder, or the bucket's. *)
Theorem tolerance_tier_first_match (data : bytes)
  (Hmagic : startswith MS_MAGIC data = true) (Hlen : 16 <= len data) :
  exists h,
    parse_ms_lut_header data = Ok (Some h) /\
    file_size h = len data /\
    let remaining := file_size h - data_offset h in
    let pairs := [(20, 3); (20, 4); (17, 3); (17, 4); (21, 3); (21, 4); (25, 3); (25, 4)] in
    (forall size, In size [32; 33; 17; 16; 21; 25; 20] ->
       remaining <> size ^ 3 * 3 /\ remaining <> size ^ 3 * 4) ->
    (forall pre size ch post,
       pairs = pre ++ (size, ch) :: post ->
       (forall s c, In (s, c) pre -> 4 < Z.abs (remaining - s ^ 3 * c)) ->
       Z.abs (remaining - size ^ 3 * ch) <= 4 ->
       lut_size h = size /\ channels h = ch) /\
    ((forall s c, In (s, c) pairs -> 4 < Z.abs (remaining - s ^ 3 * c)) ->
     lut_size h = fallback_size (file_size h) /\ channels h = 3) /\
    ((In (lut_size h, channels h) pairs /\
      Z.abs (remaining - lut_size h ^ 3 * channels h) <= 4) \/
     (lut_size h = fallback_size (file_size h) /\ channels h = 3 /\
      forall s c, In (s, c) pairs -> 4 < Z.abs (remaining - s ^ 3 * c))).
Proof.
  eexists. split; [apply parse_with_magic; assumption|].
  unfold layout.
  set (remaining := len data - chosen_offset data).
  destruct (exact_match remaining [32; 33; 17; 16; 21; 25; 20]) as [[sz c]|] eqn:Hexact.
  - split; [reflexivity|]. cbn [file_size data_offset]. fold remaining.
    intros Hnone. apply exact_match_none in Hnone. congruence.
  - destruct (tolerance_match remaining [20; 17; 21; 25]) as [[sz c]|] eqn:Htol;
      (split; [reflexivity|]); cbn [file_size data_offset lut_size channels];
      fold remaining; intros _; (split; [|split]).
    + intros pre size ch post Hsplit Hpre Hin.
      rewrite (tolerance_match_first remaining [20; 17; 21; 25] pre size ch post
                 Hsplit Hpre Hin) in Htol.
      injection Htol as -> ->. split; reflexivity.
    + intros Hfar. exfalso.
      assert (Hnot : tolerance_match remaining [20; 17; 21; 25] = None)
        by (apply tolerance_match_none; exact Hfar).
      congruence.
    + left. apply (tolerance_match_pair remaining [20; 17; 21; 25]), Htol.
    + intros pre size ch post Hsplit Hpre Hin.
      rewrite (tolerance_match_first remaining [20; 17; 21; 25] pre size ch post
                 Hsplit Hpre Hin) in Htol.
      discriminate Htol.
    + intros _. split; reflexivity.
    + right. split; [reflexivity|]. split; [reflexivity|].
      apply (tolerance_match_none remaining [20; 17; 21; 25]), Htol.
Qed.

Lemma tolerance_tier_first_match_witness :
  exists h,
    parse_ms_lut_header near_20_cube = Ok (Some h) /\
    file_size h = len near_20_cube /\
    let remaining := file_size h - data_offset h in
    let pairs := [(20, 3); (20, 4); (17, 3); (17, 4); (21, 3); (21, 4); (25, 3); (25, 4)] in
    (forall size, In size [32; 33; 17; 16; 21; 25; 20] ->
       remaining <> size ^ 3 * 3 /\ remaining <> size ^ 3 * 4) ->
    (forall pre size ch post,
       pairs = pre ++ (size, ch) :: post ->
       (forall s c, In (s, c) pre -> 4 < Z.abs (remaining - s ^ 3 * c)) ->
       Z.abs (remaining - size ^ 3 * ch) <= 4 ->
       lut_size h = size /\ channels h = ch) /\
    ((forall s c, In (s, c) pairs -> 4 < Z.abs (remaining - s ^ 3 * c)) ->
     lut_size h = fallback_size (file_size h) /\ channels h = 3) /\
    ((In (lut_size h, channels h) pairs /\
      Z.abs (remaining - lut_size h ^ 3 * channels h) <= 4) \/
     (lut_size h = fallback_size (file_size h) /\ channels h = 3 /\
      forall s c, In (s, c) pairs -> 4 < Z.abs (remaining - s ^ 3 * c))).
Proof.
  apply (tolerance_tier_first_match near_20_cube).
  - vm_compute. reflexivity.
  - vm_compute. discriminate.
Defined.

(** C3 as stated fails on [near_16_cube]: no candidate matches exactly, the
    candidate 16 with 3 channels is within 4 bytes of the remainder, and the
    code answers 17, the size of the smallest file-size bucket. *)
Lemma tolerance_tier_skips_16 :
  exists h,
    parse_ms_lut_header near_16_cube = Ok (Some h) /\
    exact_match (file_size h - data_offset h) Spec.candidate_sizes = None /\
    Spec.tolerance_tier (file_size h - data_offset h) Spec.candidate_sizes =
    Some (16, 3) /\
    lut_size h = 17 /\ lut_size h <> 16.
Proof.
  eexists. split; [vm_compute; reflexivity|].
  cbn [file_size data_offset lut_size].
  repeat split; try (vm_compute; reflexivity). discriminate.
Qed.

(** C7 (as the code has it). For every buffer of at least 16 bytes that
    begins with the magic signature, [parse_ms_lut_header] returns a layout;
    when neither the exact tier nor the tolerance tier matches the
    remainder, the layout has 3 channels and the cube size of the file-size
    bucket: 17 up to 14900 bytes, 16 up to 17000, 21 up to 28000, 32 up to
    100000 and up to 135000, and 33 above. *)
Theorem parse_returns_layout (data : bytes)
  (Hmagic : startswith MS_MAGIC data = true) (Hlen : 16 <= len data) :
  exists h,
    parse_ms_lut_header data = Ok (Some h) /\
    file_size h = len data /\
    let remaining := file_size h - data_offset h in
    ((forall size, In size [32; 33; 17; 16; 21; 25; 20] ->
        remaining <> size ^ 3 * 3 /\ remaining <> size ^ 3 * 4) ->
     (forall size ch, In size [20; 17; 21; 25] -> In ch [3; 4] ->
        4 < Z.abs (remaining - size ^ 3 * ch)) ->
     channels h = 3 /\
     (file_size h <= 14900 -> lut_size h = 17) /\
     (14900 < file_size h <= 17000 -> lut_size h = 16) /\
     (17000 < file_size h <= 28000 -> lut_size h = 21) /\
     (28000 < file_size h <= 100000 -> lut_size h = 32) /\
     (100000 < file_size h <= 135000 -> lut_size h = 32) /\
     (135000 < file_size h -> lut_size h = 33)).
Proof.
  eexists. split; [apply parse_with_magic; assumption|].
  unfold layout.
  set (remaining := len data - chosen_offset data).
  destruct (exact_match remaining [32; 33; 17; 16; 21; 25; 20]) as [[sz c]|] eqn:Hexact.
  - split; [reflexivity|]. cbn [file_size data_offset]. fold remaining.
    intros Hnone. apply exact_match_none in Hnone. congruence.
  - destruct (tolerance_match remaining [20; 17; 21; 25]) as [[sz c]|] eqn:Htol;
      (split; [reflexivity|]); cbn [file_size data_offset lut_size channels];
      fold remaining; intros _ Hnone.
    + assert (Hnot : tolerance_match remaining [20; 17; 21; 25] = None).
      { apply tolerance_match_none. intros size ch Hin. cbn in Hin.
        apply Hnone; cbn;
          repeat (destruct Hin as [[= <- <-] | Hin]; [tauto|]); destruct Hin. }
      congruence.
    + split; [reflexivity|]. unfold fallback_size.
      repeat match goal with
      | |- context [?a <=? ?b] => destruct (Z.leb_spec a b)
      end; repeat split; intros; lia.
Qed.

Lemma parse_returns_layout_witness :
  exists h,
    parse_ms_lut_header near_16_cube = Ok (Some h) /\
    file_size h = len near_16_cube /\
    let remaining := file_size h - data_offset h in
    ((forall size, In size [32; 33; 17; 16; 21; 25; 20] ->
        remaining <> size ^ 3 * 3 /\ remaining <> size ^ 3 * 4) ->
     (forall size ch, In size [20; 17; 21; 25] -> In ch [3; 4] ->
        4 < Z.abs (remaining - size ^ 3 * ch)) ->
     channels h = 3 /\
     (file_size h <= 14900 -> lut_size h = 17) /\
     (14900 < file_size h <= 17000 -> lut_size h = 16) /\
     (17000 < file_size h <= 28000 -> lut_size h = 21) /\
     (28000 < file_size h <= 100000 -> lut_size h = 32) /\
     (100000 < file_size h <= 135000 -> lut_size h = 32) /\
     (135000 < file_size h -> lut_size h = 33)).
Proof.
  apply (parse_returns_layout near_16_cube).
  - vm_compute. reflexivity.
  - vm_compute. discriminate.
Defined.

(** C7 as stated fails on the 8 bytes of the signature alone: the buffer
    begins with the signature and [parse_ms_lut_header] raises
    [struct.error] at the first [unpack]. *)
Lemma parse_raises_on_bare_magic :
  startswith MS_MAGIC MS_MAGIC = true /\
  parse_ms_lut_header MS_MAGIC = Raise StructError /\
  ~ exists h, parse_ms_lut_header MS_MAGIC = Ok h.
Proof.
  split; [reflexivity|]. split; [reflexivity|].
  intros [h Hh]. discriminate Hh.
Qed.

(** C4 (as the code has it). [iter_values] yields one triple per grid point,
    blue outermost and red innermost. The triple of the point [(r, g, b)] is
    made of the three bytes at [i], [i + 1], [i + 2], each times [1/255], red
    always from [i] and blue from [i + 2]; the order only selects the texel:
    [i = 3 (r + g N + b N^2)] for "rgb", [i = 3 (b + g N + r N^2)] for "bgr",
    and [i = 4 (r + g N + b N^2)] for "rgba", whose fourth byte is never
    read. *)
Theorem iter_values_reads_in_place (size : Z) (payload : bytes) (order : string)
  (Hsize : 0 <= size)
  (Horder : order = "rgb" \/ order = "bgr" \/ order = "rgba")
  (Hlen : (if String.eqb order "rgba" then 4 else 3) * size ^ 3 <= len payload) :
  exists out,
    ConvertBinToCube.iter_values size payload order = Ok out /\
    len out = size ^ 3 /\
    forall r g b, 0 <= r < size -> 0 <= g < size -> 0 <= b < size ->
      let texel_number :=
        if String.eqb order "bgr" then b + g * size + r * size * size
        else r + g * size + b * size * size in
      let i := (if String.eqb order "rgba" then 4 else 3) * texel_number in
      nth_error out (Z.to_nat (r + g * size + b * size * size)) =
      Some (inject_Z (ConvertBinToCube.byte_at payload i) * (1 / 255),
            inject_Z (ConvertBinToCube.byte_at payload (i + 1)) * (1 / 255),
            inject_Z (ConvertBinToCube.byte_at payload (i + 2)) * (1 / 255))%Q.
Proof.
  eexists. split; [apply IterFacts.iter_values_run; assumption|]. split.
  - unfold len. rewrite IterFacts.length_cube_list.
    replace (size ^ 3) with (size * (size * size)) by ring.
    rewrite !Nat2Z.inj_mul, Z2Nat.id by exact Hsize. reflexivity.
  - intros r g b Hr Hg Hb. cbv zeta.
    pose proof (IterFacts.grid_index_bound size r g b Hr Hg Hb) as Hbound.
    replace (Z.to_nat (r + g * size + b * size * size))
      with (Z.to_nat b * (Z.to_nat size * Z.to_nat size) +
            (Z.to_nat g * Z.to_nat size + Z.to_nat r))%nat.
    + rewrite IterFacts.nth_error_cube_list by lia.
      rewrite !Z2Nat.id by lia. unfold ConvertBinToCube.texel.
      assert (Hidx :
        ConvertBinToCube.source_index order size r g b =
        (if String.eqb order "rgba" then 4 else 3) *
        (if String.eqb order "bgr" then b + g * size + r * size * size
         else r + g * size + b * size * size)).
      { unfold ConvertBinToCube.source_index.
        destruct Horder as [-> | [-> | ->]]; decide_orders; cbv beta iota zeta; ring. }
      rewrite Hidx. reflexivity.
    + apply Nat2Z.inj. rewrite Nat2Z.inj_add, Nat2Z.inj_mul, Nat2Z.inj_add.
      rewrite !Nat2Z.inj_mul, !Z2Nat.id by lia. ring.
Qed.

Lemma iter_values_reads_in_place_witness :
  exists out,
    ConvertBinToCube.iter_values 2 ascending_24 "bgr" = Ok out /\
    len out = 2 ^ 3 /\
    forall r g b, 0 <= r < 2 -> 0 <= g < 2 -> 0 <= b < 2 ->
      let texel_number :=
        if String.eqb "bgr" "bgr" then b + g * 2 + r * 2 * 2
        else r + g * 2 + b * 2 * 2 in
      let i := (if String.eqb "bgr" "rgba" then 4 else 3) * texel_number in
      nth_error out (Z.to_nat (r + g * 2 + b * 2 * 2)) =
      Some (inject_Z (ConvertBinToCube.byte_at ascending_24 i) * (1 / 255),
            inject_Z (ConvertBinToCube.byte_at ascending_24 (i + 1)) * (1 / 255),
            inject_Z (ConvertBinToCube.byte_at ascending_24 (i + 2)) * (1 / 255))%Q.
Proof.
  apply (iter_values_reads_in_place 2 ascending_24 "bgr").
  - lia.
  - right. left. reflexivity.
  - vm_compute. discriminate.
Defined.

(** C4 as stated fails on the payload 0, 1, ..., 23 in "bgr" order: the first
    triple yielded has the bytes 0, 1, 2 as red, green, blue, as the RGB
    reading of the specification at position 0; no position gives it under
    the BGR reading, whose red byte comes two places after its blue byte. *)
Lemma bgr_bytes_not_swapped :
  exists out first,
    ConvertBinToCube.iter_values 2 ascending_24 "bgr" = Ok out /\
    nth_error out 0 = Some first /\
    same_triple first (Spec.decode_triple Spec.RGB ascending_24 0) /\
    forall i, 0 <= i <= 21 ->
      ~ same_triple first (Spec.decode_triple Spec.BGR ascending_24 i).
Proof.
  eexists. eexists. split; [vm_compute; reflexivity|].
  split; [reflexivity|]. split; [vm_compute; repeat split; reflexivity|].
  intros i Hi.
  assert (Hcases : In i (map Z.of_nat (seq 0 22))).
  { apply in_map_iff. exists (Z.to_nat i). split; [lia|apply in_seq; lia]. }
  cbn [seq map In] in Hcases.
  repeat (destruct Hcases as [<- | Hcases];
          [intros [Hred _]; vm_compute in Hred; discriminate Hred|]).
  destruct Hcases.
Qed.

(** C5 (as the code has it). The text that [convert_file] of
    [convert_bin_to_cube.py] writes is exactly the four lines [TITLE "<name>"],
    [LUT_3D_SIZE <size>], [DOMAIN_MIN 0 0 0], [DOMAIN_MAX 1 1 1], followed at
    once by the [size^3] triples that [iter_values] yields, one line each, of
    three numerals with six digits after the point. [write_cube_file] of
    [convert_oppo_luts.py] writes [DOMAIN_MIN 0.0 0.0 0.0] and
    [DOMAIN_MAX 1.0 1.0 1.0] instead, then an empty line, then one such line
    per entry. *)
Theorem serialized_text (cbrt_round : Z -> Z) (path : file_path) (data : bytes)
  (c : ConvertBinToCube.converted)
  (Hconv : ConvertBinToCube.convert_file cbrt_round path data = Ok c) :
  (exists values order payload,
     ConvertBinToCube.read_any cbrt_round data =
       Ok (ConvertBinToCube.size c, order, payload, ConvertBinToCube.source_type c) /\
     ConvertBinToCube.iter_values (ConvertBinToCube.size c) payload order = Ok values /\
     len values = ConvertBinToCube.size c ^ 3 /\
     ConvertBinToCube.text c =
       ("TITLE " ++ dquote ++ name path ++ dquote ++ newline ++
        "LUT_3D_SIZE " ++ str_int (ConvertBinToCube.size c) ++ newline ++
        "DOMAIN_MIN 0 0 0" ++ newline ++
        "DOMAIN_MAX 1 1 1" ++ newline ++
        String.concat EmptyString (map ConvertBinToCube.value_line values))%string /\
     forall e, In e values ->
       exists x y z,
         ConvertBinToCube.value_line e = (x ++ " " ++ y ++ " " ++ z ++ newline)%string /\
         Fmt.fixed_6 x /\ Fmt.fixed_6 y /\ Fmt.fixed_6 z) /\
  (forall entries lut_size title,
     write_cube_file entries lut_size title =
       ("TITLE " ++ dquote ++ title ++ dquote ++ newline ++
        "LUT_3D_SIZE " ++ str_int lut_size ++ newline ++
        "DOMAIN_MIN 0.0 0.0 0.0" ++ newline ++
        "DOMAIN_MAX 1.0 1.0 1.0" ++ newline ++
        newline ++
        String.concat EmptyString (map ConvertBinToCube.value_line entries))%string).
Proof.
  split; [|reflexivity].
  destruct (IterFacts.convert_file_inv cbrt_round path data c Hconv)
    as (order & payload & Hread & Htext).
  destruct (IterFacts.read_any_returns cbrt_round data _ _ _ _ Hread)
    as (Hsize & Horder & Hlen).
  eexists. exists order, payload. split; [exact Hread|].
  split; [apply IterFacts.iter_values_run; [exact Horder|lia]|]. split; [|split].
  - unfold len. rewrite IterFacts.length_cube_list.
    replace (ConvertBinToCube.size c ^ 3)
      with (ConvertBinToCube.size c * (ConvertBinToCube.size c * ConvertBinToCube.size c))
      by ring.
    rewrite !Nat2Z.inj_mul, Z2Nat.id by exact Hsize. reflexivity.
  - exact Htext.
  - intros e _. apply FmtFacts.value_line_fixed.
Qed.

Lemma serialized_text_witness :
  (exists values order payload,
     ConvertBinToCube.read_any ConvertBinToCube.nearest_cbrt (repeat x00 32) =
       Ok (2, order, payload, "rgba") /\
     ConvertBinToCube.iter_values 2 payload order = Ok values /\
     len values = 2 ^ 3 /\
     (Spec.serialize black_8 2 "lut.bin" =
       ("TITLE " ++ dquote ++ "lut.bin" ++ dquote ++ newline ++
        "LUT_3D_SIZE " ++ str_int 2 ++ newline ++
        "DOMAIN_MIN 0 0 0" ++ newline ++
        "DOMAIN_MAX 1 1 1" ++ newline ++
        String.concat EmptyString (map ConvertBinToCube.value_line values))%string) /\
     forall e, In e values ->
       exists x y z,
         ConvertBinToCube.value_line e = (x ++ " " ++ y ++ " " ++ z ++ newline)%string /\
         Fmt.fixed_6 x /\ Fmt.fixed_6 y /\ Fmt.fixed_6 z) /\
  (forall entries lut_size title,
     write_cube_file entries lut_size title =
       ("TITLE " ++ dquote ++ title ++ dquote ++ newline ++
        "LUT_3D_SIZE " ++ str_int lut_size ++ newline ++
        "DOMAIN_MIN 0.0 0.0 0.0" ++ newline ++
        "DOMAIN_MAX 1.0 1.0 1.0" ++ newline ++
        newline ++
        String.concat EmptyString (map ConvertBinToCube.value_line entries))%string).
Proof.
  apply (serialized_text ConvertBinToCube.nearest_cbrt
           {| parent := []; name := "lut.bin"; stem := "lut" |} (repeat x00 32)
           {| ConvertBinToCube.dest := ["converted_cubes"; "lut.cube"];
              ConvertBinToCube.size := 2;
              ConvertBinToCube.source_type := "rgba";
              ConvertBinToCube.text := Spec.serialize black_8 2 "lut.bin" |}).
  vm_compute. reflexivity.
Defined.

(** C5 as stated fails for [write_cube_file] on eight black entries: its text
    is not that of the four header lines followed at once by the data
    lines. *)
Lemma write_cube_file_differs :
  write_cube_file black_8 2 "lut" <> Spec.serialize black_8 2 "lut".
Proof. intros H. vm_compute in H. discriminate H. Qed.

End Claims.

(** ** Further properties of the converters *)

Module Coverage.
Import ConvertOppoLuts LayoutFacts ExtractFacts RepairFacts Samples.

(** *** [parse_ms_lut_header] *)

Lemma startswith_length (prefix data : bytes) :
  startswith prefix data = true -> (List.length prefix <= List.length data)%nat.
Proof.
  revert data. induction prefix as [|p ps IH]; intros data H; cbn [List.length].
  - lia.
  - destruct data as [|d ds]; cbn [startswith] in H; [discriminate|].
    apply andb_true_iff in H as [_ H]. apply IH in H. cbn [List.length]. lia.
Qed.

Lemma parse_short_magic (data : bytes) :
  startswith MS_MAGIC data = true -> len data < 16 ->
  parse_ms_lut_header data = Raise StructError.
Proof.
  intros Hmagic Hshort. unfold parse_ms_lut_header, unpack_I.
  rewrite Hmagic. cbn [negb].
  destruct (Nat.eqb (List.length (slice 8 12 data)) 4) eqn:E1; cbn [bind];
    [|reflexivity].
  destruct (Nat.eqb (List.length (slice 12 16 data)) 4) eqn:E2; cbn [bind];
    [|reflexivity].
  exfalso. apply Nat.eqb_eq in E2. unfold slice in E2.
  rewrite length_firstn, length_skipn in E2. unfold len in Hshort. lia.
Qed.

Lemma parse_some_inv (data : bytes) (h : header) :
  parse_ms_lut_header data = Ok (Some h) ->
  startswith MS_MAGIC data = true /\ 16 <= len data /\
  h = layout (le_int (slice 8 12 data)) (len data) (chosen_offset data).
Proof.
  intros Hparse.
  destruct (startswith MS_MAGIC data) eqn:Hmagic.
  - destruct (Z_lt_le_dec (len data) 16) as [Hshort | Hlong].
    + rewrite (parse_short_magic data Hmagic Hshort) in Hparse. discriminate Hparse.
    + rewrite (parse_with_magic data Hmagic Hlong) in Hparse.
      apply Ok_inj in Hparse. injection Hparse as <-. auto.
  - rewrite (parse_without_magic data Hmagic) in Hparse. discriminate Hparse.
Qed.

(** X1. [parse_ms_lut_header] returns [None] exactly for a buffer without
    the signature, raises [struct.error] exactly for a buffer with the
    signature and fewer than 16 bytes, and returns a header exactly for a
    buffer with the signature and at least 16 bytes. *)
Theorem parse_ms_lut_header_outcomes (data : bytes) :
  (parse_ms_lut_header data = Ok None <-> startswith MS_MAGIC data = false) /\
  (parse_ms_lut_header data = Raise StructError <->
   startswith MS_MAGIC data = true /\ len data < 16) /\
  ((exists h, parse_ms_lut_header data = Ok (Some h)) <->
   startswith MS_MAGIC data = true /\ 16 <= len data).
Proof.
  assert (Hcases :
    (startswith MS_MAGIC data = false /\ parse_ms_lut_header data = Ok None) \/
    (startswith MS_MAGIC data = true /\ len data < 16 /\
     parse_ms_lut_header data = Raise StructError) \/
    (startswith MS_MAGIC data = true /\ 16 <= len data /\
     exists h, parse_ms_lut_header data = Ok (Some h))).
  { destruct (startswith MS_MAGIC data) eqn:Hmagic.
    - destruct (Z_lt_le_dec (len data) 16) as [Hshort | Hlong].
      + right. left. auto using parse_short_magic.
      + right. right. rewrite (parse_with_magic data Hmagic Hlong). eauto.
    - left. auto using parse_without_magic. }
  destruct Hcases as [[Hm Hp] | [(Hm & Hl & Hp) | (Hm & Hl & h & Hp)]];
    rewrite Hp, Hm; (split; [|split]); split; intros H;
    first [ discriminate H
          | reflexivity
          | destruct H; first [discriminate | lia]
          | split; first [reflexivity | assumption]
          | exists h; reflexivity ].
Qed.

Lemma chosen_offset_bounds (data : bytes) :
  chosen_offset data = 176 \/ (48 <= len data /\ 0 < chosen_offset data < len data).
Proof.
  unfold chosen_offset. cbv zeta.
  destruct (Z.leb_spec 48 (len data)) as [Hlong | Hshort]; [|now left].
  destruct ((0 <? le_int (slice 40 48 data)) &&
            (le_int (slice 40 48 data) <? len data)) eqn:Hboth; [|now left].
  apply andb_true_iff in Hboth as [H0 H1].
  apply Z.ltb_lt in H0. apply Z.ltb_lt in H1. right. lia.
Qed.

(** X2. A header returned by [parse_ms_lut_header] records the length of the
    buffer as [file_size]; its [data_offset] is the default 0xB0, or else
    lies strictly between 0 and the length of a buffer of at least 48 bytes;
    its [channels] is 3 or 4 and its [lut_size] one of the seven candidate
    sizes. *)
Theorem parsed_header_invariants (data : bytes) (h : header)
  (Hparse : parse_ms_lut_header data = Ok (Some h)) :
  file_size h = len data /\
  (data_offset h = 0xB0 \/ (48 <= len data /\ 0 < data_offset h < len data)) /\
  (channels h = 3 \/ channels h = 4) /\
  In (lut_size h) [32; 33; 17; 16; 21; 25; 20].
Proof.
  apply parse_some_inv in Hparse as (_ & _ & ->).
  pose proof (layout_channels (le_int (slice 8 12 data)) (len data)
                (chosen_offset data)) as Hch.
  cbv zeta in Hch. unfold layout in *.
  destruct (exact_match _ _) as [[size ch]|] eqn:Hexact.
  - cbn [file_size data_offset channels lut_size] in *.
    apply exact_match_some in Hexact as (Hin & _ & _).
    repeat split; auto using chosen_offset_bounds.
  - destruct (tolerance_match _ _) as [[size ch]|] eqn:Htol;
      cbn [file_size data_offset channels lut_size] in *.
    + apply tolerance_match_some in Htol.
      repeat split; auto using chosen_offset_bounds.
      cbn [In] in *. intuition.
    + repeat split; auto using chosen_offset_bounds.
      pose proof (fallback_size_values (len data)) as Hfb.
      cbn [In] in *. intuition.
Qed.

Lemma parsed_header_invariants_witness :
  file_size
    {| version := 0; lut_size := 20; file_size := 24178; data_offset := 176;
       channels := 3 |} = len near_20_cube /\
  (176 = 0xB0 \/ (48 <= len near_20_cube /\ 0 < 176 < len near_20_cube)) /\
  (3 = 3 \/ 3 = 4) /\
  In 20 [32; 33; 17; 16; 21; 25; 20].
Proof.
  apply (parsed_header_invariants near_20_cube
           {| version := 0; lut_size := 20; file_size := 24178; data_offset := 176;
              channels := 3 |}).
  vm_compute. reflexivity.
Defined.

Lemma tolerance_match_within (remaining : Z) (sizes : list Z) (size ch : Z) :
  tolerance_match remaining sizes = Some (size, ch) ->
  Z.abs (remaining - size ^ 3 * ch) <= 4.
Proof.
  induction sizes as [|s rest IH]; cbn [tolerance_match tolerance_channels];
    [discriminate|].
  destruct (Z.abs (remaining - s ^ 3 * 3) <=? 4) eqn:E3;
    [intros [= <- <-]; now apply Z.leb_le|].
  destruct (Z.abs (remaining - s ^ 3 * 4) <=? 4) eqn:E4;
    [intros [= <- <-]; now apply Z.leb_le|].
  exact IH.
Qed.

(** X3. The tiers of [parse_ms_lut_header] are tried in order. When the
    remainder after the data offset is exactly [size^3 * 3] or [size^3 * 4]
    for a candidate size, the header accounts for every byte of it:
    [lut_size^3 * channels] is the remainder. Otherwise, when a size among
    20, 17, 21, 25 is within 4 bytes of the remainder, so is the header. *)
Theorem tier_priority (data : bytes) (h : header)
  (Hparse : parse_ms_lut_header data = Ok (Some h)) :
  let remaining := file_size h - data_offset h in
  ((exists size ch, In size [32; 33; 17; 16; 21; 25; 20] /\ (ch = 3 \/ ch = 4) /\
                    remaining = size ^ 3 * ch) ->
   lut_size h ^ 3 * channels h = remaining) /\
  ((exists size ch, In size [20; 17; 21; 25] /\ (ch = 3 \/ ch = 4) /\
                    Z.abs (remaining - size ^ 3 * ch) <= 4) ->
   Z.abs (remaining - lut_size h ^ 3 * channels h) <= 4).
Proof.
  apply parse_some_inv in Hparse as (_ & _ & ->). unfold layout.
  set (remaining := len data - chosen_offset data).
  destruct (exact_match remaining [32; 33; 17; 16; 21; 25; 20]) as [[sz c]|] eqn:Hexact.
  - cbn [file_size data_offset channels lut_size]. fold remaining. cbv zeta.
    apply exact_match_some in Hexact as (_ & Hrem & _).
    split; intros _; rewrite <- Hrem; [reflexivity|].
    rewrite Z.sub_diag. cbn. lia.
  - assert (Hnone := Hexact). rewrite exact_match_none in Hnone.
    destruct (tolerance_match remaining [20; 17; 21; 25]) as [[sz c]|] eqn:Htol;
      cbn [file_size data_offset channels lut_size]; fold remaining; cbv zeta.
    + split.
      * intros (size & ch & Hin & Hch & Hrem). exfalso.
        destruct (Hnone size Hin) as [H3 H4]. destruct Hch as [-> | ->]; contradiction.
      * intros _. apply (tolerance_match_within remaining [20; 17; 21; 25]), Htol.
    + split.
      * intros (size & ch & Hin & Hch & Hrem). exfalso.
        destruct (Hnone size Hin) as [H3 H4]. destruct Hch as [-> | ->]; contradiction.
      * intros (size & ch & Hin & Hch & Hrem). exfalso.
        rewrite tolerance_match_none in Htol.
        assert (Hpair : In (size, ch) (tolerance_pairs [20; 17; 21; 25])).
        { cbn [tolerance_pairs flat_map app In] in *.
          destruct Hch as [-> | ->]; intuition (subst; auto 10). }
        specialize (Htol size ch Hpair). lia.
Qed.

Lemma tier_priority_witness :
  let h := {| version := 0; lut_size := 20; file_size := 24178; data_offset := 176;
              channels := 3 |} in
  let remaining := file_size h - data_offset h in
  ((exists size ch, In size [32; 33; 17; 16; 21; 25; 20] /\ (ch = 3 \/ ch = 4) /\
                    remaining = size ^ 3 * ch) ->
   lut_size h ^ 3 * channels h = remaining) /\
  ((exists size ch, In size [20; 17; 21; 25] /\ (ch = 3 \/ ch = 4) /\
                    Z.abs (remaining - size ^ 3 * ch) <= 4) ->
   Z.abs (remaining - lut_size h ^ 3 * channels h) <= 4).
Proof.
  apply (tier_priority near_20_cube
           {| version := 0; lut_size := 20; file_size := 24178; data_offset := 176;
              channels := 3 |}).
  vm_compute. reflexivity.
Defined.

(** *** [extract_byte_lut], [extract_lut_data], [extract_byte_lut_auto] *)

Lemma full_entries_spec (data : bytes) (channels : Z) (a : nat) :
  0 < channels ->
  (Z.of_nat a * channels + 3 <= len data <-> Z.of_nat a < full_entries data channels).
Proof.
  intros Hch. unfold full_entries.
  pose proof (Z.div_mod (len data - 3) channels ltac:(lia)) as Hdiv.
  pose proof (Z.mod_pos_bound (len data - 3) channels Hch) as Hmod.
  split; intros H; nia.
Qed.

Lemma byte_entries_run (data : bytes) (channels : Z) (Hch : 0 < channels) :
  forall (k a : nat) (entries : list triple),
    byte_entries data channels (map Z.of_nat (seq a k)) entries =
    Ok (entries ++
        map (entry_at data channels)
            (map Z.of_nat
                 (seq a (Nat.min k (Z.to_nat (full_entries data channels) - a))))).
Proof.
  induction k as [|k IH]; intros a entries.
  - cbn. now rewrite app_nil_r.
  - cbn [seq map byte_entries].
    pose proof (full_entries_spec data channels a Hch) as Hspec.
    destruct (Z.ltb_spec (len data) (Z.of_nat a * channels + 3)) as [Hcut | Hfull].
    + replace (Z.to_nat (full_entries data channels) - a)%nat with 0%nat by lia.
      rewrite Nat.min_0_r. cbn. now rewrite app_nil_r.
    + assert (Ha : Z.of_nat a < full_entries data channels) by (apply Hspec; lia).
      assert (0 <= Z.of_nat a * channels) by nia.
      rewrite !(getitem_in_range data _ x00) by lia. cbn [bind].
      rewrite IH, <- app_assoc. do 2 f_equal.
      replace (Nat.min (S k) (Z.to_nat (full_entries data channels) - a))
        with (S (Nat.min k (Z.to_nat (full_entries data channels) - S a))) by lia.
      reflexivity.
Qed.

(** X4. For a positive stride, [extract_byte_lut] never raises: it returns
    the entries of the indices [0 <= i < n], where [n] is the smaller of
    [lut_size^3] and the number of indices whose three bytes lie inside the
    data, [(len(data) - 3) // channels + 1] (or 0); the entry of [i] is made
    of the bytes at [i * channels], [+1] and [+2], each divided by 255. *)
Theorem extract_byte_lut_prefix (data : bytes) (lut_size channels : Z)
  (Hch : 0 < channels) :
  extract_byte_lut data lut_size channels =
  Ok (map (fun i =>
             (inject_Z (byte_val (nth (Z.to_nat (i * channels)) data x00)) / 255,
              inject_Z (byte_val (nth (Z.to_nat (i * channels + 1)) data x00)) / 255,
              inject_Z (byte_val (nth (Z.to_nat (i * channels + 2)) data x00)) / 255)%Q)
          (range (Z.min (lut_size ^ 3)
                        (Z.max 0 ((len data - 3) / channels + 1))))).
Proof.
  unfold extract_byte_lut, range. rewrite (byte_entries_run data channels Hch).
  cbn [app]. rewrite Nat.sub_0_r. unfold full_entries.
  rewrite Z2Nat.inj_min. reflexivity.
Qed.

Lemma extract_byte_lut_prefix_witness :
  extract_byte_lut ascending_24 2 3 =
  Ok (map (fun i =>
             (inject_Z (byte_val (nth (Z.to_nat (i * 3)) ascending_24 x00)) / 255,
              inject_Z (byte_val (nth (Z.to_nat (i * 3 + 1)) ascending_24 x00)) / 255,
              inject_Z (byte_val (nth (Z.to_nat (i * 3 + 2)) ascending_24 x00)) / 255)%Q)
          (range (Z.min (2 ^ 3) (Z.max 0 ((len ascending_24 - 3) / 3 + 1))))).
Proof. apply (extract_byte_lut_prefix ascending_24 2 3). lia. Defined.

Lemma len_slice_from (off : Z) (data : bytes) :
  0 <= off -> len (slice_from off data) = Z.max 0 (len data - off).
Proof.
  intros Hoff. unfold slice_from, len.
  destruct (Z.leb_spec 0 off); [|lia]. rewrite length_skipn. lia.
Qed.

Lemma extract_lut_data_run (data : bytes) (h : header) :
  0 < channels h ->
  extract_lut_data data h =
  Ok (map (entry_at (slice_from (data_offset h) data) (channels h))
          (range (Z.min (lut_size h ^ 3)
                        (full_entries (slice_from (data_offset h) data) (channels h))))).
Proof.
  intros Hch. unfold extract_lut_data, range.
  rewrite (byte_entries_run _ _ Hch). cbn [app]. rewrite Nat.sub_0_r.
  rewrite Z2Nat.inj_min. reflexivity.
Qed.

Lemma header_facts (data : bytes) (h : header) :
  parse_ms_lut_header data = Ok (Some h) ->
  file_size h = len data /\ 0 < data_offset h /\
  (channels h = 3 \/ channels h = 4) /\ 16 <= lut_size h /\ 0 <= len data.
Proof.
  intros Hparse. apply parse_some_inv in Hparse as (_ & _ & ->).
  pose proof (layout_channels (le_int (slice 8 12 data)) (len data)
                (chosen_offset data)) as Hch.
  pose proof (layout_size_at_least_16 (le_int (slice 8 12 data)) (len data)
                (chosen_offset data)) as Hsz.
  pose proof (chosen_offset_bounds data) as Hoff.
  cbv zeta in Hch. split; [|split; [|split; [|split]]]; try assumption.
  - unfold layout. destruct (exact_match _ _) as [[? ?]|]; [reflexivity|].
    destruct (tolerance_match _ _) as [[? ?]|]; reflexivity.
  - assert (Heq : data_offset (layout (le_int (slice 8 12 data)) (len data)
                                 (chosen_offset data)) = chosen_offset data).
    { unfold layout. destruct (exact_match _ _) as [[? ?]|]; [reflexivity|].
      destruct (tolerance_match _ _) as [[? ?]|]; reflexivity. }
    rewrite Heq. lia.
  - apply len_nonneg.
Qed.

(** X5. When the header of a file accounts for every byte after its data
    offset ([lut_size^3 * channels] is the remainder, as in the exact tier),
    [extract_lut_data] returns exactly [lut_size^3] entries: nothing is left
    to pad. *)
Theorem exact_layout_reads_all (data : bytes) (h : header)
  (Hparse : parse_ms_lut_header data = Ok (Some h))
  (Hexact : lut_size h ^ 3 * channels h = file_size h - data_offset h) :
  exists entries,
    extract_lut_data data h = Ok entries /\
    len entries = lut_size h ^ 3 /\
    repair entries (lut_size h) = Ok entries.
Proof.
  destruct (header_facts data h Hparse)
    as (Hsize & Hoff & Hch & Hlut & Hpos).
  eexists. split; [apply extract_lut_data_run; lia|].
  assert (Hcount : Z.min (lut_size h ^ 3)
                     (full_entries (slice_from (data_offset h) data) (channels h)) =
                   lut_size h ^ 3).
  { unfold full_entries. rewrite len_slice_from by lia.
    assert (Hcube : 16 ^ 3 <= lut_size h ^ 3) by (apply Z.pow_le_mono_l; lia).
    assert (Hdiv : lut_size h ^ 3 - 1 <=
                   (Z.max 0 (len data - data_offset h) - 3) / channels h).
    { apply Z.div_le_lower_bound; [lia|]. nia. }
    lia. }
  rewrite Hcount.
  assert (Hlen : len (map (entry_at (slice_from (data_offset h) data) (channels h))
                          (range (lut_size h ^ 3))) = lut_size h ^ 3).
  { unfold len. rewrite length_map, length_range.
    assert (0 <= lut_size h ^ 3) by (apply Z.pow_nonneg; lia). lia. }
  split; [exact Hlen|]. unfold repair. rewrite Hlen, Z.ltb_irrefl. reflexivity.
Qed.

Lemma exact_layout_reads_all_witness :
  let h := {| version := 0; lut_size := 16; file_size := 12464; data_offset := 176;
              channels := 3 |} in
  exists entries,
    extract_lut_data exact_16_cube h = Ok entries /\
    len entries = lut_size h ^ 3 /\
    repair entries (lut_size h) = Ok entries.
Proof.
  apply (exact_layout_reads_all exact_16_cube
           {| version := 0; lut_size := 16; file_size := 12464; data_offset := 176;
              channels := 3 |}).
  - vm_compute. reflexivity.
  - reflexivity.
Defined.

Lemma sample_loop_returns (data : bytes) (offset : Z) (Hoff : 0 <= offset) :
  forall (indices : list Z) (valid : bool) (samples : list (Z * Z * Z)),
    (forall i, In i indices -> 0 <= i) ->
    exists v out,
      sample_loop data offset indices valid samples = Ok (v, out) /\
      len out <= len samples + len indices /\
      ((forall i, In i indices -> offset + i * 3 + 3 <= len data) ->
       v = valid /\ len out = len samples + len indices).
Proof.
  induction indices as [|i rest IH]; intros valid samples Hpos; cbn [sample_loop].
  - exists valid, samples. unfold len. cbn [List.length]. repeat split; lia.
  - assert (Hi : 0 <= i) by (apply Hpos; now left).
    destruct (Z.ltb_spec (len data) (offset + i * 3 + 3)) as [Hcut | Hfull].
    + exists false, samples. split; [reflexivity|]. unfold len. cbn [List.length].
      split; [lia|]. intros Hall. specialize (Hall i (or_introl eq_refl)).
      unfold len in *. lia.
    + rewrite !(getitem_in_range data _ x00) by lia. cbn [bind].
      destruct (IH valid
                  (samples ++
                   [(byte_val (nth (Z.to_nat (offset + i * 3)) data x00),
                     byte_val (nth (Z.to_nat (offset + i * 3 + 1)) data x00),
                     byte_val (nth (Z.to_nat (offset + i * 3 + 2)) data x00))]))
        as (v & out & Hrun & Hle & Hall).
      { intros j Hj. apply Hpos. now right. }
      exists v, out. split; [exact Hrun|]. rewrite len_app in *.
      unfold len in *. cbn [List.length] in *. split; [lia|].
      intros Hfit. destruct Hall as [Hv Hlen].
      { intros j Hj. apply Hfit. now right. }
      split; [exact Hv|lia].
Qed.

Lemma auto_offsets_fallback (data : bytes) (lut_size : Z) :
  lut_size ^ 3 < 10 ->
  forall offsets, (forall o, In o offsets -> 0 <= o) ->
    auto_offsets data lut_size offsets =
    extract_byte_lut (slice_from 0x30 data) lut_size 3.
Proof.
  intros Hsmall. induction offsets as [|o rest IH]; intros Hpos; cbn [auto_offsets].
  - reflexivity.
  - destruct (sample_loop_returns data o (Hpos o (or_introl eq_refl))
                (range (Z.min 10 (lut_size ^ 3))) true [])
      as (v & out & Hrun & Hle & _).
    { intros i Hi. apply range_nonneg in Hi. lia. }
    rewrite Hrun. cbn [bind].
    assert (Hfew : (10 <=? len out) = false).
    { apply Z.leb_gt. unfold len in *. rewrite length_range in Hle.
      cbn [List.length] in Hle. lia. }
    rewrite Hfew, andb_false_r. apply IH. intros o' Ho'. apply Hpos. now right.
Qed.

(** X6. [extract_byte_lut_auto] detects no offset: when the data are longer
    than [lut_size^3 * 3] bytes and the cube has at least 10 entries, the
    first offset tried, 0, is accepted and the entries are read from the
    start of the data; in every other case they are read from the fixed
    offset 0x30. *)
Theorem extract_byte_lut_auto_offset (data : bytes) (lut_size : Z) :
  extract_byte_lut_auto data lut_size =
  if (lut_size ^ 3 * 3 <? len data) && (10 <=? lut_size ^ 3)
  then extract_byte_lut data lut_size 3
  else extract_byte_lut (slice_from 0x30 data) lut_size 3.
Proof.
  unfold extract_byte_lut_auto. cbv zeta.
  destruct (Z.leb_spec 10 (lut_size ^ 3)) as [Hmany | Hfew].
  - destruct (Z.ltb_spec (lut_size ^ 3 * 3) (len data)) as [Hlong | Hshort];
      cbn [andb].
    + unfold range_step.
      assert (Hstop : 1 <= (Z.min 512 (len data - lut_size ^ 3 * 3) - 0 + 4 - 1) / 4).
      { apply Z.div_le_lower_bound; lia. }
      destruct (Z.to_nat ((Z.min 512 (len data - lut_size ^ 3 * 3) - 0 + 4 - 1) / 4))
        as [|n] eqn:Hn; [lia|].
      cbn [seq map auto_offsets]. change (0 + 4 * Z.of_nat 0) with 0.
      destruct (sample_loop_returns data 0 ltac:(lia)
                  (range (Z.min 10 (lut_size ^ 3))) true [])
        as (v & out & Hrun & _ & Hall).
      { intros i Hi. apply range_nonneg in Hi. lia. }
      destruct Hall as [-> Hlen].
      { intros i Hi. apply range_nonneg in Hi. lia. }
      rewrite Hrun. cbn [bind].
      assert (Hten : (10 <=? len out) = true).
      { apply Z.leb_le. rewrite Hlen. unfold len. rewrite length_range.
        cbn [List.length]. lia. }
      rewrite Hten. reflexivity.
    + unfold range_step.
      replace (Z.to_nat ((Z.min 512 (len data - lut_size ^ 3 * 3) - 0 + 4 - 1) / 4))
        with 0%nat; [reflexivity|].
      assert ((Z.min 512 (len data - lut_size ^ 3 * 3) - 0 + 4 - 1) / 4 <= 0); [|lia].
      assert ((Z.min 512 (len data - lut_size ^ 3 * 3) - 0 + 4 - 1) / 4 < 1); [|lia].
      apply Z.div_lt_upper_bound; lia.
  - rewrite andb_false_r. apply auto_offsets_fallback; [exact Hfew|].
    intros o Ho. unfold range_step in Ho. apply in_map_iff in Ho as (k & <- & _). lia.
Qed.

(** *** [convert_bin_to_cube] of convert_oppo_luts.py *)

Lemma byte_val_bounds (b : byte) : 0 <= byte_val b <= 255.
Proof. unfold byte_val. pose proof (Byte.to_N_bounded b). lia. Qed.

Lemma entry_at_in_unit (data : bytes) (channels i : Z) :
  in_unit (entry_at data channels i).
Proof.
  unfold in_unit, entry_at.
  repeat split;
    apply (unit_fraction (byte_val _) 255); try lia; apply byte_val_bounds.
Qed.

Lemma read_entries_in_unit (data : bytes) (size : Z) (entries : list triple) :
  read_entries data = Ok (size, entries) -> Forall in_unit entries.
Proof.
  unfold read_entries.
  destruct (parse_ms_lut_header data) as [[h|]|e] eqn:Hparse; cbn [bind];
    [| |discriminate].
  - destruct (header_facts data h Hparse) as (_ & _ & Hch & _).
    rewrite extract_lut_data_run by lia. cbn [bind]. intros H.
    apply Ok_inj in H. injection H as _ <-.
    apply Forall_forall. intros e He. apply in_map_iff in He as (i & <- & _).
    apply entry_at_in_unit.
  - unfold extract_byte_lut, range.
    rewrite byte_entries_run
      by (destruct (guess_raw_channels_values (len data)); lia).
    cbn [bind app]. intros H. apply Ok_inj in H. injection H as _ <-.
    apply Forall_forall. intros e He. apply in_map_iff in He as (i & <- & _).
    apply entry_at_in_unit.
Qed.

Lemma repair_in_unit (entries out : list triple) (size : Z) :
  2 <= size -> Forall in_unit entries -> repair entries size = Ok out ->
  Forall in_unit out.
Proof.
  intros Hsize Hunit Hrun.
  assert (Hpos : 0 <= size ^ 3) by (apply Z.pow_nonneg; lia).
  destruct (Z.lt_trichotomy (len entries) (size ^ 3)) as [Hlt | [Heq | Hgt]].
  - rewrite (repair_pads entries size Hsize Hlt) in Hrun. apply Ok_inj in Hrun.
    subst out. apply Forall_app. split; [exact Hunit|].
    apply Forall_forall. intros e He. apply in_map_iff in He as (k & <- & Hk).
    apply in_seq in Hk. pose proof (len_nonneg entries).
    pose proof (ramp_in_unit size (len entries + Z.of_nat k) Hsize ltac:(lia)) as Hr.
    unfold in_unit. destruct (ramp size (len entries + Z.of_nat k)) as [[r g] b].
    exact Hr.
  - unfold repair in Hrun. rewrite Heq, Z.ltb_irrefl in Hrun.
    apply Ok_inj in Hrun. now subst out.
  - unfold repair, slice_to in Hrun.
    destruct (Z.ltb_spec (size ^ 3) (len entries)); [|lia].
    destruct (Z.leb_spec 0 (size ^ 3)); [|lia].
    apply Ok_inj in Hrun. subst out.
    rewrite <- (firstn_skipn (Z.to_nat (size ^ 3)) entries) in Hunit.
    apply Forall_app in Hunit. tauto.
Qed.

(** X7. Completing the entries twice is completing them once: for a cube
    size of at least 2, the entries that [repair] returns are returned
    unchanged when they are handed to it again. *)
Theorem repair_idempotent (entries out : list triple) (size : Z)
  (Hsize : 2 <= size) (Hrun : repair entries size = Ok out) :
  repair out size = Ok out.
Proof.
  destruct (repair_returns entries size Hsize) as (out' & Hrun' & Hlen).
  rewrite Hrun in Hrun'. apply Ok_inj in Hrun'. subst out'.
  unfold repair. rewrite Hlen, Z.ltb_irrefl. reflexivity.
Qed.

Lemma repair_idempotent_witness :
  repair (repeat (0, 0, 0)%Q 8) 2 = Ok (repeat (0, 0, 0)%Q 8).
Proof.
  apply (repair_idempotent (repeat (0, 0, 0)%Q 9) (repeat (0, 0, 0)%Q 8) 2).
  - lia.
  - reflexivity.
Defined.

(** X8. [convert_bin_to_cube] either fails, and then returns
    [(False, None, None)] and writes nothing, or succeeds, and then returns
    the genre of the stem and the path [<output_dir>/<stem>.cube] and writes
    that file only: the bytes of the input when it is a .cube text already,
    and otherwise the text of [write_cube_file] for a cube size of at least
    16 and exactly [lut_size^3] entries, every component of which lies
    between 0 and 1. *)
Theorem convert_bin_to_cube_outcome (bin_path : file_path) (output_dir : Path)
  (data : bytes) :
  let c := convert_bin_to_cube bin_path output_dir data in
  let target := path_join output_dir (stem bin_path ++ ".cube")%string in
  c = failed \/
  (success c = true /\
   genre c = Some (categorize_lut (stem bin_path)) /\
   output_path c = Some target /\
   ((is_cube_text data = true /\ written c = Some (target, BinaryFile data)) \/
    (is_cube_text data = false /\
     exists lut_size entries,
       written c =
         Some (target, TextFile (write_cube_file entries lut_size (stem bin_path))) /\
       16 <= lut_size /\ len entries = lut_size ^ 3 /\ Forall in_unit entries))).
Proof.
  cbv zeta. unfold convert_bin_to_cube, convert_body.
  destruct (is_cube_text data) eqn:Htext.
  - right. cbn [success genre output_path written]. auto 10.
  - destruct (read_entries data) as [[lut_size entries]|e] eqn:Hread; cbn [bind];
      [|now left].
    destruct (too_few entries lut_size); [now left|].
    pose proof (read_entries_size data lut_size entries Hread) as Hsize.
    pose proof (read_entries_in_unit data lut_size entries Hread) as Hunit.
    destruct (repair_returns entries lut_size ltac:(lia)) as (out & Hrun & Hlen).
    rewrite Hrun. cbn [bind]. right. cbn [success genre output_path written].
    repeat split. right. split; [reflexivity|].
    exists lut_size, out. repeat split; try assumption.
    apply (repair_in_unit entries out lut_size); (lia || assumption).
Qed.

(** X9. The only exception that the body of [convert_bin_to_cube] can
    raise, and its handler then swallows, is the [struct.error] of a file
    that is not a .cube text, begins with the signature and has fewer than
    16 bytes. *)
Theorem convert_body_raises_iff (bin_path : file_path) (output_dir : Path)
  (data : bytes) (e : exn) :
  convert_body bin_path output_dir data = Raise e <->
  (e = StructError /\ is_cube_text data = false /\
   startswith MS_MAGIC data = true /\ len data < 16).
Proof.
  unfold convert_body. split.
  - destruct (is_cube_text data) eqn:Htext; [discriminate|].
    destruct (startswith MS_MAGIC data) eqn:Hmagic.
    + destruct (Z_lt_le_dec (len data) 16) as [Hshort | Hlong].
      * unfold read_entries. rewrite (parse_short_magic data Hmagic Hshort).
        cbn [bind]. intros [= <-]. auto.
      * destruct (read_entries_returns data (or_intror Hlong))
          as (size & entries & Hread).
        rewrite Hread. cbn [bind].
        destruct (too_few entries size); [discriminate|].
        pose proof (read_entries_size data size entries Hread) as Hsize.
        destruct (repair_returns entries size ltac:(lia)) as (out & Hrun & _).
        rewrite Hrun. discriminate.
    + destruct (read_entries_returns data (or_introl Hmagic))
        as (size & entries & Hread).
      rewrite Hread. cbn [bind].
      destruct (too_few entries size); [discriminate|].
      pose proof (read_entries_size data size entries Hread) as Hsize.
      destruct (repair_returns entries size ltac:(lia)) as (out & Hrun & _).
      rewrite Hrun. discriminate.
  - intros (-> & Htext & Hmagic & Hshort). rewrite Htext.
    unfold read_entries. rewrite (parse_short_magic data Hmagic Hshort).
    reflexivity.
Qed.

(** *** [write_cube_file]: the width of the data lines *)

Lemma length_append (a b : string) :
  String.length (a ++ b)%string = (String.length a + String.length b)%nat.
Proof. induction a as [|c a IH]; cbn; [reflexivity|now rewrite IH]. Qed.

Lemma concat_cons (x : string) (xs : list string) :
  String.length (String.concat EmptyString (x :: xs)) =
  (String.length x + String.length (String.concat EmptyString xs))%nat.
Proof.
  destruct xs as [|y ys]; cbn [String.concat].
  - cbn. lia.
  - now rewrite !length_append.
Qed.

Lemma round_half_even_le (q : Q) (k : Z) :
  (q <= inject_Z k)%Q -> Fmt.round_half_even q <= k.
Proof.
  intros Hq. unfold Qle in Hq. cbn in Hq. unfold Fmt.round_half_even.
  pose proof (Z.div_mod (Qnum q) (Z.pos (Qden q)) ltac:(lia)) as Hdiv.
  pose proof (Z.mod_pos_bound (Qnum q) (Z.pos (Qden q)) ltac:(lia)) as Hmod.
  destruct (Z.compare_spec (2 * (Qnum q mod Z.pos (Qden q))) (Z.pos (Qden q)));
    [destruct (Z.even _)| |]; nia.
Qed.

Lemma format_6f_unit_length (q : Q) :
  (0 <= q <= 1)%Q -> String.length (Fmt.format_6f q) = 8%nat.
Proof.
  intros [Hlo Hhi]. unfold Fmt.format_6f.
  destruct (Qlt_le_dec q 0) as [Hneg | _];
    [exfalso; apply (Qlt_not_le _ _ Hneg), Hlo|].
  cbn [String.append].
  set (m := Fmt.round_half_even (Qabs q * inject_Z 1000000)).
  assert (Hm : 0 <= m <= 1000000).
  { split.
    - apply FmtFacts.round_half_even_nonneg.
      apply Qmult_le_0_compat; [apply Qabs_nonneg|discriminate].
    - apply round_half_even_le.
      rewrite <- (Qmult_1_l (inject_Z 1000000)) at 2.
      apply Qmult_le_compat_r; [|discriminate].
      apply Qabs_Qle_condition. split; [|exact Hhi].
      apply Qle_trans with 0%Q; [discriminate|exact Hlo]. }
  assert (Hwhole : m / 1000000 = 0 \/ m / 1000000 = 1).
  { destruct (Z.eq_dec m 1000000) as [-> | Hne]; [now right|].
    left. apply Z.div_small. lia. }
  rewrite !length_append.
  destruct Hwhole as [-> | ->]; reflexivity.
Qed.

Lemma entry_line_width (e : triple) :
  in_unit e -> String.length (entry_line e) = 27%nat.
Proof.
  destruct e as [[r g] b]. intros (Hr & Hg & Hb). unfold entry_line.
  rewrite !length_append, !format_6f_unit_length by assumption. reflexivity.
Qed.

(** X10. Every data line that [write_cube_file] writes for an entry with
    components between 0 and 1 has exactly 27 characters (three numerals of
    8 characters, two spaces and the line end), so the length of the file is
    69 characters of header, the title, the decimal size and 27 characters
    per entry. *)
Theorem written_length (entries : list triple) (lut_size : Z) (title : string)
  (Hunit : Forall in_unit entries) :
  String.length (write_cube_file entries lut_size title) =
  (69 + String.length title + String.length (str_int lut_size) +
   27 * List.length entries)%nat.
Proof.
  unfold write_cube_file. rewrite !length_append.
  assert (Hlines : String.length (String.concat EmptyString (map entry_line entries)) =
                   (27 * List.length entries)%nat).
  { induction Hunit as [|e rest He _ IH]; [reflexivity|].
    cbn [map]. rewrite concat_cons, IH, (entry_line_width e He).
    cbn [List.length]. lia. }
  rewrite Hlines. cbn [String.length dquote newline]. lia.
Qed.

Lemma written_length_witness :
  String.length (write_cube_file black_8 2 "lut") =
  (69 + String.length "lut" + String.length (str_int 2) + 27 * List.length black_8)%nat.
Proof.
  apply (written_length black_8 2 "lut").
  repeat constructor; discriminate.
Defined.

(** *** [process_directory] *)

Lemma key_eqb_eq (a b : option string) : key_eqb a b = true <-> a = b.
Proof.
  destruct a as [x|], b as [y|]; cbn [key_eqb]; split; intros H;
    try discriminate; try reflexivity.
  - apply String.eqb_eq in H. now subst.
  - injection H as ->. apply String.eqb_refl.
Qed.

Lemma total_dict_append (key : option string) (item : file_path * option Path)
  (d : genre_table) :
  total_converted (dict_append key item d) = total_converted d + 1.
Proof.
  induction d as [|[k items] rest IH]; cbn [dict_append].
  - reflexivity.
  - destruct (key_eqb k key); cbn [total_converted fold_right snd] in *.
    + rewrite len_app. change (len [item]) with 1. lia.
    + fold (total_converted (dict_append key item rest)).
      fold (total_converted rest). lia.
Qed.

Lemma keys_dict_append (key : option string) (item : file_path * option Path)
  (d : genre_table) (k : option string) :
  In k (map fst (dict_append key item d)) -> k = key \/ In k (map fst d).
Proof.
  induction d as [|[k0 items] rest IH]; cbn [dict_append map fst In].
  - intros [<- | []]. now left.
  - destruct (key_eqb k0 key); cbn [map fst In]; intros [<- | Hin]; auto.
    destruct (IH Hin); auto.
Qed.

Lemma nodup_dict_append (key : option string) (item : file_path * option Path)
  (d : genre_table) :
  NoDup (map fst d) -> NoDup (map fst (dict_append key item d)).
Proof.
  induction d as [|[k0 items] rest IH]; cbn [dict_append map fst]; intros Hnd.
  - constructor; [intros []|constructor].
  - inversion Hnd as [|? ? Hnotin Hrest]; subst.
    destruct (key_eqb k0 key) eqn:Hk; cbn [map fst].
    + constructor; assumption.
    + constructor; [|apply IH, Hrest].
      intros Hin. apply keys_dict_append in Hin as [-> | Hin]; [|contradiction].
      assert (key_eqb key key = true) by now apply key_eqb_eq.
      congruence.
Qed.

Lemma in_dict_append (key : option string) (item : file_path * option Path)
  (d : genre_table) (k : option string) (items : list (file_path * option Path))
  (x : file_path * option Path) :
  In (k, items) (dict_append key item d) -> In x items ->
  (exists items0, In (k, items0) d /\ In x items0) \/ (k = key /\ x = item).
Proof.
  induction d as [|[k0 items0] rest IH]; cbn [dict_append In].
  - intros [[= <- <-] | []] [<- | []]. now right.
  - destruct (key_eqb k0 key) eqn:Hk; cbn [In].
    + intros [[= <- <-] | Hin] Hx.
      * apply in_app_or in Hx as [Hx | [<- | []]].
        -- left. exists items0. auto.
        -- right. apply key_eqb_eq in Hk. auto.
      * left. exists items. auto.
    + intros [[= <- <-] | Hin] Hx.
      * left. exists items0. auto.
      * destruct (IH Hin Hx) as [(items1 & Hin1 & Hx1) | Hnew]; [|now right].
        left. exists items1. auto.
Qed.

Lemma convert_all_accounts (output_base : Path) :
  forall (files : list dir_entry) (results : genre_table) (failed : list file_path),
    let conv e := convert_bin_to_cube (entry_path e) output_base (content e) in
    let out := convert_all files output_base results failed in
    total_converted (fst out) + len (snd out) =
      total_converted results + len failed + len files /\
    (NoDup (map fst results) -> NoDup (map fst (fst out))) /\
    (forall k items x, In (k, items) (fst out) -> In x items ->
       (exists items0, In (k, items0) results /\ In x items0) \/
       (exists e, In e files /\ x = (entry_path e, output_path (conv e)) /\
                  k = genre (conv e) /\ success (conv e) = true)) /\
    (forall p, In p (snd out) ->
       In p failed \/
       (exists e, In e files /\ p = entry_path e /\ success (conv e) = false)).
Proof.
  cbv zeta. induction files as [|f rest IH]; intros results failed;
    cbn [convert_all].
  - cbn [fst snd]. change (len (@nil dir_entry)) with 0.
    split; [lia|]. split; [auto|]. split.
    + intros k items x Hin Hx. left. exists items. auto.
    + intros p Hp. now left.
  - destruct (success (convert_bin_to_cube (entry_path f) output_base (content f)))
      eqn:Hok.
    + destruct (IH (dict_append
                      (genre (convert_bin_to_cube (entry_path f) output_base (content f)))
                      (entry_path f,
                       output_path
                         (convert_bin_to_cube (entry_path f) output_base (content f)))
                      results) failed) as (Hcount & Hkeys & Hitems & Hfailed).
      rewrite total_dict_append in Hcount.
      split; [|split; [|split]].
      * unfold len in *. cbn [List.length]. lia.
      * intros Hnd. apply Hkeys, nodup_dict_append, Hnd.
      * intros k items x Hin Hx.
        destruct (Hitems k items x Hin Hx) as [(items0 & Hin0 & Hx0) | (e & He & Hrest)].
        -- destruct (in_dict_append _ _ _ _ _ _ Hin0 Hx0)
             as [Hold | [-> ->]]; [now left|].
           right. exists f. cbn [In]. auto.
        -- right. exists e. cbn [In]. tauto.
      * intros p Hp. destruct (Hfailed p Hp) as [Hold | (e & He & Hrest)];
          [now left|]. right. exists e. cbn [In]. tauto.
    + destruct (IH results (failed ++ [entry_path f]))
        as (Hcount & Hkeys & Hitems & Hfailed).
      rewrite len_app in Hcount. change (len [entry_path f]) with 1 in Hcount.
      split; [|split; [|split]].
      * unfold len in *. cbn [List.length]. lia.
      * exact Hkeys.
      * intros k items x Hin Hx.
        destruct (Hitems k items x Hin Hx) as [Hold | (e & He & Hrest)];
          [now left|]. right. exists e. cbn [In]. tauto.
      * intros p Hp. destruct (Hfailed p Hp) as [Hold | (e & He & Hrest)].
        -- apply in_app_or in Hold as [Hold | [<- | []]]; [now left|].
           right. exists f. cbn [In]. auto.
        -- right. exists e. cbn [In]. tauto.
Qed.

Lemma convert_success_genre (bin_path : file_path) (output_dir : Path) (data : bytes) :
  success (convert_bin_to_cube bin_path output_dir data) = true ->
  genre (convert_bin_to_cube bin_path output_dir data) =
  Some (categorize_lut (stem bin_path)).
Proof.
  unfold convert_bin_to_cube, convert_body.
  destruct (is_cube_text data); [reflexivity|].
  destruct (read_entries data) as [[size entries]|e]; cbn [bind]; [|discriminate].
  destruct (too_few entries size); [discriminate|].
  destruct (repair entries size); cbn [bind]; [reflexivity|discriminate].
Qed.



(** *** [organize_by_genre]: the folder of a genre *)

Lemma chars_append (a b : string) :
  list_ascii_of_string (a ++ b)%string =
  list_ascii_of_string a ++ list_ascii_of_string b.
Proof. induction a as [|c a IH]; cbn; [reflexivity|now rewrite IH]. Qed.

Lemma in_replace_char (old : ascii) (new s : string) (c : ascii) :
  In c (list_ascii_of_string (replace_char old new s)) ->
  In c (list_ascii_of_string new) \/ (In c (list_ascii_of_string s) /\ c <> old).
Proof.
  induction s as [|d s IH]; cbn [replace_char list_ascii_of_string In].
  - intros [].
  - destruct (Ascii.eqb_spec d old) as [-> | Hne].
    + rewrite chars_append. intros Hin. apply in_app_or in Hin as [Hin | Hin].
      * now left.
      * destruct (IH Hin) as [Hnew | [Hs Hc]]; [now left|]. right. auto.
    + cbn [list_ascii_of_string In]. intros [<- | Hin].
      * right. auto.
      * destruct (IH Hin) as [Hnew | [Hs Hc]]; [now left|]. right. auto.
Qed.

Lemma replace_char_absent (old : ascii) (new s : string) :
  ~ In old (list_ascii_of_string s) -> replace_char old new s = s.
Proof.
  induction s as [|d s IH]; cbn [replace_char list_ascii_of_string In];
    [reflexivity|].
  intros Hnot. destruct (Ascii.eqb_spec d old) as [-> | Hne].
  - exfalso. apply Hnot. now left.
  - rewrite IH; [reflexivity|]. intros Hin. apply Hnot. now right.
Qed.

(** X12. The folder name that [organize_by_genre] derives from a genre holds
    no slash and no parenthesis, so it names one folder directly under the
    organized directory; a genre without these characters is its own folder
    name. *)
Theorem genre_dir_name_component (genre : string) :
  (forall c, In c (list_ascii_of_string (genre_dir_name genre)) ->
     c <> "/"%char /\ c <> "("%char /\ c <> ")"%char) /\
  (~ In "/"%char (list_ascii_of_string genre) ->
   ~ In "("%char (list_ascii_of_string genre) ->
   ~ In ")"%char (list_ascii_of_string genre) ->
   genre_dir_name genre = genre).
Proof.
  unfold genre_dir_name. split.
  - intros c Hc.
    apply in_replace_char in Hc as [[] | [Hc Hclose]].
    apply in_replace_char in Hc as [[] | [Hc Hopen]].
    apply in_replace_char in Hc as [Hdash | [Hc Hslash]].
    + cbn in Hdash. destruct Hdash as [<- | []]. repeat split; discriminate.
    + auto.
  - intros Hslash Hopen Hclose.
    rewrite (replace_char_absent "/" "-" genre Hslash).
    rewrite (replace_char_absent "(" EmptyString genre Hopen).
    apply replace_char_absent, Hclose.
Qed.

(** *** [categorize_lut] *)

Lemma lower_char_idempotent (c : ascii) : lower_char (lower_char c) = lower_char c.
Proof. destruct c as [[] [] [] [] [] [] [] []]; reflexivity. Qed.

Lemma lower_idempotent (s : string) : lower (lower s) = lower s.
Proof.
  induction s as [|c s IH]; cbn [lower]; [reflexivity|].
  now rewrite lower_char_idempotent, IH.
Qed.

Lemma first_genre_first (basename : string) :
  forall (table pre post : list (string * list pattern)) (g : string)
         (pats : list pattern),
    table = pre ++ (g, pats) :: post ->
    (exists p, In p pats /\ re_search p basename = true) ->
    (forall g' pats' p', In (g', pats') pre -> In p' pats' ->
                         re_search p' basename = false) ->
    first_genre table basename = Some g.
Proof.
  intros table pre. revert table.
  induction pre as [|[g0 pats0] pre IH]; intros table post g pats -> Hhit Hmiss;
    cbn [app first_genre].
  - assert (Hex : existsb (fun p => re_search p basename) pats = true).
    { apply existsb_exists. exact Hhit. }
    now rewrite Hex.
  - assert (Hex : existsb (fun p => re_search p basename) pats0 = false).
    { apply not_true_is_false. intros Htrue.
      apply existsb_exists in Htrue as (p & Hp & Hs).
      rewrite (Hmiss g0 pats0 p (or_introl eq_refl) Hp) in Hs. discriminate Hs. }
    rewrite Hex. apply (IH _ post g pats eq_refl Hhit).
    intros g' pats' p' Hin Hp'. apply (Hmiss g' pats' p'); [now right|exact Hp'].
Qed.

Lemma first_genre_none (basename : string) (table : list (string * list pattern)) :
  (forall g pats p, In (g, pats) table -> In p pats ->
                    re_search p basename = false) ->
  first_genre table basename = None.
Proof.
  induction table as [|[g pats] rest IH]; intros Hmiss; cbn [first_genre];
    [reflexivity|].
  assert (Hex : existsb (fun p => re_search p basename) pats = false).
  { apply not_true_is_false. intros Htrue.
    apply existsb_exists in Htrue as (p & Hp & Hs).
    rewrite (Hmiss g pats p (or_introl eq_refl) Hp) in Hs. discriminate Hs. }
  rewrite Hex. apply IH. intros g' pats' p' Hin Hp'.
  apply (Hmiss g' pats' p'); [now right|exact Hp'].
Qed.

(** X13. [categorize_lut] gives the first genre of [GENRE_PATTERNS], in the
    order of the table, one of whose patterns is found in the lowered name,
    and "Uncategorized" when no pattern of the table is found. *)
Theorem categorize_first_match (filename : string) :
  (forall pre post g pats,
     GENRE_PATTERNS = pre ++ (g, pats) :: post ->
     (exists p, In p pats /\ re_search p (lower filename) = true) ->
     (forall g' pats' p', In (g', pats') pre -> In p' pats' ->
                          re_search p' (lower filename) = false) ->
     categorize_lut filename = g) /\
  ((forall g pats p, In (g, pats) GENRE_PATTERNS -> In p pats ->
                     re_search p (lower filename) = false) ->
   categorize_lut filename = "Uncategorized").
Proof.
  unfold categorize_lut. split.
  - intros pre post g pats Htable Hhit Hmiss.
    now rewrite (first_genre_first (lower filename) GENRE_PATTERNS pre post g pats
                   Htable Hhit Hmiss).
  - intros Hmiss. now rewrite (first_genre_none (lower filename) GENRE_PATTERNS Hmiss).
Qed.

(** X14. [categorize_lut] does not look at the case of ASCII letters: a name
    and its lowered form get the same genre. *)
Theorem categorize_ignores_case (filename : string) :
  categorize_lut (lower filename) = categorize_lut filename.
Proof.
  unfold categorize_lut. cbv zeta. rewrite lower_idempotent. reflexivity.
Qed.

(** *** [read_ms_lut] and [convert_file] of convert_bin_to_cube.py *)

Lemma read_ms_lut_guard (data : bytes) :
  len data < 48 \/ startswith ConvertBinToCube.MS_MAGIC data = false ->
  ConvertBinToCube.read_ms_lut data = Raise (ValueError "missing .MS-LUT header").
Proof.
  intros Hbad. unfold ConvertBinToCube.read_ms_lut.
  destruct Hbad as [Hshort | Hmagic].
  - apply Z.ltb_lt in Hshort. now rewrite Hshort.
  - rewrite Hmagic. cbn [negb]. now rewrite orb_true_r.
Qed.

Lemma read_ms_lut_raises_value_error (data : bytes) (e : exn) :
  ConvertBinToCube.read_ms_lut data = Raise e -> exists msg, e = ValueError msg.
Proof.
  destruct (Z_lt_le_dec (len data) 48) as [Hshort | Hlong].
  - rewrite read_ms_lut_guard by now left. intros [= <-]. eauto.
  - destruct (startswith ConvertBinToCube.MS_MAGIC data) eqn:Hmagic.
    + rewrite (IterFacts.read_ms_lut_fields data Hlong Hmagic). cbv zeta.
      destruct (_ <? _); [intros [= <-]; eauto|].
      destruct (_ <? _); [intros [= <-]; eauto|discriminate].
    + rewrite read_ms_lut_guard by now right. intros [= <-]. eauto.
Qed.

Lemma nth_error_slice {A : Type} (a b k : nat) (l : list A) :
  (k < b - a)%nat -> nth_error (slice a b l) k = nth_error l (a + k).
Proof.
  intros Hk. unfold slice. rewrite nth_error_firstn.
  destruct (Nat.ltb_spec k (b - a)); [|lia]. apply nth_error_skipn.
Qed.

(** X15. When [read_ms_lut] returns, the file has the signature and at
    least 48 bytes; the size is the fourth 32-bit word of the header and the
    order is "bgr" for a zero seventh word and "rgb" otherwise; the axis
    table and the payload both end inside the file; and the payload is the
    [3 * size^3] bytes of the file from the data offset on. *)
Theorem read_ms_lut_payload (data : bytes) (size : Z) (order : string)
  (payload : bytes)
  (Hread : ConvertBinToCube.read_ms_lut data = Ok (size, order, payload)) :
  48 <= len data /\
  startswith ConvertBinToCube.MS_MAGIC data = true /\
  size = ConvertBinToCube.header_field data 3 /\
  order = (if ConvertBinToCube.header_field data 6 =? 0 then "bgr" else "rgb") /\
  ConvertBinToCube.header_field data 8 + size * 4 <= len data /\
  ConvertBinToCube.header_field data 10 + 3 * size ^ 3 <= len data /\
  len payload = 3 * size ^ 3 /\
  forall k, 0 <= k < 3 * size ^ 3 ->
    nth_error payload (Z.to_nat k) =
    nth_error data (Z.to_nat (ConvertBinToCube.header_field data 10 + k)).
Proof.
  destruct (Z_lt_le_dec (len data) 48) as [Hshort | Hlong];
    [rewrite read_ms_lut_guard in Hread by (now left); discriminate Hread|].
  destruct (startswith ConvertBinToCube.MS_MAGIC data) eqn:Hmagic;
    [|rewrite read_ms_lut_guard in Hread by (now right); discriminate Hread].
  pose proof (IterFacts.read_ms_lut_returns data size order payload Hread)
    as (Hsize & _ & Hlen).
  rewrite (IterFacts.read_ms_lut_fields data Hlong Hmagic) in Hread.
  cbv zeta in Hread.
  destruct (Z.ltb_spec (len data)
              (ConvertBinToCube.header_field data 8 +
               ConvertBinToCube.header_field data 3 * 4)) as [|Haxis];
    [discriminate Hread|].
  destruct (Z.ltb_spec (len data)
              (ConvertBinToCube.header_field data 10 +
               ConvertBinToCube.header_field data 3 *
               ConvertBinToCube.header_field data 3 *
               ConvertBinToCube.header_field data 3 * 3)) as [|Hpay];
    [discriminate Hread|].
  apply Ok_inj in Hread. injection Hread as Hs Ho Hp.
  assert (Hoff : 0 <= ConvertBinToCube.header_field data 10)
    by apply IterFacts.le_int_nonneg.
  subst size order. set (sz := ConvertBinToCube.header_field data 3) in *.
  assert (Hcube : sz ^ 3 = sz * sz * sz) by ring.
  assert (0 <= sz * sz * sz) by nia.
  split; [exact Hlong|]. split; [reflexivity|]. split; [reflexivity|].
  split; [now destruct (_ =? 0)|].
  split; [lia|]. split; [lia|]. split; [exact Hlen|].
  intros k Hk. subst payload. rewrite nth_error_slice by lia.
  f_equal. lia.
Qed.

Lemma read_ms_lut_payload_witness :
  48 <= len ms_lut_2 /\
  startswith ConvertBinToCube.MS_MAGIC ms_lut_2 = true /\
  2 = ConvertBinToCube.header_field ms_lut_2 3 /\
  "rgb" = (if ConvertBinToCube.header_field ms_lut_2 6 =? 0 then "bgr" else "rgb") /\
  ConvertBinToCube.header_field ms_lut_2 8 + 2 * 4 <= len ms_lut_2 /\
  ConvertBinToCube.header_field ms_lut_2 10 + 3 * 2 ^ 3 <= len ms_lut_2 /\
  len ascending_24 = 3 * 2 ^ 3 /\
  forall k, 0 <= k < 3 * 2 ^ 3 ->
    nth_error ascending_24 (Z.to_nat k) =
    nth_error ms_lut_2 (Z.to_nat (ConvertBinToCube.header_field ms_lut_2 10 + k)).
Proof.
  apply (read_ms_lut_payload ms_lut_2 2 "rgb" ascending_24).
  vm_compute. reflexivity.
Defined.

Lemma read_any_raises (cbrt_round : Z -> Z) (data : bytes) (e : exn) :
  ConvertBinToCube.read_any cbrt_round data = Raise e <->
  (exists msg, ConvertBinToCube.read_ms_lut data = Raise (ValueError msg)) /\
  ((e = ValueError "byte length not divisible by 4 for RGBA data" /\
    len data mod 4 <> 0) \/
   (e = ValueError "byte length is not a perfect cube of RGBA texels" /\
    len data mod 4 = 0 /\
    cbrt_round (len data / 4) * cbrt_round (len data / 4) * cbrt_round (len data / 4)
      <> len data / 4)).
Proof.
  unfold ConvertBinToCube.read_any. split.
  - intros Hany.
    destruct (ConvertBinToCube.read_ms_lut data) as [r|e0] eqn:Hms;
      [discriminate Hany|].
    destruct (read_ms_lut_raises_value_error data e0 Hms) as [msg ->].
    split; [eauto|]. cbn [is_value_error] in Hany.
    unfold ConvertBinToCube.read_raw_rgba in Hany.
    destruct (Z.eqb_spec (len data mod 4) 0) as [Hmod | Hmod]; cbn [negb] in Hany.
    + destruct (Z.eqb_spec
                  (cbrt_round (len data / 4) * cbrt_round (len data / 4) *
                   cbrt_round (len data / 4)) (len data / 4)) as [Hc | Hc];
        cbn [negb bind] in Hany; [discriminate Hany|].
      injection Hany as <-. right. auto.
    + cbn [bind] in Hany. injection Hany as <-. left. auto.
  - intros [[msg Hms] Hraw]. rewrite Hms. cbn [is_value_error].
    unfold ConvertBinToCube.read_raw_rgba.
    destruct Hraw as [[-> Hmod] | (-> & Hmod & Hc)].
    + apply Z.eqb_neq in Hmod. now rewrite Hmod.
    + apply Z.eqb_neq in Hc. rewrite Hmod, Hc. reflexivity.
Qed.

(** X16. What [convert_file] raises, and when: one of the two [ValueError]s
    of [read_raw_rgba], after [read_ms_lut] has refused the file and the raw
    reading has failed; or [UnicodeEncodeError], when the file has been read
    and its name is not ASCII, the title line being written to a file opened
    with the ASCII encoding. Nothing else is raised: the decoding of the
    payload and the writes of the other lines never fail. *)
Theorem convert_file_errors (cbrt_round : Z -> Z) (path : file_path) (data : bytes)
  (e : exn) :
  ConvertBinToCube.convert_file cbrt_round path data = Raise e <->
  ((exists msg, ConvertBinToCube.read_ms_lut data = Raise (ValueError msg)) /\
   ((e = ValueError "byte length not divisible by 4 for RGBA data" /\
     len data mod 4 <> 0) \/
    (e = ValueError "byte length is not a perfect cube of RGBA texels" /\
     len data mod 4 = 0 /\
     cbrt_round (len data / 4) * cbrt_round (len data / 4) * cbrt_round (len data / 4)
       <> len data / 4))) \/
  (e = UnicodeEncodeError /\ str_isascii (name path) = false /\
   exists r, ConvertBinToCube.read_any cbrt_round data = Ok r).
Proof.
  destruct (ConvertBinToCube.read_any cbrt_round data)
    as [[[[sz order] payload] source]|e'] eqn:Hany.
  - rewrite (IterFacts.convert_file_of_read_any cbrt_round path data _ _ _ _ Hany).
    split.
    + destruct (str_isascii (name path)); [discriminate|].
      intros [= <-]. right. eauto.
    + intros [[Hhas Hraw] | (-> & Hascii & _)].
      * pose proof (proj2 (read_any_raises cbrt_round data e) (conj Hhas Hraw)) as Hr.
        rewrite Hany in Hr. discriminate Hr.
      * now rewrite Hascii.
  - assert (Hconv : ConvertBinToCube.convert_file cbrt_round path data = Raise e').
    { unfold ConvertBinToCube.convert_file. now rewrite Hany. }
    rewrite Hconv. split.
    + intros [= <-]. left. apply read_any_raises, Hany.
    + intros [Hraw | (_ & _ & [r Hr])]; [|discriminate Hr].
      apply read_any_raises in Hraw. congruence.
Qed.

Lemma convert_file_errors_witness :
  ConvertBinToCube.convert_file ConvertBinToCube.nearest_cbrt
    {| parent := []; name := accented_name; stem := "caf" |} ms_lut_2 =
    Raise UnicodeEncodeError /\
  ConvertBinToCube.convert_file ConvertBinToCube.nearest_cbrt
    {| parent := []; name := "lut.bin"; stem := "lut" |} truncated_48 =
    Raise (ValueError "byte length is not a perfect cube of RGBA texels").
Proof.
  split.
  - apply (convert_file_errors ConvertBinToCube.nearest_cbrt
             {| parent := []; name := accented_name; stem := "caf" |} ms_lut_2).
    right. split; [reflexivity|]. split; [reflexivity|].
    eexists. vm_compute. reflexivity.
  - apply (convert_file_errors ConvertBinToCube.nearest_cbrt
             {| parent := []; name := "lut.bin"; stem := "lut" |} truncated_48).
    left. split; [eexists; vm_compute; reflexivity|].
    right. split; [reflexivity|]. split; [reflexivity|]. vm_compute. discriminate.
Defined.

(** X17. A file that [read_ms_lut] accepts, under an ASCII name, is always
    converted, as an "ms-lut" source of the size of its header, to the path
    that [cube_path_for] gives, with one data line for each of the [size^3]
    triples of [iter_values]; the raw path and its cube root play no part.
    Under a name that is not ASCII the same file is not converted: the write
    of the title line raises [UnicodeEncodeError]. *)
Theorem convert_file_ms_lut (cbrt_round : Z -> Z) (path : file_path) (data : bytes)
  (size : Z) (order : string) (payload : bytes)
  (Hread : ConvertBinToCube.read_ms_lut data = Ok (size, order, payload)) :
  (str_isascii (name path) = true ->
   exists c,
     ConvertBinToCube.convert_file cbrt_round path data = Ok c /\
     ConvertBinToCube.size c = size /\
     ConvertBinToCube.source_type c = "ms-lut" /\
     ConvertBinToCube.dest c = ConvertBinToCube.cube_path_for path /\
     exists values,
       ConvertBinToCube.iter_values size payload order = Ok values /\
       len values = size ^ 3 /\
       ConvertBinToCube.text c = Spec.serialize values size (name path)) /\
  (str_isascii (name path) = false ->
   ConvertBinToCube.convert_file cbrt_round path data = Raise UnicodeEncodeError).
Proof.
  assert (Hany : ConvertBinToCube.read_any cbrt_round data =
                 Ok (size, order, payload, "ms-lut")).
  { unfold ConvertBinToCube.read_any. now rewrite Hread. }
  destruct (IterFacts.read_any_returns cbrt_round data _ _ _ _ Hany)
    as (Hsize & Hord & Hlen).
  rewrite (IterFacts.convert_file_of_read_any cbrt_round path data _ _ _ _ Hany).
  split; intros Hascii; rewrite Hascii; [|reflexivity].
  eexists. split; [reflexivity|].
  cbn [ConvertBinToCube.size ConvertBinToCube.source_type ConvertBinToCube.dest
       ConvertBinToCube.text].
  repeat split. eexists.
  split; [apply IterFacts.iter_values_run; [exact Hord|lia]|]. split; [|reflexivity].
  unfold len. rewrite IterFacts.length_cube_list.
  replace (size ^ 3) with (size * (size * size)) by ring.
  rewrite !Nat2Z.inj_mul, Z2Nat.id by exact Hsize. reflexivity.
Qed.

Lemma convert_file_ms_lut_witness :
  ConvertBinToCube.read_ms_lut ms_lut_2 = Ok (2, "rgb", ascending_24) /\
  (exists c,
     ConvertBinToCube.convert_file ConvertBinToCube.nearest_cbrt
       {| parent := ["film"]; name := "lut.bin"; stem := "lut" |} ms_lut_2 = Ok c /\
     ConvertBinToCube.size c = 2 /\
     ConvertBinToCube.source_type c = "ms-lut" /\
     ConvertBinToCube.dest c = ["converted_cubes"; "film"; "lut.cube"] /\
     exists values,
       ConvertBinToCube.iter_values 2 ascending_24 "rgb" = Ok values /\
       len values = 2 ^ 3 /\
       ConvertBinToCube.text c = Spec.serialize values 2 "lut.bin") /\
  ConvertBinToCube.convert_file ConvertBinToCube.nearest_cbrt
    {| parent := ["film"]; name := accented_name; stem := "caf" |} ms_lut_2 =
  Raise UnicodeEncodeError.
Proof.
  assert (Hread : ConvertBinToCube.read_ms_lut ms_lut_2 = Ok (2, "rgb", ascending_24))
    by (vm_compute; reflexivity).
  split; [exact Hread|]. split.
  - destruct (convert_file_ms_lut ConvertBinToCube.nearest_cbrt
                {| parent := ["film"]; name := "lut.bin"; stem := "lut" |}
                ms_lut_2 2 "rgb" ascending_24 Hread) as [Hok _].
    exact (Hok eq_refl).
  - destruct (convert_file_ms_lut ConvertBinToCube.nearest_cbrt
                {| parent := ["film"]; name := accented_name; stem := "caf" |}
                ms_lut_2 2 "rgb" ascending_24 Hread) as [_ Hbad].
    exact (Hbad eq_refl).
Defined.

(** *** [iter_values] *)

Lemma nth_error_cube_list_Z (size : Z) (at_rgb : Z -> Z -> Z -> triple) (r g b : Z) :
  0 <= r < size -> 0 <= g < size -> 0 <= b < size ->
  nth_error (ConvertBinToCube.cube_list size at_rgb)
            (Z.to_nat (r + g * size + b * size * size)) =
  Some (at_rgb b g r).
Proof.
  intros Hr Hg Hb.
  pose proof (IterFacts.grid_index_bound size r g b Hr Hg Hb) as Hbound.
  replace (Z.to_nat (r + g * size + b * size * size))
    with (Z.to_nat b * (Z.to_nat size * Z.to_nat size) +
          (Z.to_nat g * Z.to_nat size + Z.to_nat r))%nat.
  - rewrite IterFacts.nth_error_cube_list by lia.
    now rewrite !Z2Nat.id by lia.
  - apply Nat2Z.inj. rewrite Nat2Z.inj_add, Nat2Z.inj_mul, Nat2Z.inj_add.
    rewrite !Nat2Z.inj_mul, !Z2Nat.id by lia. ring.
Qed.

Lemma cube_list_sequential (size : Z) (at_index : Z -> triple) :
  0 <= size ->
  ConvertBinToCube.cube_list size
    (fun b g r => at_index (r + g * size + b * (size * size))) =
  map at_index (range (size ^ 3)).
Proof.
  intros Hsize. apply nth_error_ext. intros n.
  set (N := Z.to_nat size).
  assert (HN : size = Z.of_nat N) by (unfold N; lia).
  assert (Hcube : Z.to_nat (size ^ 3) = (N * (N * N))%nat).
  { replace (size ^ 3) with (size * (size * size)) by ring.
    rewrite HN, <- !Nat2Z.inj_mul. apply Nat2Z.id. }
  destruct (Nat.lt_ge_cases n (N * (N * N))) as [Hin | Hout].
  - assert (Hpos : (0 < N)%nat) by (destruct N; [lia|lia]).
    pose proof (Nat.div_mod_eq n (N * N)) as Hdiv.
    pose proof (Nat.Div0.mod_mul_r n N N) as Hmod.
    assert (Hb : (n / (N * N) < N)%nat)
      by (apply Nat.Div0.div_lt_upper_bound; lia).
    assert (Hg : ((n / N) mod N < N)%nat) by (apply Nat.mod_upper_bound; lia).
    assert (Hr : (n mod N < N)%nat) by (apply Nat.mod_upper_bound; lia).
    assert (Hn : n = (n / (N * N) * (N * N) + ((n / N) mod N * N + n mod N))%nat)
      by lia.
    rewrite Hn at 1. fold N.
    rewrite IterFacts.nth_error_cube_list by (fold N; assumption).
    rewrite nth_error_map, IterFacts.nth_error_range by lia.
    cbn [option_map]. do 2 f_equal. rewrite HN. lia.
  - rewrite (proj2 (nth_error_None _ _)), (proj2 (nth_error_None _ _));
      [reflexivity| |].
    + rewrite length_map, length_range. lia.
    + rewrite IterFacts.length_cube_list. fold N. lia.
Qed.

(** X18. In the orders "rgb" and "rgba" [iter_values] decodes the payload
    in storage order: the triple number [k] is made of the three bytes from
    [3 * k] on (from [4 * k] on for "rgba"), for [k] from 0 to
    [size^3 - 1]. *)
Theorem iter_values_storage_order (size : Z) (payload : bytes) (order : string)
  (Hsize : 0 <= size)
  (Horder : order = "rgb" \/ order = "rgba")
  (Hlen : (if String.eqb order "rgba" then 4 else 3) * size ^ 3 <= len payload) :
  ConvertBinToCube.iter_values size payload order =
  Ok (map (fun k =>
             let i := (if String.eqb order "rgba" then 4 else 3) * k in
             (inject_Z (ConvertBinToCube.byte_at payload i) * (1 / 255),
              inject_Z (ConvertBinToCube.byte_at payload (i + 1)) * (1 / 255),
              inject_Z (ConvertBinToCube.byte_at payload (i + 2)) * (1 / 255))%Q)
          (range (size ^ 3))).
Proof.
  rewrite IterFacts.iter_values_run;
    [|unfold ConvertBinToCube.supported; tauto|exact Hlen].
  f_equal.
  transitivity
    (map (fun k => ConvertBinToCube.texel payload
                     ((if String.eqb order "rgba" then 4 else 3) * k))
         (range (size ^ 3))); [|reflexivity].
  rewrite <- (cube_list_sequential size
                (fun k => ConvertBinToCube.texel payload
                            ((if String.eqb order "rgba" then 4 else 3) * k)) Hsize).
  unfold ConvertBinToCube.cube_list.
  apply flat_map_ext. intros b. apply flat_map_ext. intros g.
  apply flat_map_ext. intros r. do 2 f_equal.
  unfold ConvertBinToCube.source_index.
  destruct Horder as [-> | ->]; decide_orders; cbv beta iota zeta; ring.
Qed.

Lemma iter_values_storage_order_witness :
  ConvertBinToCube.iter_values 2 ascending_24 "rgb" =
  Ok (map (fun k =>
             let i := (if String.eqb "rgb" "rgba" then 4 else 3) * k in
             (inject_Z (ConvertBinToCube.byte_at ascending_24 i) * (1 / 255),
              inject_Z (ConvertBinToCube.byte_at ascending_24 (i + 1)) * (1 / 255),
              inject_Z (ConvertBinToCube.byte_at ascending_24 (i + 2)) * (1 / 255))%Q)
          (range (2 ^ 3))).
Proof.
  apply (iter_values_storage_order 2 ascending_24 "rgb").
  - lia.
  - now left.
  - vm_compute. discriminate.
Defined.

(** X19. On the same payload, the order "bgr" yields the triples of the
    order "rgb" with the red and blue axes exchanged: the triple of the grid
    point [(r, g, b)] in "bgr" is the triple of [(b, g, r)] in "rgb". *)
Theorem bgr_transposes_rgb (size : Z) (payload : bytes)
  (Hsize : 0 <= size) (Hlen : 3 * size ^ 3 <= len payload) :
  exists out_rgb out_bgr,
    ConvertBinToCube.iter_values size payload "rgb" = Ok out_rgb /\
    ConvertBinToCube.iter_values size payload "bgr" = Ok out_bgr /\
    len out_rgb = len out_bgr /\
    forall r g b, 0 <= r < size -> 0 <= g < size -> 0 <= b < size ->
      nth_error out_bgr (Z.to_nat (r + g * size + b * size * size)) =
      nth_error out_rgb (Z.to_nat (b + g * size + r * size * size)).
Proof.
  eexists. eexists.
  split; [apply IterFacts.iter_values_run;
          [unfold ConvertBinToCube.supported; tauto|exact Hlen]|].
  split; [apply IterFacts.iter_values_run;
          [unfold ConvertBinToCube.supported; tauto|exact Hlen]|].
  split.
  - unfold len. now rewrite !IterFacts.length_cube_list.
  - intros r g b Hr Hg Hb.
    rewrite !nth_error_cube_list_Z by assumption.
    unfold ConvertBinToCube.source_index. decide_orders. cbv beta iota zeta.
    do 2 f_equal. ring.
Qed.

Lemma bgr_transposes_rgb_witness :
  exists out_rgb out_bgr,
    ConvertBinToCube.iter_values 2 ascending_24 "rgb" = Ok out_rgb /\
    ConvertBinToCube.iter_values 2 ascending_24 "bgr" = Ok out_bgr /\
    len out_rgb = len out_bgr /\
    forall r g b, 0 <= r < 2 -> 0 <= g < 2 -> 0 <= b < 2 ->
      nth_error out_bgr (Z.to_nat (r + g * 2 + b * 2 * 2)) =
      nth_error out_rgb (Z.to_nat (b + g * 2 + r * 2 * 2)).
Proof.
  apply (bgr_transposes_rgb 2 ascending_24).
  - lia.
  - vm_compute. discriminate.
Defined.

Lemma getitem_cases {A : Type} (l : list A) (i : Z) :
  (exists x, getitem l i = Ok x) \/ getitem l i = Raise IndexError.
Proof.
  unfold getitem. destruct (_ <? 0); [now right|].
  destruct (nth_error l _); [left; eauto|now right].
Qed.

Lemma getitem_beyond {A : Type} (l : list A) (i : Z) :
  0 <= i -> len l <= i -> getitem l i = Raise IndexError.
Proof.
  intros Hlo Hhi. unfold getitem.
  destruct (Z.leb_spec 0 i); [|lia]. destruct (Z.ltb_spec i 0); [lia|].
  rewrite (proj2 (nth_error_None l (Z.to_nat i))); [reflexivity|].
  unfold len in Hhi. lia.
Qed.

Lemma yield_at_cases (payload : bytes) (idx : Z) (inv_255 : Q) :
  (exists t, ConvertBinToCube.yield_at payload idx inv_255 = Ok t) \/
  ConvertBinToCube.yield_at payload idx inv_255 = Raise IndexError.
Proof.
  unfold ConvertBinToCube.yield_at.
  destruct (getitem_cases payload idx) as [[p0 ->] | ->]; [|now right].
  destruct (getitem_cases payload (idx + 1)) as [[p1 ->] | ->]; [|now right].
  destruct (getitem_cases payload (idx + 2)) as [[p2 ->] | ->]; [|now right].
  left. cbn [bind]. eauto.
Qed.

Lemma yield_at_beyond (payload : bytes) (idx : Z) (inv_255 : Q) :
  0 <= idx -> len payload <= idx + 2 ->
  ConvertBinToCube.yield_at payload idx inv_255 = Raise IndexError.
Proof.
  intros Hlo Hhi. unfold ConvertBinToCube.yield_at.
  destruct (getitem_cases payload idx) as [[p0 ->] | ->]; [|reflexivity].
  destruct (getitem_cases payload (idx + 1)) as [[p1 ->] | ->]; [|reflexivity].
  cbn [bind]. now rewrite getitem_beyond by lia.
Qed.

Section RaisingLoops.

Context {A T : Type} (e : exn).

(** A loop whose body, at every element, either appends a chunk or raises
    [e], whatever the list it is given, does so as a whole. *)
Lemma for_each_steady (xs : list A) (body : A -> list T -> result (list T)) :
  (forall x, In x xs ->
     (exists chunk, forall out, body x out = Ok (out ++ chunk)) \/
     (forall out, body x out = Raise e)) ->
  (exists chunk, forall out, for_each xs body out = Ok (out ++ chunk)) \/
  (forall out, for_each xs body out = Raise e).
Proof.
  induction xs as [|x rest IH]; intros Hbody.
  - left. exists []. intros out. cbn. now rewrite app_nil_r.
  - destruct (Hbody x (or_introl eq_refl)) as [[chunk Hok] | Hraise].
    + destruct IH as [[chunks Hrest] | Hrest].
      * intros y Hy. apply Hbody. now right.
      * left. exists (chunk ++ chunks). intros out. cbn [for_each].
        rewrite Hok. cbn [bind]. rewrite Hrest. now rewrite app_assoc.
      * right. intros out. cbn [for_each]. rewrite Hok. cbn [bind]. apply Hrest.
    + right. intros out. cbn [for_each]. now rewrite Hraise.
Qed.

Lemma for_each_raises (xs : list A) (body : A -> list T -> result (list T)) :
  (forall x, In x xs ->
     (exists chunk, forall out, body x out = Ok (out ++ chunk)) \/
     (forall out, body x out = Raise e)) ->
  (exists x, In x xs /\ forall out, body x out = Raise e) ->
  forall out, for_each xs body out = Raise e.
Proof.
  induction xs as [|x rest IH]; intros Hbody (y & Hy & Hraise) out.
  - destruct Hy.
  - cbn [for_each].
    destruct (Hbody x (or_introl eq_refl)) as [[chunk Hok] | Hbad].
    + rewrite Hok. cbn [bind]. apply IH.
      * intros z Hz. apply Hbody. now right.
      * destruct Hy as [<- | Hy].
        -- specialize (Hok []). rewrite Hraise in Hok. discriminate Hok.
        -- exists y. auto.
    + now rewrite Hbad.
Qed.

End RaisingLoops.

Lemma in_range (n i : Z) : 0 <= i < n -> In i (range n).
Proof.
  intros Hi. unfold range. apply in_map_iff. exists (Z.to_nat i).
  split; [lia|]. apply in_seq. lia.
Qed.

Lemma triple_loop_raises (size : Z) (read : Z -> Z -> Z -> result triple) :
  (forall b g r, (exists t, read b g r = Ok t) \/ read b g r = Raise IndexError) ->
  (exists b g r, 0 <= b < size /\ 0 <= g < size /\ 0 <= r < size /\
                 read b g r = Raise IndexError) ->
  for_each (range size) (fun b =>
    for_each (range size) (fun g =>
      for_each (range size) (fun r out =>
        t <- read b g r ;; Ok (out ++ [t])))) [] =
  Raise IndexError.
Proof.
  intros Hcases (b & g & r & Hb & Hg & Hr & Hraise).
  assert (Hinner : forall b' g' r',
             (exists chunk, forall out : list triple,
                 (t <- read b' g' r' ;; Ok (out ++ [t])) = Ok (out ++ chunk)) \/
             (forall out : list triple,
                 (t <- read b' g' r' ;; Ok (out ++ [t])) = Raise IndexError)).
  { intros b' g' r'. destruct (Hcases b' g' r') as [[t ->] | ->].
    - left. exists [t]. reflexivity.
    - right. reflexivity. }
  apply (for_each_raises IndexError).
  - intros b' _. apply for_each_steady. intros g' _.
    apply for_each_steady. intros r' _. apply Hinner.
  - exists b. split; [apply in_range, Hb|].
    apply (for_each_raises IndexError).
    + intros g' _. apply for_each_steady. intros r' _. apply Hinner.
    + exists g. split; [apply in_range, Hg|].
      apply (for_each_raises IndexError).
      * intros r' _. apply Hinner.
      * exists r. split; [apply in_range, Hr|]. intros out. now rewrite Hraise.
Qed.

Lemma corner_index (size : Z) :
  (size - 1) + (size - 1) * size + (size - 1) * (size * size) = size ^ 3 - 1.
Proof. ring. Qed.

Lemma iter_values_run_tight (size : Z) (payload : bytes) (order : string) :
  0 < size -> order = "rgb" \/ order = "bgr" \/ order = "rgba" ->
  (if String.eqb order "rgba" then 4 else 3) * (size ^ 3 - 1) + 3 <= len payload ->
  ConvertBinToCube.iter_values size payload order =
  Ok (ConvertBinToCube.cube_list size
        (fun b g r =>
           ConvertBinToCube.texel payload
             (ConvertBinToCube.source_index order size r g b))).
Proof.
  intros Hsize Horder Hlen.
  replace (size ^ 3) with (size * size * size) in Hlen by ring.
  destruct Horder as [-> | [-> | ->]];
    unfold ConvertBinToCube.iter_values, ConvertBinToCube.source_index;
    decide_orders; cbv beta iota zeta in *.
  - apply (IterFacts.triple_loop size
             (fun b g r => ConvertBinToCube.yield_at payload
                             ((g * size + b * (size * size)) * 3 + r * 3) (1 / 255))
             (fun b g r => ConvertBinToCube.texel payload
                             ((g * size + b * (size * size)) * 3 + r * 3))).
    intros b g r Hb Hg Hr.
    pose proof (IterFacts.grid_index_bound size r g b Hr Hg Hb).
    apply IterFacts.yield_at_texel; lia.
  - apply (IterFacts.triple_loop size
             (fun b g r => ConvertBinToCube.yield_at payload
                             ((b + g * size) * 3 + r * (size * size) * 3) (1 / 255))
             (fun b g r => ConvertBinToCube.texel payload
                             ((b + g * size) * 3 + r * (size * size) * 3))).
    intros b g r Hb Hg Hr.
    pose proof (IterFacts.grid_index_bound size b g r Hb Hg Hr).
    apply IterFacts.yield_at_texel; lia.
  - apply (IterFacts.triple_loop size
             (fun b g r => ConvertBinToCube.yield_at payload
                             ((g * size + b * (size * size)) * 4 + r * 4) (1 / 255))
             (fun b g r => ConvertBinToCube.texel payload
                             ((g * size + b * (size * size)) * 4 + r * 4))).
    intros b g r Hb Hg Hr.
    pose proof (IterFacts.grid_index_bound size r g b Hr Hg Hb).
    apply IterFacts.yield_at_texel; lia.
Qed.

(** X20. For a positive size and a supported order, [iter_values] needs
    the three bytes of the last texel and no more: with at least
    [stride * (size^3 - 1) + 3] bytes of payload it yields [size^3] triples,
    and with fewer it raises [IndexError]; the stride is 4 for "rgba" and 3
    otherwise. An order other than "rgb", "bgr" and "rgba" raises
    [ValueError], whatever the payload. *)
Theorem iter_values_outcome (size : Z) (payload : bytes) (order : string)
  (Hsize : 0 < size) :
  let needed := (if String.eqb order "rgba" then 4 else 3) * (size ^ 3 - 1) + 3 in
  (order = "rgb" \/ order = "bgr" \/ order = "rgba" ->
   (needed <= len payload ->
    exists out, ConvertBinToCube.iter_values size payload order = Ok out /\
                len out = size ^ 3) /\
   (len payload < needed ->
    ConvertBinToCube.iter_values size payload order = Raise IndexError)) /\
  (order <> "rgb" -> order <> "bgr" -> order <> "rgba" ->
   ConvertBinToCube.iter_values size payload order =
   Raise (ValueError ("unsupported order: " ++ order)%string)).
Proof.
  cbv zeta. split.
  - intros Horder.
    assert (Hcube : size ^ 3 = size * size * size) by ring.
    pose proof (corner_index size) as Hcorner.
    split.
    + intros Hlen. eexists.
      split; [apply (iter_values_run_tight size payload order); assumption|].
      unfold len. rewrite IterFacts.length_cube_list.
      replace (size ^ 3) with (size * (size * size)) by ring.
      rewrite !Nat2Z.inj_mul, Z2Nat.id by lia. reflexivity.
    + intros Hlen.
      assert (Hlast : 0 <= size - 1 < size) by lia.
      assert (0 <= size ^ 3 - 1).
      { assert (1 <= size * size) by nia. nia. }
      destruct Horder as [-> | [-> | ->]];
        unfold ConvertBinToCube.iter_values; decide_orders;
        cbv beta iota zeta in *.
      * apply (triple_loop_raises size
                 (fun b g r => ConvertBinToCube.yield_at payload
                                 ((g * size + b * (size * size)) * 3 + r * 3) (1 / 255))).
        -- intros b g r. apply yield_at_cases.
        -- exists (size - 1), (size - 1), (size - 1). repeat split; try lia.
           apply yield_at_beyond; lia.
      * apply (triple_loop_raises size
                 (fun b g r => ConvertBinToCube.yield_at payload
                                 ((b + g * size) * 3 + r * (size * size) * 3) (1 / 255))).
        -- intros b g r. apply yield_at_cases.
        -- exists (size - 1), (size - 1), (size - 1). repeat split; try lia.
           apply yield_at_beyond; lia.
      * apply (triple_loop_raises size
                 (fun b g r => ConvertBinToCube.yield_at payload
                                 ((g * size + b * (size * size)) * 4 + r * 4) (1 / 255))).
        -- intros b g r. apply yield_at_cases.
        -- exists (size - 1), (size - 1), (size - 1). repeat split; try lia.
           apply yield_at_beyond; lia.
  - intros Hrgb Hbgr Hrgba. unfold ConvertBinToCube.iter_values.
    apply String.eqb_neq in Hrgb, Hbgr, Hrgba. now rewrite Hrgb, Hbgr, Hrgba.
Qed.

Lemma iter_values_outcome_witness :
  let needed := (if String.eqb "rgba" "rgba" then 4 else 3) * (2 ^ 3 - 1) + 3 in
  ("rgba" = "rgb" \/ "rgba" = "bgr" \/ "rgba" = "rgba" ->
   (needed <= len (repeat x00 31) ->
    exists out, ConvertBinToCube.iter_values 2 (repeat x00 31) "rgba" = Ok out /\
                len out = 2 ^ 3) /\
   (len (repeat x00 31) < needed ->
    ConvertBinToCube.iter_values 2 (repeat x00 31) "rgba" = Raise IndexError)) /\
  ("rgba" <> "rgb" -> "rgba" <> "bgr" -> "rgba" <> "rgba" ->
   ConvertBinToCube.iter_values 2 (repeat x00 31) "rgba" =
   Raise (ValueError ("unsupported order: " ++ "rgba")%string)).
Proof. apply (iter_values_outcome 2 (repeat x00 31) "rgba"). lia. Defined.

(** *** [cube_path_for] *)

Lemma append_assoc (a b c : string) : ((a ++ b) ++ c = a ++ (b ++ c))%string.
Proof. induction a as [|x a IH]; cbn; [reflexivity|now rewrite IH]. Qed.

Lemma append_inv_tail (a b q : string) : (a ++ q = b ++ q)%string -> a = b.
Proof.
  intros H. apply (f_equal list_ascii_of_string) in H.
  rewrite !chars_append in H. apply app_inv_tail in H.
  rewrite <- (string_of_list_ascii_of_string a), <- (string_of_list_ascii_of_string b).
  now rewrite H.
Qed.

Lemma substring_all (s : string) : String.substring 0 (String.length s) s = s.
Proof. induction s as [|c s IH]; cbn; [reflexivity|now rewrite IH]. Qed.

Lemma substring_app_left (pre t : string) :
  String.substring 0 (String.length pre) (pre ++ t) = pre.
Proof.
  induction pre as [|c pre IH]; cbn.
  - now destruct t.
  - now rewrite IH.
Qed.

Lemma substring_app_right (pre t : string) (k : nat) :
  String.substring (String.length pre) k (pre ++ t) = String.substring 0 k t.
Proof. induction pre as [|c pre IH]; cbn; [reflexivity|exact IH]. Qed.

Lemma substring_split (s : string) :
  forall a, (a <= String.length s)%nat ->
    s = (String.substring 0 a s ++ String.substring a (String.length s - a) s)%string.
Proof.
  induction s as [|c s IH]; intros a Ha.
  - destruct a; reflexivity.
  - destruct a as [|a].
    + cbn [String.substring String.append String.length Nat.sub].
      now rewrite substring_all.
    + cbn [String.length] in Ha.
      cbn [String.substring String.append String.length Nat.sub].
      f_equal. apply IH. lia.
Qed.

Lemma endswith_iff (suffix s : string) :
  endswith suffix s = true <-> exists pre, s = (pre ++ suffix)%string.
Proof.
  unfold endswith. split.
  - intros H. apply andb_true_iff in H as [Hle Heq].
    apply Nat.leb_le in Hle. apply String.eqb_eq in Heq.
    exists (String.substring 0 (String.length s - String.length suffix) s).
    rewrite <- Heq at 2.
    rewrite (substring_split s (String.length s - String.length suffix)) at 1 by lia.
    do 2 f_equal. lia.
  - intros [pre ->]. rewrite length_append. apply andb_true_iff. split.
    + apply Nat.leb_le. lia.
    + apply String.eqb_eq.
      replace (String.length pre + String.length suffix - String.length suffix)%nat
        with (String.length pre) by lia.
      now rewrite substring_app_right, substring_all.
Qed.

Lemma endswith_app_both (p q s : string) :
  endswith (p ++ q) (s ++ q) = endswith p s.
Proof.
  destruct (endswith p s) eqn:Hps.
  - apply endswith_iff in Hps as [pre ->]. apply endswith_iff.
    exists pre. apply append_assoc.
  - apply not_true_is_false. intros H. apply endswith_iff in H as [pre Hpre].
    rewrite <- append_assoc in Hpre. apply append_inv_tail in Hpre.
    assert (endswith p s = true) by (apply endswith_iff; eauto). congruence.
Qed.

Lemma drop_last_app (base suffix : string) :
  drop_last (String.length suffix) (base ++ suffix) = base.
Proof.
  unfold drop_last. rewrite length_append.
  replace (String.length base + String.length suffix - String.length suffix)%nat
    with (String.length base) by lia.
  apply substring_app_left.
Qed.

(** X21. [cube_path_for] does not keep the destinations of different
    sources apart: for a base name that ends neither in [.rgb] nor, in any
    case of letters, in [.cube], the sources [<base>.bin] and
    [<base>.rgb.bin] of one folder both go to [<base>.cube] in the mirror of
    that folder under [converted_cubes]. *)
Theorem cube_path_for_collision (dir : Path) (base stem1 stem2 : string)
  (Hrgb : endswith ".rgb" base = false)
  (Hcube : endswith ".cube" (lower base) = false) :
  ConvertBinToCube.cube_path_for
    {| parent := dir; name := (base ++ ".bin")%string; stem := stem1 |} =
    "converted_cubes" :: dir ++ [(base ++ ".cube")%string] /\
  ConvertBinToCube.cube_path_for
    {| parent := dir; name := (base ++ ".rgb.bin")%string; stem := stem2 |} =
    "converted_cubes" :: dir ++ [(base ++ ".cube")%string].
Proof.
  unfold ConvertBinToCube.cube_path_for. cbn [name parent]. split.
  - change ".rgb.bin" with (".rgb" ++ ".bin")%string.
    rewrite endswith_app_both, Hrgb.
    rewrite (proj2 (endswith_iff ".bin" (base ++ ".bin"))) by eauto.
    change 4%nat with (String.length ".bin"). rewrite drop_last_app, Hcube.
    reflexivity.
  - rewrite (proj2 (endswith_iff ".rgb.bin" (base ++ ".rgb.bin"))) by eauto.
    change 8%nat with (String.length ".rgb.bin"). rewrite drop_last_app, Hcube.
    reflexivity.
Qed.

Lemma cube_path_for_collision_witness :
  ConvertBinToCube.cube_path_for
    {| parent := ["film"]; name := ("velvia" ++ ".bin")%string; stem := "velvia" |} =
    "converted_cubes" :: ["film"] ++ [("velvia" ++ ".cube")%string] /\
  ConvertBinToCube.cube_path_for
    {| parent := ["film"]; name := ("velvia" ++ ".rgb.bin")%string;
       stem := "velvia.rgb" |} =
    "converted_cubes" :: ["film"] ++ [("velvia" ++ ".cube")%string].
Proof.
  apply (cube_path_for_collision ["film"] "velvia" "velvia" "velvia.rgb");
    reflexivity.
Defined.

(** *** convert_png_to_cube.py *)

Lemma pixel_at_inside (img : ConvertPngToCube.image) (x y : Z) :
  ConvertPngToCube.rectangular img ->
  0 <= x < ConvertPngToCube.width img -> 0 <= y < ConvertPngToCube.height img ->
  ConvertPngToCube.pixel_at img x y = Ok (ConvertPngToCube.pixel_of img x y).
Proof.
  intros [Hrows Hrow] Hx Hy. unfold ConvertPngToCube.pixel_at, ConvertPngToCube.pixel_of.
  rewrite (getitem_in_range (ConvertPngToCube.rows img) y []) by lia. cbn [bind].
  apply getitem_in_range. rewrite Hrow; [exact Hx|].
  apply nth_In. unfold len in Hrows. lia.
Qed.

Lemma hald_values (img : ConvertPngToCube.image) :
  ConvertPngToCube.rectangular img ->
  ConvertPngToCube.width img = 512 -> ConvertPngToCube.height img = 512 ->
  for_each (range 64) (fun b =>
    for_each (range 64) (fun g =>
      for_each (range 64) (fun r out =>
        pixel <- ConvertPngToCube.pixel_at img (b mod 8 * 64 + r) (b / 8 * 64 + g) ;;
        Ok (out ++ [ConvertPngToCube.pixel_values pixel])))) [] =
  Ok (ConvertBinToCube.cube_list 64
        (fun b g r =>
           ConvertPngToCube.pixel_values
             (ConvertPngToCube.pixel_of img (b mod 8 * 64 + r) (b / 8 * 64 + g)))).
Proof.
  intros Hrect Hw Hh. unfold ConvertBinToCube.cube_list.
  rewrite (for_each_appends (range 64) _
             (fun b => flat_map
                (fun g => flat_map
                   (fun r => [ConvertPngToCube.pixel_values
                                (ConvertPngToCube.pixel_of img (b mod 8 * 64 + r)
                                   (b / 8 * 64 + g))])
                   (range 64)) (range 64))); [reflexivity|].
  intros b out Hb. apply range_nonneg in Hb.
  apply for_each_appends. intros g out' Hg. apply range_nonneg in Hg.
  apply for_each_appends. intros r out'' Hr. apply range_nonneg in Hr.
  assert (0 <= b mod 8 < 8) by (apply Z.mod_pos_bound; lia).
  assert (0 <= b / 8 < 8)
    by (split; [apply Z.div_pos; lia|apply Z.div_lt_upper_bound; lia]).
  rewrite pixel_at_inside by (assumption || lia). reflexivity.
Qed.

Lemma convert_hald_clut_run (img : ConvertPngToCube.image) (stem : string) :
  ConvertPngToCube.rectangular img ->
  ConvertPngToCube.width img = 512 -> ConvertPngToCube.height img = 512 ->
  ConvertPngToCube.convert_hald_clut img stem =
    Ok (Some ("TITLE " ++ dquote ++ stem ++ dquote ++ newline ++
              "LUT_3D_SIZE 64" ++ newline ++
              "DOMAIN_MIN 0.0 0.0 0.0" ++ newline ++
              "DOMAIN_MAX 1.0 1.0 1.0" ++ newline ++
              String.concat EmptyString
                (map ConvertPngToCube.data_line
                   (ConvertBinToCube.cube_list 64
                      (fun b g r =>
                         ConvertPngToCube.pixel_values
                           (ConvertPngToCube.pixel_of img (b mod 8 * 64 + r)
                              (b / 8 * 64 + g))))))%string).
Proof.
  intros Hrect Hw Hh.
  unfold ConvertPngToCube.convert_hald_clut.
  rewrite Hw, Hh.
  change (negb (512 =? 512) || negb (512 =? 512)) with false.
  cbv beta iota zeta.
  rewrite (hald_values img Hrect Hw Hh).
  cbn [bind].
  reflexivity.
Qed.

Lemma hald_point (img : ConvertPngToCube.image) (r g b : Z) :
  0 <= r < 64 -> 0 <= g < 64 -> 0 <= b < 64 ->
  nth_error
    (ConvertBinToCube.cube_list 64
       (fun b g r =>
          ConvertPngToCube.pixel_values
            (ConvertPngToCube.pixel_of img (b mod 8 * 64 + r) (b / 8 * 64 + g))))
    (Z.to_nat (r + 64 * g + 4096 * b)) =
  Some (ConvertPngToCube.pixel_values
          (ConvertPngToCube.pixel_of img (b mod 8 * 64 + r) (b / 8 * 64 + g))).
Proof.
  intros Hr Hg Hb.
  replace (r + 64 * g + 4096 * b) with (r + g * 64 + b * 64 * 64) by lia.
  rewrite nth_error_cube_list_Z by lia.
  reflexivity.
Qed.

Lemma hald_tiles (x y : Z) :
  0 <= x < 512 -> 0 <= y < 512 ->
  0 <= x mod 64 < 64 /\ 0 <= y mod 64 < 64 /\ 0 <= x / 64 < 8 /\ 0 <= y / 64 < 8 /\
  x = 64 * (x / 64) + x mod 64 /\ y = 64 * (y / 64) + y mod 64.
Proof.
  intros Hx Hy.
  pose proof (Z.div_mod x 64 ltac:(lia)). pose proof (Z.div_mod y 64 ltac:(lia)).
  pose proof (Z.mod_pos_bound x 64 ltac:(lia)).
  pose proof (Z.mod_pos_bound y 64 ltac:(lia)).
  repeat split; lia.
Qed.

Lemma flat_map_single {A B : Type} (f : A -> B) (xs : list A) :
  flat_map (fun x => [f x]) xs = map f xs.
Proof. induction xs as [|x rest IH]; cbn; [reflexivity|now rewrite IH]. Qed.

Lemma convert_1d_lut_run (img : ConvertPngToCube.image) (stem : string) :
  ConvertPngToCube.rectangular img -> ConvertPngToCube.height img = 1 ->
  ConvertPngToCube.convert_1d_lut img stem =
    Ok (Some ("TITLE " ++ dquote ++ stem ++ dquote ++ newline ++
              "LUT_1D_SIZE " ++ str_int (ConvertPngToCube.width img) ++ newline ++
              "DOMAIN_MIN 0.0 0.0 0.0" ++ newline ++
              "DOMAIN_MAX 1.0 1.0 1.0" ++ newline ++
              String.concat EmptyString
                (map ConvertPngToCube.data_line
                   (map (fun i => ConvertPngToCube.pixel_values
                                    (ConvertPngToCube.pixel_of img i 0))
                      (range (ConvertPngToCube.width img)))))%string).
Proof.
  intros Hrect Hh. unfold ConvertPngToCube.convert_1d_lut.
  rewrite Hh. change (negb (1 =? 1)) with false. cbv beta iota zeta.
  rewrite (for_each_appends (range (ConvertPngToCube.width img)) _
             (fun i => [ConvertPngToCube.pixel_values
                          (ConvertPngToCube.pixel_of img i 0)])).
  - cbn [bind app]. now rewrite flat_map_single.
  - intros i out Hi. apply range_nonneg in Hi.
    rewrite pixel_at_inside by (assumption || lia). reflexivity.
Qed.

(** X22. For a 512 by 512 image [convert_hald_clut] never leaves the image:
    it writes the four header lines with [LUT_3D_SIZE 64] and then 64^3 data
    lines, the line of the grid point [(r, g, b)] coming from the pixel at
    column [(b % 8) * 64 + r] and row [(b // 8) * 64 + g]; every pixel
    [(x, y)] of the image is the source of a line, and two different pixels
    are the sources of two different lines. *)
Theorem hald_clut_lines (img : ConvertPngToCube.image) (stem : string)
  (Hrect : ConvertPngToCube.rectangular img)
  (Hw : ConvertPngToCube.width img = 512) (Hh : ConvertPngToCube.height img = 512) :
  exists values,
    ConvertPngToCube.convert_hald_clut img stem =
      Ok (Some ("TITLE " ++ dquote ++ stem ++ dquote ++ newline ++
                "LUT_3D_SIZE 64" ++ newline ++
                "DOMAIN_MIN 0.0 0.0 0.0" ++ newline ++
                "DOMAIN_MAX 1.0 1.0 1.0" ++ newline ++
                String.concat EmptyString
                  (map ConvertPngToCube.data_line values))%string) /\
    len values = 64 ^ 3 /\
    (forall r g b, 0 <= r < 64 -> 0 <= g < 64 -> 0 <= b < 64 ->
       nth_error values (Z.to_nat (r + 64 * g + 4096 * b)) =
       Some (ConvertPngToCube.pixel_values
               (ConvertPngToCube.pixel_of img (b mod 8 * 64 + r) (b / 8 * 64 + g)))) /\
    (forall x y, 0 <= x < 512 -> 0 <= y < 512 ->
       nth_error values
         (Z.to_nat (x mod 64 + 64 * (y mod 64) + 4096 * (8 * (y / 64) + x / 64))) =
       Some (ConvertPngToCube.pixel_values (ConvertPngToCube.pixel_of img x y))) /\
    (forall x y x' y',
       0 <= x < 512 -> 0 <= y < 512 -> 0 <= x' < 512 -> 0 <= y' < 512 ->
       x mod 64 + 64 * (y mod 64) + 4096 * (8 * (y / 64) + x / 64) =
       x' mod 64 + 64 * (y' mod 64) + 4096 * (8 * (y' / 64) + x' / 64) ->
       x = x' /\ y = y').
Proof.
  exists (ConvertBinToCube.cube_list 64
            (fun b g r =>
               ConvertPngToCube.pixel_values
                 (ConvertPngToCube.pixel_of img (b mod 8 * 64 + r) (b / 8 * 64 + g)))).
  split; [|split; [|split; [|split]]].
  - exact (convert_hald_clut_run img stem Hrect Hw Hh).
  - unfold len. rewrite IterFacts.length_cube_list. lia.
  - exact (hald_point img).
  - intros x y Hx Hy.
    destruct (hald_tiles x y Hx Hy) as (Hxm & Hym & Hxd & Hyd & Hxe & Hye).
    rewrite hald_point by lia.
    assert (Hb : (8 * (y / 64) + x / 64) mod 8 = x / 64).
    { replace (8 * (y / 64) + x / 64) with (x / 64 + (y / 64) * 8) by lia.
      rewrite Z.mod_add, Z.mod_small by lia. reflexivity. }
    assert (Hb' : (8 * (y / 64) + x / 64) / 8 = y / 64).
    { replace (8 * (y / 64) + x / 64) with (x / 64 + (y / 64) * 8) by lia.
      rewrite Z.div_add, Z.div_small by lia. lia. }
    rewrite Hb, Hb'. do 3 f_equal; lia.
  - intros x y x' y' Hx Hy Hx' Hy' Heq.
    destruct (hald_tiles x y Hx Hy) as (Hxm & Hym & Hxd & Hyd & Hxe & Hye).
    destruct (hald_tiles x' y' Hx' Hy') as (Hxm' & Hym' & Hxd' & Hyd' & Hxe' & Hye').
    lia.
Qed.

Lemma black_hald_rectangular : ConvertPngToCube.rectangular black_hald.
Proof.
  split; [vm_compute; reflexivity|].
  intros row Hin. apply repeat_spec in Hin. subst row. vm_compute. reflexivity.
Qed.

Lemma black_strip_rectangular : ConvertPngToCube.rectangular black_strip.
Proof.
  split; [reflexivity|].
  intros row [<-|[]]. vm_compute. reflexivity.
Qed.

Lemma hald_clut_lines_witness :
  ConvertPngToCube.width black_hald = 512 /\ ConvertPngToCube.height black_hald = 512 /\
  exists values,
    ConvertPngToCube.convert_hald_clut black_hald "hald" =
      Ok (Some ("TITLE " ++ dquote ++ "hald" ++ dquote ++ newline ++
                "LUT_3D_SIZE 64" ++ newline ++
                "DOMAIN_MIN 0.0 0.0 0.0" ++ newline ++
                "DOMAIN_MAX 1.0 1.0 1.0" ++ newline ++
                String.concat EmptyString
                  (map ConvertPngToCube.data_line values))%string) /\
    len values = 64 ^ 3.
Proof.
  split; [reflexivity|]. split; [reflexivity|].
  destruct (hald_clut_lines black_hald "hald" black_hald_rectangular eq_refl eq_refl)
    as (values & Hrun & Hlen & _).
  exists values. split; [exact Hrun|exact Hlen].
Defined.

(** X23. [convert_1d_lut] writes nothing when the image is not one pixel
    high; when it is, it never leaves the image and writes the header with
    [LUT_1D_SIZE <width>] and then one data line for each column, the line
    of column [i] coming from the pixel [(i, 0)]. *)
Theorem convert_1d_lut_lines (img : ConvertPngToCube.image) (stem : string)
  (Hrect : ConvertPngToCube.rectangular img) :
  (ConvertPngToCube.height img <> 1 ->
   ConvertPngToCube.convert_1d_lut img stem = Ok None) /\
  (ConvertPngToCube.height img = 1 ->
   exists values,
     ConvertPngToCube.convert_1d_lut img stem =
       Ok (Some ("TITLE " ++ dquote ++ stem ++ dquote ++ newline ++
                 "LUT_1D_SIZE " ++ str_int (ConvertPngToCube.width img) ++ newline ++
                 "DOMAIN_MIN 0.0 0.0 0.0" ++ newline ++
                 "DOMAIN_MAX 1.0 1.0 1.0" ++ newline ++
                 String.concat EmptyString
                   (map ConvertPngToCube.data_line values))%string) /\
     len values = Z.max 0 (ConvertPngToCube.width img) /\
     forall i, 0 <= i < ConvertPngToCube.width img ->
       nth_error values (Z.to_nat i) =
       Some (ConvertPngToCube.pixel_values (ConvertPngToCube.pixel_of img i 0))).
Proof.
  split.
  - intros Hh. unfold ConvertPngToCube.convert_1d_lut.
    destruct (Z.eqb_spec (ConvertPngToCube.height img) 1) as [H1|_]; [contradiction|].
    reflexivity.
  - intros Hh.
    exists (map (fun i => ConvertPngToCube.pixel_values
                            (ConvertPngToCube.pixel_of img i 0))
              (range (ConvertPngToCube.width img))).
    split; [exact (convert_1d_lut_run img stem Hrect Hh)|]. split.
    + unfold len. rewrite length_map, length_range. lia.
    + intros i Hi. rewrite nth_error_map, IterFacts.nth_error_range by lia.
      cbn [option_map]. now rewrite Z2Nat.id by lia.
Qed.

Lemma convert_1d_lut_lines_witness :
  (ConvertPngToCube.height black_strip <> 1 ->
   ConvertPngToCube.convert_1d_lut black_strip "strip" = Ok None) /\
  (ConvertPngToCube.height black_strip = 1 ->
   exists values,
     ConvertPngToCube.convert_1d_lut black_strip "strip" =
       Ok (Some ("TITLE " ++ dquote ++ "strip" ++ dquote ++ newline ++
                 "LUT_1D_SIZE " ++ str_int (ConvertPngToCube.width black_strip) ++ newline ++
                 "DOMAIN_MIN 0.0 0.0 0.0" ++ newline ++
                 "DOMAIN_MAX 1.0 1.0 1.0" ++ newline ++
                 String.concat EmptyString
                   (map ConvertPngToCube.data_line values))%string) /\
     len values = Z.max 0 (ConvertPngToCube.width black_strip) /\
     forall i, 0 <= i < ConvertPngToCube.width black_strip ->
       nth_error values (Z.to_nat i) =
       Some (ConvertPngToCube.pixel_values
               (ConvertPngToCube.pixel_of black_strip i 0))).
Proof. exact (convert_1d_lut_lines black_strip "strip" black_strip_rectangular). Defined.

(** X24. The choice that [main] makes for one image: an image whose rows
    match its size never raises, and a file is written exactly when the
    image is 512 by 512 or 256 by 1; every other size is skipped. *)
Theorem convert_image_outcome (img : ConvertPngToCube.image) (stem : string)
  (Hrect : ConvertPngToCube.rectangular img) :
  (forall e, ConvertPngToCube.convert_image img stem <> Raise e) /\
  ((exists text, ConvertPngToCube.convert_image img stem = Ok (Some text)) <->
   (ConvertPngToCube.width img = 512 /\ ConvertPngToCube.height img = 512) \/
   (ConvertPngToCube.width img = 256 /\ ConvertPngToCube.height img = 1)) /\
  (ConvertPngToCube.convert_image img stem = Ok None <->
   ~ ((ConvertPngToCube.width img = 512 /\ ConvertPngToCube.height img = 512) \/
      (ConvertPngToCube.width img = 256 /\ ConvertPngToCube.height img = 1))).
Proof.
  unfold ConvertPngToCube.convert_image. cbv zeta.
  destruct (Z.eqb_spec (ConvertPngToCube.width img) 512) as [Hw|Hw];
    destruct (Z.eqb_spec (ConvertPngToCube.height img) 512) as [Hh|Hh];
    cbn [andb].
  1: { rewrite (convert_hald_clut_run img stem Hrect Hw Hh).
       split; [discriminate|]. split; split.
       - intros _. left. now split.
       - intros _. eexists. reflexivity.
       - discriminate.
       - intros Hn. exfalso. apply Hn. left. now split. }
  all: destruct (Z.eqb_spec (ConvertPngToCube.width img) 256) as [Hw'|Hw'];
    destruct (Z.eqb_spec (ConvertPngToCube.height img) 1) as [Hh'|Hh'];
    cbn [andb];
    try rewrite (convert_1d_lut_run img stem Hrect Hh');
    (split; [discriminate|]); split; split;
    first [ discriminate
          | intros _; right; now split
          | intros _; eexists; reflexivity
          | intros [text Ht]; discriminate Ht
          | intros Hn; exfalso; apply Hn; right; now split
          | intros _; reflexivity
          | intros [[? ?]|[? ?]]; lia
          | intros _ [[? ?]|[? ?]]; lia ].
Qed.

Lemma convert_image_outcome_witness :
  (forall e, ConvertPngToCube.convert_image black_strip "strip" <> Raise e) /\
  ((exists text, ConvertPngToCube.convert_image black_strip "strip" = Ok (Some text)) <->
   (ConvertPngToCube.width black_strip = 512 /\
    ConvertPngToCube.height black_strip = 512) \/
   (ConvertPngToCube.width black_strip = 256 /\
    ConvertPngToCube.height black_strip = 1)) /\
  (ConvertPngToCube.convert_image black_strip "strip" = Ok None <->
   ~ ((ConvertPngToCube.width black_strip = 512 /\
       ConvertPngToCube.height black_strip = 512) \/
      (ConvertPngToCube.width black_strip = 256 /\
       ConvertPngToCube.height black_strip = 1))).
Proof. exact (convert_image_outcome black_strip "strip" black_strip_rectangular). Defined.

End Coverage.
